(** * GoogleMapCard: initialization pipeline and nearby-places aggregation

    A shallow embedding of [src/components/GoogleMapCard.tsx]:

    - the nearby-places search ([searchNearbyFishingPlaces]) with its
      completion counter, identifier scheme and final ordering;
    - the haversine distance ([calculateDistance]);
    - the three initialization tasks of the component (boundary fetch,
      geolocation, map engine script) and the effect that guards
      [initializeMap];
    - the rest of the component: the list of [renderContent] and its Retry
      button, [searchNearbyFishingPlacesModern], [handleBorderCrossing] and
      the colour tables of the categories.

    JavaScript numbers that carry coordinates and distances are an abstract
    type [number] in the search code (only the sign of a difference is ever
    inspected there).  [calculateDistance] is given twice: over the real
    numbers, for the geometry of the formula, and over IEEE doubles
    ([Double.calculateDistance], with the platform's [Math.sin], [Math.cos]
    and [Math.atan2] as parameters), for what the program computes.  Array
    indices, identifiers and counters are natural numbers.

    The component's life is given twice as well: a [session] is a sequence
    of loader callbacks, geolocation answers and boundary responses after a
    mount into a document without the maps API; a [lifetime] adds the clicks
    on Retry and an API that appears in the page by other means, starts in
    any document, and runs the effect that guards [initializeMap] after
    every interaction. *)

From Stdlib Require Import String Ascii.
From Stdlib Require Import List Bool Arith Lia Permutation Sorted.
From Stdlib Require Import Reals Lra Machin.
From Corelib Require PrimFloat FloatAxioms.
Import ListNotations.

Set Implicit Arguments.

(* ===================================================================== *)
(** ** Data model *)
(* ===================================================================== *)

(** [interface UserLocation { lat: number; lng: number }] *)
Module Location.
Record UserLocation (number : Type) : Type := mk
  { lat : number; lng : number }.
Arguments mk {number} _ _.
Arguments lat {number} _.
Arguments lng {number} _.
End Location.
Abbreviation UserLocation := Location.UserLocation.

(** The [type] member of [FishingPOI]. *)
Inductive POIType : Type :=
| fishing_spot | marina | bait_shop | safety_station
| port | fishing_charter | boat_ramp.

(** [google.maps.places.PlacesServiceStatus]. *)
Inductive PlacesServiceStatus : Type :=
| OK | ZERO_RESULTS | INVALID_REQUEST | OVER_QUERY_LIMIT
| REQUEST_DENIED | UNKNOWN_ERROR | NOT_FOUND.

Definition status_is_OK (s : PlacesServiceStatus) : bool :=
  match s with OK => true | _ => false end.

(** The members of [google.maps.places.PlaceResult] the component reads.
    An absent member is [None]; a photo is represented by the URL its
    [getUrl] returns. *)
Module Places.
Record PlaceGeometry (number : Type) : Type := mkGeometry
  { location : option (UserLocation number) }.
Arguments mkGeometry {number} _.
Arguments location {number} _.

Record PlaceResult (number : Type) : Type := mkPlace
  { geometry : option (PlaceGeometry number);
    name : option string;
    vicinity : option string;
    rating : option number;
    place_id : option string;
    price_level : option nat;
    photos : option (list string) }.
Arguments mkPlace {number} _ _ _ _ _ _ _.
Arguments geometry {number} _.
Arguments name {number} _.
Arguments vicinity {number} _.
Arguments rating {number} _.
Arguments place_id {number} _.
Arguments price_level {number} _.
Arguments photos {number} _.
End Places.
Abbreviation PlaceResult := Places.PlaceResult.

(** [interface FishingPOI]. *)
Record FishingPOI (number : Type) : Type := mkPOI
  { id : nat;
    name : string;
    type : POIType;
    lat : number;
    lng : number;
    distance : number;
    description : string;
    rating : option number;
    place_id : option string;
    price_level : option nat;
    photos : option (list string) }.
Arguments mkPOI {number} _ _ _ _ _ _ _ _ _ _ _.
Arguments id {number} _.
Arguments name {number} _.
Arguments type {number} _.
Arguments lat {number} _.
Arguments lng {number} _.
Arguments distance {number} _.
Arguments description {number} _.
Arguments rating {number} _.
Arguments place_id {number} _.
Arguments price_level {number} _.
Arguments photos {number} _.

(** One entry of the [searches] table. *)
Record Search : Type := mkSearch { keyword : string; search_type : POIType }.

(** The [searches] constant of [searchNearbyFishingPlaces]. *)
Definition searches : list Search :=
  [ mkSearch "fishing marina harbor" marina;
    mkSearch "fishing spot pier jetty" fishing_spot;
    mkSearch "bait tackle fishing shop" bait_shop;
    mkSearch "coast guard marine safety" safety_station;
    mkSearch "port harbor dock" port;
    mkSearch "fishing charter boat tours" fishing_charter;
    mkSearch "boat ramp launch" boat_ramp ].

(** [s || fallback] on an optional string: [undefined] and the empty string
    are falsy. *)
Definition or_string (s : option string) (fallback : string) : string :=
  match s with
  | Some EmptyString => fallback
  | Some v => v
  | None => fallback
  end.

(** What the search writes to the console. *)
Inductive SearchLog : Type :=
| PlacesSearchFailed (status : PlacesServiceStatus) (kw : string)
| ErrorSearchingFor (kw : string).

(* ===================================================================== *)
(** ** searchNearbyFishingPlaces *)
(* ===================================================================== *)

Section SearchOrchestrator.

Variable number : Type.

(** [numCompare a b] is the sign of [a - b]. *)
Variable numCompare : number -> number -> comparison.

(** The distance function the search calls. *)
Variable calculateDistance : UserLocation number -> UserLocation number -> number.

(** [(a, b) => a.distance - b.distance] *)
Definition byDistance (a b : FishingPOI number) : comparison :=
  numCompare (distance a) (distance b).

(** [Array.prototype.sort] with a comparator.  The sort is stable; for a
    consistent comparator its result does not depend on the algorithm, and
    insertion from the right computes it: [x] moves past exactly the
    elements it is strictly greater than. *)
Fixpoint sort_insert (A : Type) (cmp : A -> A -> comparison) (x : A) (l : list A) : list A :=
  match l with
  | [] => [x]
  | y :: l' =>
      match cmp x y with
      | Gt => y :: sort_insert cmp x l'
      | _ => x :: l
      end
  end.

Definition Array_sort (A : Type) (cmp : A -> A -> comparison) (l : list A) : list A :=
  fold_right (sort_insert cmp) [] l.

(** [results.slice(0, 3)] *)
Definition slice_0_3 (A : Type) (l : list A) : list A := firstn 3 l.

(** The body of the [forEach] callback for one place: the POI that is
    pushed, or [None] when the place has no geometry or location. *)
Definition placeToPOI (origin : UserLocation number) (index : nat) (search : Search)
           (placeIndex : nat) (place : PlaceResult number) : option (FishingPOI number) :=
  match Places.geometry place with
  | None => None
  | Some g =>
      match Places.location g with
      | None => None
      | Some loc =>
          Some {| id := index * 10 + placeIndex;
                  name := or_string (Places.name place) "Unknown Location";
                  type := search_type search;
                  lat := Location.lat loc;
                  lng := Location.lng loc;
                  distance := calculateDistance origin
                                (Location.mk (Location.lat loc) (Location.lng loc));
                  description := or_string (Places.vicinity place) "No description available";
                  rating := Places.rating place;
                  place_id := Places.place_id place;
                  price_level := Places.price_level place;
                  photos := option_map (firstn 1) (Places.photos place) |}
      end
  end.

(** [places.forEach((place, placeIndex) => ...)] started at [placeIndex],
    pushing onto [acc]. *)
Fixpoint forEachPlace (origin : UserLocation number) (index : nat) (search : Search)
         (placeIndex : nat) (places : list (PlaceResult number))
         (acc : list (FishingPOI number)) : list (FishingPOI number) :=
  match places with
  | [] => acc
  | place :: rest =>
      forEachPlace origin index search (S placeIndex) rest
        match placeToPOI origin index search placeIndex place with
        | Some poi => acc ++ [poi]
        | None => acc
        end
  end.

(** The local variables of one call of [searchNearbyFishingPlaces] and what
    it has done to the component: [allPOIs] and [searchesCompleted] are the
    two [let]/[const] bindings; [published] tells whether [setFishingPOIs]
    has been handed the [allPOIs] array (the state then shares that array,
    it is not a copy); [setFishingPOIsCalls] counts the calls. *)
Record SearchRun : Type := mkRun
  { allPOIs : list (FishingPOI number);
    searchesCompleted : nat;
    published : bool;
    setFishingPOIsCalls : nat;
    searchLog : list SearchLog }.

Definition startRun : SearchRun :=
  {| allPOIs := []; searchesCompleted := 0; published := false;
     setFishingPOIsCalls := 0; searchLog := [] |}.

(** The [fishingPOIs] state of the component as this run leaves it:
    [useState<FishingPOI[]>([])] until the run publishes. *)
Definition fishingPOIs (r : SearchRun) : list (FishingPOI number) :=
  if published r then allPOIs r else [].

(** [if (searchesCompleted === searches.length)
      { allPOIs.sort(...); setFishingPOIs(allPOIs); }] *)
Definition finalizeWhenComplete (qs : list Search) (r : SearchRun) : SearchRun :=
  if searchesCompleted r =? length qs then
    {| allPOIs := Array_sort byDistance (allPOIs r);
       searchesCompleted := searchesCompleted r;
       published := true;
       setFishingPOIsCalls := S (setFishingPOIsCalls r);
       searchLog := searchLog r |}
  else r.

(** The callback handed to [service.nearbySearch] for category [index]. *)
Definition nearbySearchCallback (qs : list Search) (origin : UserLocation number)
           (index : nat) (search : Search)
           (results : option (list (PlaceResult number))) (status : PlacesServiceStatus)
           (r : SearchRun) : SearchRun :=
  let counted :=
    {| allPOIs := allPOIs r;
       searchesCompleted := S (searchesCompleted r);
       published := published r;
       setFishingPOIsCalls := setFishingPOIsCalls r;
       searchLog := searchLog r |} in
  let collected :=
    match status, results with
    | OK, Some places =>
        {| allPOIs := forEachPlace origin index search 0 (slice_0_3 places) (allPOIs counted);
           searchesCompleted := searchesCompleted counted;
           published := published counted;
           setFishingPOIsCalls := setFishingPOIsCalls counted;
           searchLog := searchLog counted |}
    | OK, None => counted
    | _, _ =>
        {| allPOIs := allPOIs counted;
           searchesCompleted := searchesCompleted counted;
           published := published counted;
           setFishingPOIsCalls := setFishingPOIsCalls counted;
           searchLog := searchLog counted ++ [PlacesSearchFailed status (keyword search)] |}
    end in
  finalizeWhenComplete qs collected.

(** The [catch] block around [service.nearbySearch]. *)
Definition nearbySearchCatch (qs : list Search) (search : Search) (r : SearchRun) : SearchRun :=
  finalizeWhenComplete qs
    {| allPOIs := allPOIs r;
       searchesCompleted := S (searchesCompleted r);
       published := published r;
       setFishingPOIsCalls := setFishingPOIsCalls r;
       searchLog := searchLog r ++ [ErrorSearchingFor (keyword search)] |}.

(** How the query of one category ends: the provider invokes the callback,
    or [nearbySearch] throws. *)
Inductive QueryOutcome : Type :=
| Responded (results : option (list (PlaceResult number))) (status : PlacesServiceStatus)
| Threw.

(** A completion: the category index with the outcome of its query.  The
    queries are dispatched in index order, 200 ms apart; their completions
    arrive in whatever order the provider answers. *)
Definition Completion : Type := (nat * QueryOutcome)%type.

Definition complete (qs : list Search) (origin : UserLocation number)
           (r : SearchRun) (c : Completion) : SearchRun :=
  match nth_error qs (fst c) with
  | None => r
  | Some search =>
      match snd c with
      | Responded results status =>
          nearbySearchCallback qs origin (fst c) search results status r
      | Threw => nearbySearchCatch qs search r
      end
  end.

(** A run of the search over the table [qs], its completions in arrival
    order. *)
Definition searchOver (qs : list Search) (origin : UserLocation number)
           (completions : list Completion) : SearchRun :=
  fold_left (complete qs origin) completions startRun.

(** The function of the component: the run over [searches]. *)
Definition searchNearbyFishingPlaces (origin : UserLocation number)
           (completions : list Completion) : SearchRun :=
  searchOver searches origin completions.

(* ------------------------------------------------------------------- *)
(** *** Vocabulary of the statements about a run *)

(** The location of a place when [place.geometry && place.geometry.location]
    holds. *)
Definition located (place : PlaceResult number) : option (UserLocation number) :=
  match Places.geometry place with
  | Some g => Places.location g
  | None => None
  end.

Definition hasLocation (place : PlaceResult number) : bool :=
  match located place with Some _ => true | None => false end.

(** What the place at position [fst jp] of a response contributes. *)
Definition pushed (origin : UserLocation number) (index : nat) (search : Search)
           (jp : nat * PlaceResult number) : list (FishingPOI number) :=
  match placeToPOI origin index search (fst jp) (snd jp) with
  | Some poi => [poi]
  | None => []
  end.

(** The POIs one completion discovers: those of an [OK] response with
    results, nothing otherwise. *)
Definition discovered (qs : list Search) (origin : UserLocation number)
           (c : Completion) : list (FishingPOI number) :=
  match nth_error qs (fst c), snd c with
  | Some search, Responded (Some places) OK =>
      forEachPlace origin (fst c) search 0 (slice_0_3 places) []
  | _, _ => []
  end.

(** The number of first-three results of a completion that have a
    location. *)
Definition locatedCount (c : Completion) : nat :=
  match snd c with
  | Responded (Some places) OK => List.length (filter hasLocation (slice_0_3 places))
  | _ => 0
  end.

(** What one completion writes to the console: a warning for a status other
    than [OK], an error for a throw, nothing for an [OK] response. *)
Definition logged (qs : list Search) (c : Completion) : list SearchLog :=
  match nth_error qs (fst c) with
  | None => []
  | Some search =>
      match snd c with
      | Threw => [ErrorSearchingFor (keyword search)]
      | Responded _ status =>
          if status_is_OK status then []
          else [PlacesSearchFailed status (keyword search)]
      end
  end.

(** A query that failed: it threw, or the provider answered with a status
    other than [OK]. *)
Definition failed (o : QueryOutcome) : bool :=
  match o with
  | Threw => true
  | Responded _ status => negb (status_is_OK status)
  end.

Definition validIndex (qs : list Search) (c : Completion) : Prop :=
  fst c < List.length qs.

(** The completions of one run: every category completes exactly once, in
    any order. *)
Definition schedule (qs : list Search) (completions : list Completion) : Prop :=
  Permutation (map fst completions) (seq 0 (List.length qs)).

(** The ranking as the specification has it: ascending by distance, for
    an order [le] of the numbers that is given on its own, not read off the
    comparator of the code. *)
Definition ascending (le : number -> number -> Prop) (pois : list (FishingPOI number)) : Prop :=
  StronglySorted (fun a b => le (distance a) (distance b)) pois.


(** [numCompare a b] is the sign of [a - b] for the total order [le]: what
    subtraction gives on numbers that are not [NaN]. *)
Record SignOfDifference (le : number -> number -> Prop) : Prop := mkSign
  { sign_le : forall x y, numCompare x y <> Gt <-> le x y;
    sign_eq : forall x y, numCompare x y = Eq <-> x = y;
    le_total : forall x y, le x y \/ le y x;
    le_trans : forall x y z, le x y -> le y z -> le x z }.

(** What the sort needs of the comparator. *)
Record ConsistentCompare : Prop := mkConsistent
  { compare_eq : forall x y, numCompare x y = Eq <-> x = y;
    compare_total : forall x y, numCompare x y = Gt -> numCompare y x <> Gt;
    compare_trans : forall x y z,
        numCompare x y <> Gt -> numCompare y z <> Gt -> numCompare x z <> Gt }.

End SearchOrchestrator.

Arguments Threw {number}.

(* ===================================================================== *)
(** ** calculateDistance *)
(* ===================================================================== *)

Module GeoMath.
Local Open Scope R_scope.

(** [Math.atan2(y, x)] on real arguments. *)
Definition atan2 (y x : R) : R :=
  if Rlt_dec 0 x then atan (y / x)
  else if Rlt_dec x 0 then
         if Rle_dec 0 y then atan (y / x) + PI else atan (y / x) - PI
       else if Rlt_dec 0 y then PI / 2
            else if Rlt_dec y 0 then - (PI / 2)
                 else 0.

(** [const calculateDistance = (point1, point2) => ...], line by line. *)
Definition calculateDistance (point1 point2 : UserLocation R) : R :=
  let R_earth := 6371 in
  let dLat := (Location.lat point2 - Location.lat point1) * PI / 180 in
  let dLng := (Location.lng point2 - Location.lng point1) * PI / 180 in
  let a :=
    sin (dLat / 2) * sin (dLat / 2) +
    cos (Location.lat point1 * PI / 180) * cos (Location.lat point2 * PI / 180) *
    sin (dLng / 2) * sin (dLng / 2) in
  let c := 2 * atan2 (sqrt a) (sqrt (1 - a)) in
  R_earth * c.

(** The sign of [x - y] for real numbers. *)
Definition Rcompare (x y : R) : comparison :=
  match total_order_T x y with
  | inleft (left _) => Lt
  | inleft (right _) => Eq
  | inright _ => Gt
  end.

(* ------------------------------------------------------------------- *)
(** *** Vocabulary of the statements about distances *)

(** The value bound to [a] in [calculateDistance]. *)
Definition haversine (point1 point2 : UserLocation R) : R :=
  sin ((Location.lat point2 - Location.lat point1) * PI / 180 / 2) *
  sin ((Location.lat point2 - Location.lat point1) * PI / 180 / 2) +
  cos (Location.lat point1 * PI / 180) * cos (Location.lat point2 * PI / 180) *
  sin ((Location.lng point2 - Location.lng point1) * PI / 180 / 2) *
  sin ((Location.lng point2 - Location.lng point1) * PI / 180 / 2).

Definition rad (deg : R) : R := deg * PI / 180.

(** The point of the unit sphere at a coordinate, and the inner product of
    two such points. *)
Definition ux (p : UserLocation R) : R := cos (rad (Location.lat p)) * cos (rad (Location.lng p)).

Definition uy (p : UserLocation R) : R := cos (rad (Location.lat p)) * sin (rad (Location.lng p)).

Definition uz (p : UserLocation R) : R := sin (rad (Location.lat p)).

Definition dot (p q : UserLocation R) : R := ux p * ux q + uy p * uy q + uz p * uz q.

(** The end-to-end example: the Chennai origin and a result at
    (13.10, 80.30). *)
Definition chennai : UserLocation R := Location.mk 13.0827 80.2707.

Definition exampleSpot : UserLocation R := Location.mk 13.10 80.30.

End GeoMath.

(* --------------------------------------------------------------------- *)
(** *** calculateDistance in double precision *)

(** The same function on IEEE 754 doubles, which is what the component
    computes with.  [+], [-], [*], [/] and [Math.sqrt] are the operations
    of the standard, correctly rounded; [Math.sin], [Math.cos] and
    [Math.atan2] are left to the platform (ECMAScript asks for an
    approximation), so they are parameters. *)
Module Double.
Import PrimFloat.
Local Open Scope float_scope.

(** [Math.PI], the double nearest to pi: 3.141592653589793. *)
Definition Math_PI : float := 0x1.921fb54442d18p+1.

Section Platform.

Variable Math_sin : float -> float.
Variable Math_cos : float -> float.
Variable Math_atan2 : float -> float -> float.

(** [const calculateDistance = (point1, point2) => ...], line by line. *)
Definition calculateDistance (point1 point2 : UserLocation float) : float :=
  let R_earth := 6371 in
  let dLat := (Location.lat point2 - Location.lat point1) * Math_PI / 180 in
  let dLng := (Location.lng point2 - Location.lng point1) * Math_PI / 180 in
  let a :=
    Math_sin (dLat / 2) * Math_sin (dLat / 2) +
    Math_cos (Location.lat point1 * Math_PI / 180) *
    Math_cos (Location.lat point2 * Math_PI / 180) *
    Math_sin (dLng / 2) * Math_sin (dLng / 2) in
  let c := 2 * Math_atan2 (sqrt a) (sqrt (1 - a)) in
  R_earth * c.

(** The value bound to [a]. *)
Definition haversine (point1 point2 : UserLocation float) : float :=
  Math_sin ((Location.lat point2 - Location.lat point1) * Math_PI / 180 / 2) *
  Math_sin ((Location.lat point2 - Location.lat point1) * Math_PI / 180 / 2) +
  Math_cos (Location.lat point1 * Math_PI / 180) *
  Math_cos (Location.lat point2 * Math_PI / 180) *
  Math_sin ((Location.lng point2 - Location.lng point1) * Math_PI / 180 / 2) *
  Math_sin ((Location.lng point2 - Location.lng point1) * Math_PI / 180 / 2).

End Platform.

(** Two valid coordinates on opposite sides of the globe. *)
Definition westPoint : UserLocation float := Location.mk (-12) (-180).

Definition eastPoint : UserLocation float := Location.mk 12 0.

(** The arguments the sine and the cosine get for these two points,
    0.20943951023931953 (12 degrees) and 1.5707963267948966 (90 degrees),
    and the doubles nearest to the sine and the cosine of 12 degrees,
    0.20791169081775931 and 0.9781476007338057. *)
Definition twelveDegrees : float := 0x1.acee9f37bebd5p-3.

Definition ninetyDegrees : float := 0x1.921fb54442d18p+0.

Definition sinTwelveDegrees : float := 0x1.a9cd9ac4258f5p-3.

Definition cosTwelveDegrees : float := 0x1.f4cfc327a008p-1.

(** A mathematics library as far as the two points need one: the nearest
    doubles at the arguments above, [NaN] elsewhere. *)
Definition tableSin (x : float) : float :=
  if x =? twelveDegrees then sinTwelveDegrees
  else if x =? ninetyDegrees then 1
  else nan.

Definition tableCos (x : float) : float :=
  if abs x =? twelveDegrees then cosTwelveDegrees else nan.

Definition tableAtan2 (y x : float) : float :=
  if is_nan x || is_nan y then nan else 0.

End Double.

(** The search of the component over real coordinates. *)
Definition searchNearbyFishingPlacesR :=
  searchNearbyFishingPlaces GeoMath.Rcompare GeoMath.calculateDistance.

(* ===================================================================== *)
(** ** The component: state, browser environment, traces *)
(* ===================================================================== *)

(** The parsed body of the boundary response as far as the component looks
    at it.  [response.json()] yields any JSON value, and the component tests
    [data.type === 'FeatureCollection'] and
    [data.features && data.features.length > 0] on it without looking at
    what kind of value [data.features] is.

    [type] is the member [data.type] when it is a string ([None]: there is
    no such member, or it is not a string; [===] fails for both).
    [features] is the member [data.features] with the distinctions the test
    makes.  An element of an array is a feature, given by its properties, or
    some other JSON value.  Of an object that is not an array only its own
    [length] member matters, and it is represented when it is absent,
    [null], a boolean or a number; a [length] that is a string, an array or
    an object (which [>] would first convert to a number) is not
    represented. *)
Module GeoJSON.

Inductive Item : Type :=
| feature (properties : list (string * string))
| other.

Inductive Length : Type :=
| no_length
| length_null
| length_boolean (b : bool)
| length_number (x : R).

Inductive Member : Type :=
| absent                           (* no such member: [undefined] *)
| null
| boolean (b : bool)
| number (x : R)
| text (s : string)
| array (items : list Item)
| object (len : Length).

Record Data : Type := mk
  { type : option string; features : Member }.

End GeoJSON.

(** What the [try] block of [fetchEezBoundary] can throw. *)
Inductive Thrown : Type :=
| FetchRejected                  (* [fetch] rejects: transport error *)
| HttpError (status : nat)       (* [new Error(`HTTP error! status: ...`)] *)
| JsonRejected                   (* [response.json()] rejects: malformed body *)
| InvalidEezData.                (* [new Error('Invalid EEZ boundary data received')] *)

Inductive ConsoleEntry : Type :=
| console_log (msg : string)
| console_error (msg : string)
| console_error_thrown (msg : string) (cause : Thrown)
| console_error_code (msg : string) (code : nat).

(** [toast.error(text)] and
    [toast.success(`Location updated: ${lat.toFixed(4)}, ${lng.toFixed(4)}`)]. *)
Inductive Toast : Type :=
| toast_error (text : string)
| toast_success_location (lat lng : R).

(** Callbacks the engine loader leaves pending.  [rc] is the value of
    [retryCount] in the closure of the [loadGoogleMaps] that registered the
    callback: [script.onerror] and the retry timer refer to the [retryCount]
    and [loadGoogleMaps] bindings of the render that created them. *)
Inductive Task : Type :=
| ScriptInFlight (rc : nat)      (* the appended script element *)
| SettleCheck                    (* [setTimeout(..., 100)] of [script.onload] *)
| RetryLoad (rc : nat)           (* [setTimeout(() => loadGoogleMaps(), 2000)] *)
| PollLoaded.                    (* [setInterval(..., 100)] *)

Record World : Type := mkWorld
  { isMounted : bool;                             (* [useState(false)] *)
    userLocation : option (UserLocation R);       (* [useState<UserLocation | null>(null)] *)
    isLoading : bool;                             (* [useState(true)] *)
    error : option string;                        (* [useState<string | null>(null)] *)
    isGoogleMapsLoaded : bool;                    (* [useState(false)] *)
    retryCount : nat;                             (* [useState(0)] *)
    eezBoundary : option GeoJSON.Data;            (* [useState<any>(null)] *)
    googleMapRef : bool;                          (* [googleMapRef.current] holds a map *)
    searchesStarted : nat;                        (* calls of [searchNearbyFishingPlaces] *)
    windowGoogleMaps : bool;                      (* [window.google && window.google.maps] *)
    mapsScripts : nat;                            (* script elements with [maps.googleapis.com] in [src] *)
    apiKey : option string;                       (* [process.env.NEXT_PUBLIC_GOOGLE_MAPS_API_KEY] *)
    console : list ConsoleEntry;                  (* console output, oldest first *)
    toasts : list Toast;                          (* notifications, oldest first *)
    timers : list Task;                           (* pending callbacks, next to run first *)
    setTimeoutCalls : list nat                    (* delay of every [setTimeout] call, oldest first *) }.

Definition set_isMounted (v : bool) (w : World) : World :=
  {| isMounted := v; userLocation := userLocation w; isLoading := isLoading w;
     error := error w; isGoogleMapsLoaded := isGoogleMapsLoaded w;
     retryCount := retryCount w; eezBoundary := eezBoundary w;
     googleMapRef := googleMapRef w; searchesStarted := searchesStarted w;
     windowGoogleMaps := windowGoogleMaps w; mapsScripts := mapsScripts w;
     apiKey := apiKey w; console := console w; toasts := toasts w; timers := timers w;
     setTimeoutCalls := setTimeoutCalls w |}.

Definition set_userLocation (v : option (UserLocation R)) (w : World) : World :=
  {| isMounted := isMounted w; userLocation := v; isLoading := isLoading w;
     error := error w; isGoogleMapsLoaded := isGoogleMapsLoaded w;
     retryCount := retryCount w; eezBoundary := eezBoundary w;
     googleMapRef := googleMapRef w; searchesStarted := searchesStarted w;
     windowGoogleMaps := windowGoogleMaps w; mapsScripts := mapsScripts w;
     apiKey := apiKey w; console := console w; toasts := toasts w; timers := timers w;
     setTimeoutCalls := setTimeoutCalls w |}.

Definition set_isLoading (v : bool) (w : World) : World :=
  {| isMounted := isMounted w; userLocation := userLocation w; isLoading := v;
     error := error w; isGoogleMapsLoaded := isGoogleMapsLoaded w;
     retryCount := retryCount w; eezBoundary := eezBoundary w;
     googleMapRef := googleMapRef w; searchesStarted := searchesStarted w;
     windowGoogleMaps := windowGoogleMaps w; mapsScripts := mapsScripts w;
     apiKey := apiKey w; console := console w; toasts := toasts w; timers := timers w;
     setTimeoutCalls := setTimeoutCalls w |}.

Definition set_error (v : option string) (w : World) : World :=
  {| isMounted := isMounted w; userLocation := userLocation w; isLoading := isLoading w;
     error := v; isGoogleMapsLoaded := isGoogleMapsLoaded w; retryCount := retryCount w;
     eezBoundary := eezBoundary w; googleMapRef := googleMapRef w;
     searchesStarted := searchesStarted w; windowGoogleMaps := windowGoogleMaps w;
     mapsScripts := mapsScripts w; apiKey := apiKey w; console := console w;
     toasts := toasts w; timers := timers w; setTimeoutCalls := setTimeoutCalls w |}.

Definition set_isGoogleMapsLoaded (v : bool) (w : World) : World :=
  {| isMounted := isMounted w; userLocation := userLocation w; isLoading := isLoading w;
     error := error w; isGoogleMapsLoaded := v; retryCount := retryCount w;
     eezBoundary := eezBoundary w; googleMapRef := googleMapRef w;
     searchesStarted := searchesStarted w; windowGoogleMaps := windowGoogleMaps w;
     mapsScripts := mapsScripts w; apiKey := apiKey w; console := console w;
     toasts := toasts w; timers := timers w; setTimeoutCalls := setTimeoutCalls w |}.

Definition set_retryCount (v : nat) (w : World) : World :=
  {| isMounted := isMounted w; userLocation := userLocation w; isLoading := isLoading w;
     error := error w; isGoogleMapsLoaded := isGoogleMapsLoaded w; retryCount := v;
     eezBoundary := eezBoundary w; googleMapRef := googleMapRef w;
     searchesStarted := searchesStarted w; windowGoogleMaps := windowGoogleMaps w;
     mapsScripts := mapsScripts w; apiKey := apiKey w; console := console w;
     toasts := toasts w; timers := timers w; setTimeoutCalls := setTimeoutCalls w |}.

Definition set_eezBoundary (v : option GeoJSON.Data) (w : World) : World :=
  {| isMounted := isMounted w; userLocation := userLocation w; isLoading := isLoading w;
     error := error w; isGoogleMapsLoaded := isGoogleMapsLoaded w;
     retryCount := retryCount w; eezBoundary := v; googleMapRef := googleMapRef w;
     searchesStarted := searchesStarted w; windowGoogleMaps := windowGoogleMaps w;
     mapsScripts := mapsScripts w; apiKey := apiKey w; console := console w;
     toasts := toasts w; timers := timers w; setTimeoutCalls := setTimeoutCalls w |}.

Definition set_googleMapRef (v : bool) (w : World) : World :=
  {| isMounted := isMounted w; userLocation := userLocation w; isLoading := isLoading w;
     error := error w; isGoogleMapsLoaded := isGoogleMapsLoaded w;
     retryCount := retryCount w; eezBoundary := eezBoundary w; googleMapRef := v;
     searchesStarted := searchesStarted w; windowGoogleMaps := windowGoogleMaps w;
     mapsScripts := mapsScripts w; apiKey := apiKey w; console := console w;
     toasts := toasts w; timers := timers w; setTimeoutCalls := setTimeoutCalls w |}.

Definition set_searchesStarted (v : nat) (w : World) : World :=
  {| isMounted := isMounted w; userLocation := userLocation w; isLoading := isLoading w;
     error := error w; isGoogleMapsLoaded := isGoogleMapsLoaded w;
     retryCount := retryCount w; eezBoundary := eezBoundary w;
     googleMapRef := googleMapRef w; searchesStarted := v;
     windowGoogleMaps := windowGoogleMaps w; mapsScripts := mapsScripts w;
     apiKey := apiKey w; console := console w; toasts := toasts w; timers := timers w;
     setTimeoutCalls := setTimeoutCalls w |}.

Definition set_windowGoogleMaps (v : bool) (w : World) : World :=
  {| isMounted := isMounted w; userLocation := userLocation w; isLoading := isLoading w;
     error := error w; isGoogleMapsLoaded := isGoogleMapsLoaded w;
     retryCount := retryCount w; eezBoundary := eezBoundary w;
     googleMapRef := googleMapRef w; searchesStarted := searchesStarted w;
     windowGoogleMaps := v; mapsScripts := mapsScripts w; apiKey := apiKey w;
     console := console w; toasts := toasts w; timers := timers w;
     setTimeoutCalls := setTimeoutCalls w |}.

Definition set_mapsScripts (v : nat) (w : World) : World :=
  {| isMounted := isMounted w; userLocation := userLocation w; isLoading := isLoading w;
     error := error w; isGoogleMapsLoaded := isGoogleMapsLoaded w;
     retryCount := retryCount w; eezBoundary := eezBoundary w;
     googleMapRef := googleMapRef w; searchesStarted := searchesStarted w;
     windowGoogleMaps := windowGoogleMaps w; mapsScripts := v; apiKey := apiKey w;
     console := console w; toasts := toasts w; timers := timers w;
     setTimeoutCalls := setTimeoutCalls w |}.

Definition set_console (v : list ConsoleEntry) (w : World) : World :=
  {| isMounted := isMounted w; userLocation := userLocation w; isLoading := isLoading w;
     error := error w; isGoogleMapsLoaded := isGoogleMapsLoaded w;
     retryCount := retryCount w; eezBoundary := eezBoundary w;
     googleMapRef := googleMapRef w; searchesStarted := searchesStarted w;
     windowGoogleMaps := windowGoogleMaps w; mapsScripts := mapsScripts w;
     apiKey := apiKey w; console := v; toasts := toasts w; timers := timers w;
     setTimeoutCalls := setTimeoutCalls w |}.

Definition set_toasts (v : list Toast) (w : World) : World :=
  {| isMounted := isMounted w; userLocation := userLocation w; isLoading := isLoading w;
     error := error w; isGoogleMapsLoaded := isGoogleMapsLoaded w;
     retryCount := retryCount w; eezBoundary := eezBoundary w;
     googleMapRef := googleMapRef w; searchesStarted := searchesStarted w;
     windowGoogleMaps := windowGoogleMaps w; mapsScripts := mapsScripts w;
     apiKey := apiKey w; console := console w; toasts := v; timers := timers w;
     setTimeoutCalls := setTimeoutCalls w |}.

Definition set_timers (v : list Task) (w : World) : World :=
  {| isMounted := isMounted w; userLocation := userLocation w; isLoading := isLoading w;
     error := error w; isGoogleMapsLoaded := isGoogleMapsLoaded w;
     retryCount := retryCount w; eezBoundary := eezBoundary w;
     googleMapRef := googleMapRef w; searchesStarted := searchesStarted w;
     windowGoogleMaps := windowGoogleMaps w; mapsScripts := mapsScripts w;
     apiKey := apiKey w; console := console w; toasts := toasts w; timers := v;
     setTimeoutCalls := setTimeoutCalls w |}.

Definition set_setTimeoutCalls (v : list nat) (w : World) : World :=
  {| isMounted := isMounted w; userLocation := userLocation w; isLoading := isLoading w;
     error := error w; isGoogleMapsLoaded := isGoogleMapsLoaded w;
     retryCount := retryCount w; eezBoundary := eezBoundary w;
     googleMapRef := googleMapRef w; searchesStarted := searchesStarted w;
     windowGoogleMaps := windowGoogleMaps w; mapsScripts := mapsScripts w;
     apiKey := apiKey w; console := console w; toasts := toasts w; timers := timers w;
     setTimeoutCalls := v |}.

(** [console.log] / [console.error], [toast.*], [setInterval] and
    [setTimeout] as they act on the world. *)
Definition log (e : ConsoleEntry) (w : World) : World := set_console (console w ++ [e]) w.

Definition toast (t : Toast) (w : World) : World := set_toasts (toasts w ++ [t]) w.

Definition setInterval (t : Task) (w : World) : World := set_timers (timers w ++ [t]) w.

Definition setTimeout (t : Task) (delay : nat) (w : World) : World :=
  set_setTimeoutCalls (setTimeoutCalls w ++ [delay]) (set_timers (timers w ++ [t]) w).

(** Truthiness of an optional string: [null], [undefined] and [''] are falsy. *)
Definition truthy (s : option string) : bool :=
  match s with
  | Some EmptyString => false
  | Some _ => true
  | None => false
  end.

(** The component before its first effect has run. *)
Definition initialWorld (key : option string) : World :=
  {| isMounted := false; userLocation := None; isLoading := true; error := None;
     isGoogleMapsLoaded := false; retryCount := 0; eezBoundary := None;
     googleMapRef := false; searchesStarted := 0;
     windowGoogleMaps := false; mapsScripts := 0; apiKey := key;
     console := []; toasts := []; timers := []; setTimeoutCalls := [] |}.

(* --------------------------------------------------------------------- *)
(** *** fetchEezBoundary *)

(** How the [fetch] of the boundary ends: the promise rejects, or it
    resolves to a response with a status and a body that [json()] either
    rejects or parses.  [None] is a body that is not an object with named
    members: [null], a boolean, a number, a string or an array; [data] is
    then falsy, or [data.type] is [undefined]. *)
Inductive BodyResult : Type :=
| BodyRejected
| BodyJson (data : option GeoJSON.Data).

Inductive FetchResult : Type :=
| Rejected
| Resolved (status : nat) (body : BodyResult).

(** [response.ok]: the status is in the range 200-299. *)
Definition response_ok (status : nat) : bool :=
  (200 <=? status) && (status <=? 299).

(** Truthiness of the value of a member: [undefined], [null], [false],
    [0] and [''] are falsy, every array and object is truthy. *)
Definition truthyMember (v : GeoJSON.Member) : bool :=
  match v with
  | GeoJSON.absent => false
  | GeoJSON.null => false
  | GeoJSON.boolean b => b
  | GeoJSON.number x => if Req_dec_T x 0 then false else true
  | GeoJSON.text s => negb (String.eqb s "")
  | GeoJSON.array _ => true
  | GeoJSON.object _ => true
  end.

(** [v.length > 0] for a truthy [v]: an array and a string have their
    length; a boolean and a number have none, and [undefined > 0] is false;
    an object has the [length] it was given, which [>] converts to a number
    ([null] to [0], [true] to [1]). *)
Definition lengthPositive (v : GeoJSON.Member) : bool :=
  match v with
  | GeoJSON.absent => false
  | GeoJSON.null => false
  | GeoJSON.boolean _ => false
  | GeoJSON.number _ => false
  | GeoJSON.text s => 0 <? String.length s
  | GeoJSON.array items => 0 <? List.length items
  | GeoJSON.object len =>
      match len with
      | GeoJSON.no_length => false
      | GeoJSON.length_null => false
      | GeoJSON.length_boolean b => b
      | GeoJSON.length_number x => if Rlt_dec 0 x then true else false
      end
  end.

(** [data && data.type === 'FeatureCollection' && data.features
     && data.features.length > 0] *)
Definition validEezData (data : option GeoJSON.Data) : bool :=
  match data with
  | None => false
  | Some d =>
      match GeoJSON.type d with
      | Some t => String.eqb t "FeatureCollection"
      | None => false
      end
      && truthyMember (GeoJSON.features d)
      && lengthPositive (GeoJSON.features d)
  end.

(** The [try] block: the world it leaves, or what it throws. *)
Definition fetchEezBoundary_try (r : FetchResult) (w : World) : Thrown + World :=
  match r with
  | Rejected => inl FetchRejected
  | Resolved status body =>
      if negb (response_ok status) then inl (HttpError status)
      else
        match body with
        | BodyRejected => inl JsonRejected
        | BodyJson data =>
            if validEezData data
            then inr (log (console_log "Indian EEZ boundary loaded successfully")
                          (set_eezBoundary data w))
            else inl InvalidEezData
        end
  end.

(** [try { ... } catch (error) { console.error(...); setEezBoundary(null); }]:
    the result is what [fetchEezBoundary] leaves, or what escapes it. *)
Definition fetchEezBoundary (r : FetchResult) (w : World) : Thrown + World :=
  match fetchEezBoundary_try r w with
  | inr w' => inr w'
  | inl thrown =>
      inr (set_eezBoundary None
             (log (console_error_thrown "Error fetching Indian EEZ boundary:" thrown) w))
  end.

(* --------------------------------------------------------------------- *)
(** *** getCurrentLocation *)

(** What [navigator.geolocation.getCurrentPosition] reports. *)
Inductive GeolocationAnswer : Type :=
| GotPosition (latitude longitude accuracy : R)
| GotError (code : nat).

(** The [code] constants of [GeolocationPositionError]. *)
Definition PERMISSION_DENIED : nat := 1.

Definition POSITION_UNAVAILABLE : nat := 2.

Definition TIMEOUT : nat := 3.

(** [{ lat: 13.0827, lng: 80.2707 }], written out twice in the source as
    [defaultLocation] and [fallbackLocation]. *)
Definition defaultLocation : UserLocation R := Location.mk 13.0827%R 80.2707%R.

Definition fallbackLocation : UserLocation R := Location.mk 13.0827%R 80.2707%R.

(** The synchronous part of [getCurrentLocation]; [supported] is
    [navigator.geolocation] being present. *)
Definition getCurrentLocation_start (supported : bool) (w : World) : World :=
  let w := set_isLoading true w in
  if negb supported then
    let w := set_error (Some "Geolocation is not supported by this browser. Using default location (Chennai)."%string) w in
    let w := set_userLocation (Some defaultLocation) w in
    let w := set_isLoading false w in
    toast (toast_error "Geolocation not supported. Using Chennai as default.") w
  else w.

(** The success callback.  Re-centring an existing map
    ([googleMapRef.current.setCenter]) changes nothing that is modelled. *)
Definition onPosition (latitude longitude accuracy : R) (w : World) : World :=
  let location := Location.mk latitude longitude in
  let w := log (console_log "Geolocation obtained:") w in
  let w := log (console_log "Accuracy:") w in
  let w := set_userLocation (Some location) w in
  let w := set_isLoading false w in
  let w := set_error None w in
  toast (toast_success_location (Location.lat location) (Location.lng location)) w.

(** The error callback, with its [switch (error.code)]. *)
Definition onPositionError (code : nat) (w : World) : World :=
  let w := log (console_error_code "Geolocation error:" code) w in
  let '(errorMessage, w) :=
    if code =? PERMISSION_DENIED then
      ("Location access denied. Please allow location access and try again."%string,
       toast (toast_error "Location permission denied. Using Chennai as default.") w)
    else if code =? POSITION_UNAVAILABLE then
      ("Location information unavailable. Using Chennai as default."%string,
       toast (toast_error "Location unavailable. Using Chennai as default.") w)
    else if code =? TIMEOUT then
      ("Location request timed out. Using Chennai as default."%string,
       toast (toast_error "Location timeout. Using Chennai as default.") w)
    else
      ("Unknown location error. Using Chennai as default."%string,
       toast (toast_error "Location error. Using Chennai as default.") w) in
  let w := set_userLocation (Some fallbackLocation) w in
  let w := set_error (Some errorMessage) w in
  set_isLoading false w.

(** The browser as one call of [getCurrentLocation] meets it. *)
Inductive Geolocation : Type :=
| Unsupported
| Answers (a : GeolocationAnswer).

(** One call of [getCurrentLocation] together with the callback it gets. *)
Definition getCurrentLocation (nav : Geolocation) (w : World) : World :=
  match nav with
  | Unsupported => getCurrentLocation_start false w
  | Answers (GotPosition latitude longitude accuracy) =>
      onPosition latitude longitude accuracy (getCurrentLocation_start true w)
  | Answers (GotError code) =>
      onPositionError code (getCurrentLocation_start true w)
  end.

(* --------------------------------------------------------------------- *)
(** *** loadGoogleMaps *)

(** What happens to a script element after it is appended: its [load] event
    fires ([apiAttached]: whether the script has defined [window.google.maps]
    by then; an API that was there before stays), or its [error] event
    fires. *)
Inductive ScriptOutcome : Type :=
| LoadEvent (apiAttached : bool)
| ErrorEvent.

(** [loadGoogleMaps] as created by a render in which [retryCount] is [rc]. *)
Definition loadGoogleMaps (rc : nat) (w : World) : World :=
  if windowGoogleMaps w then set_isGoogleMapsLoaded true w
  else if 0 <? mapsScripts w then setInterval PollLoaded w
  else if negb (truthy (apiKey w)) then
    let w := log (console_error "Google Maps API key missing") w in
    let w := set_error (Some "Google Maps API key is not configured. Please add NEXT_PUBLIC_GOOGLE_MAPS_API_KEY to your environment variables."%string) w in
    set_isLoading false w
  else
    (* [document.head.appendChild(script)] *)
    set_timers (timers w ++ [ScriptInFlight rc]) (set_mapsScripts (S (mapsScripts w)) w).

(** [script.onerror] *)
Definition script_onerror (rc : nat) (w : World) : World :=
  let w := log (console_error "Google Maps script failed to load:") w in
  if rc <? 3 then
    let w := set_retryCount (S (retryCount w)) w in
    setTimeout (RetryLoad rc) 2000 w
  else
    let w := set_error (Some "Failed to load Google Maps after 3 attempts. Please check your internet connection and API key."%string) w in
    set_isLoading false w.

(** [script.onload] *)
Definition script_onload (w : World) : World := setTimeout SettleCheck 100 w.

(** The callback of the 100 ms timer of [script.onload]. *)
Definition settleCheck (w : World) : World :=
  if windowGoogleMaps w then set_isGoogleMapsLoaded true w
  else
    let w := log (console_error "Google Maps script loaded but API not available") w in
    let w := set_error (Some "Google Maps loaded but API not available"%string) w in
    set_isLoading false w.

(** One tick of the [checkLoaded] interval; the interval stays armed until
    [clearInterval]. *)
Definition pollTick (w : World) : World :=
  if windowGoogleMaps w then set_isGoogleMapsLoaded true w
  else setInterval PollLoaded w.

(** The next pending callback of the loader runs.  [network k] is the fate
    of the [k]-th script element. *)
Definition step (network : nat -> ScriptOutcome) (w : World) : World :=
  match timers w with
  | [] => w
  | task :: rest =>
      let w := set_timers rest w in
      match task with
      | ScriptInFlight rc =>
          match network (mapsScripts w) with
          | ErrorEvent => script_onerror rc w
          | LoadEvent apiAttached =>
              script_onload (set_windowGoogleMaps (windowGoogleMaps w || apiAttached) w)
          end
      | SettleCheck => settleCheck w
      | RetryLoad rc => loadGoogleMaps rc w
      | PollLoaded => pollTick w
      end
  end.

Fixpoint steps (network : nat -> ScriptOutcome) (n : nat) (w : World) : World :=
  match n with
  | O => w
  | S n' => steps network n' (step network w)
  end.

(** The engine loader as the mount effect starts it: [loadGoogleMaps] of the
    first render, where [retryCount] is [0]. *)
Definition startEngineLoader (key : option string) : World :=
  loadGoogleMaps 0 (initialWorld key).

(** Load attempts made so far: script elements created. *)
Definition loadAttempts (w : World) : nat := mapsScripts w.

(** Retry waits so far: [setTimeout] calls with the 2000 ms delay. *)
Definition retryWaits (w : World) : nat := count_occ Nat.eq_dec (setTimeoutCalls w) 2000.

(* --------------------------------------------------------------------- *)
(** *** Rendering and the effect that guards initializeMap *)

Inductive View : Type := Spinner | ErrorPanel | MapView.

(** [renderContent]: which of its three returns is taken. *)
Definition renderContent (w : World) : View :=
  if isLoading w then Spinner
  else if truthy (error w) then ErrorPanel
  else MapView.

(** [mapRef.current]: the map container is in the document.  The component
    renders [null] until mounted, and the container only in the map view. *)
Definition mapRefCurrent (w : World) : bool :=
  isMounted w && match renderContent w with MapView => true | _ => false end.

Definition isSome (A : Type) (o : option A) : bool :=
  match o with Some _ => true | None => false end.

(** [isGoogleMapsLoaded && userLocation && mapRef.current && eezBoundary] *)
Definition readinessGate (w : World) : bool :=
  isGoogleMapsLoaded w && isSome (userLocation w) && mapRefCurrent w && isSome (eezBoundary w).

(** [initializeMap], as far as it reaches [searchNearbyFishingPlaces], on
    the path on which none of the calls into the maps library throws (the
    three [catch] blocks are not modelled): the map is created and assigned
    to [googleMapRef.current], the boundary is drawn when there is one, and
    the search is started. *)
Definition initializeMap (w : World) : World :=
  if negb (mapRefCurrent w) || negb (isSome (userLocation w)) || negb (windowGoogleMaps w)
  then log (console_error "Map initialization failed - missing requirements") w
  else
    let w := set_googleMapRef true w in
    let w := if isSome (eezBoundary w)
             then log (console_log "Indian EEZ boundary rendered successfully on map") w
             else w in
    let w := log (console_log "Map initialized with center:") w in
    set_searchesStarted (S (searchesStarted w)) w.

(** The body of the effect on
    [[isGoogleMapsLoaded, userLocation, theme, eezBoundary]]. *)
Definition gateEffect (w : World) : World :=
  if readinessGate w then initializeMap w else w.

(** The effects of the first commit, in source order: [setIsMounted(true)],
    the boundary fetch is issued, then [loadGoogleMaps(); getCurrentLocation()]. *)
Definition mount (key : option string) (geolocationSupported : bool) : World :=
  getCurrentLocation_start geolocationSupported
    (loadGoogleMaps 0 (set_isMounted true (initialWorld key))).

(** What happens after the mount without anybody's doing: a callback of
    the loader runs, the position request is answered, the boundary fetch
    settles.  A session is a sequence of such events; a click on Retry and
    an API that appears in the page by other means are not among them, see
    [Interaction]. *)
Inductive Event : Type :=
| TimerFires                                   (* the loader's next callback *)
| GeolocationAnswers (a : GeolocationAnswer)
| BoundaryFetchSettles (r : FetchResult).

Definition handle (network : nat -> ScriptOutcome) (w : World) (ev : Event) : World :=
  match ev with
  | TimerFires => step network w
  | GeolocationAnswers (GotPosition latitude longitude accuracy) =>
      onPosition latitude longitude accuracy w
  | GeolocationAnswers (GotError code) => onPositionError code w
  | BoundaryFetchSettles r =>
      match fetchEezBoundary r w with
      | inr w' => w'
      | inl _ => w
      end
  end.

Definition session (network : nat -> ScriptOutcome) (w : World) (evs : list Event) : World :=
  fold_left (handle network) evs w.

(* --------------------------------------------------------------------- *)
(** *** Vocabulary of the statements about the initialization *)

(** The five ways a location acquisition fails. *)
Inductive FailureClass : Type :=
| permission_denied | position_unavailable | timeout | unsupported | unknown.

(** The class of a failed acquisition; [None] for a measured position. *)
Definition failureClass (nav : Geolocation) : option FailureClass :=
  match nav with
  | Unsupported => Some unsupported
  | Answers (GotPosition _ _ _) => None
  | Answers (GotError code) =>
      Some (if code =? PERMISSION_DENIED then permission_denied
            else if code =? POSITION_UNAVAILABLE then position_unavailable
            else if code =? TIMEOUT then timeout
            else unknown)
  end.

(** The notification and the error text that describe each class. *)
Definition notification (c : FailureClass) : string :=
  match c with
  | permission_denied => "Location permission denied. Using Chennai as default."
  | position_unavailable => "Location unavailable. Using Chennai as default."
  | timeout => "Location timeout. Using Chennai as default."
  | unsupported => "Geolocation not supported. Using Chennai as default."
  | unknown => "Location error. Using Chennai as default."
  end.

Definition errorText (c : FailureClass) : string :=
  match c with
  | permission_denied => "Location access denied. Please allow location access and try again."
  | position_unavailable => "Location information unavailable. Using Chennai as default."
  | timeout => "Location request timed out. Using Chennai as default."
  | unsupported => "Geolocation is not supported by this browser. Using default location (Chennai)."
  | unknown => "Unknown location error. Using Chennai as default."
  end.

(** A feature collection with at least one feature, as the specification
    asks for: the type is right, [features] is an array, and a feature is
    among its elements. *)
Definition featureCollectionWithFeatures (d : GeoJSON.Data) : Prop :=
  GeoJSON.type d = Some "FeatureCollection"%string /\
  exists items properties,
    GeoJSON.features d = GeoJSON.array items /\ In (GeoJSON.feature properties) items.

(** The response carries the boundary [d]: a 2xx status and a body that
    parses to a feature collection with at least one feature. *)
Definition carriesBoundary (r : FetchResult) (d : GeoJSON.Data) : Prop :=
  exists status,
    r = Resolved status (BodyJson (Some d)) /\
    200 <= status <= 299 /\
    featureCollectionWithFeatures d.

(** The code accepts the response and takes [d] for the boundary: a 2xx
    status and a body that passes the test of the code. *)
Definition accepted (r : FetchResult) (d : GeoJSON.Data) : Prop :=
  exists status,
    r = Resolved status (BodyJson (Some d)) /\
    response_ok status = true /\
    validEezData (Some d) = true.

(** Script fates used in the statements. *)
Definition permanentFailure : nat -> ScriptOutcome := fun _ => ErrorEvent.

Definition twoFailuresThenSuccess : nat -> ScriptOutcome :=
  fun k => if k <=? 2 then ErrorEvent else LoadEvent true.

Definition loadsWithoutApi : nat -> ScriptOutcome := fun _ => LoadEvent false.

Definition loadsWithApi : nat -> ScriptOutcome := fun _ => LoadEvent true.

(** A retry of the load is pending. *)
Definition retryPending (w : World) : bool :=
  existsb (fun t => match t with RetryLoad _ => true | _ => false end) (timers w).

(** The events of an initialization in which every task succeeds. *)
Definition isTimer (ev : Event) : bool :=
  match ev with TimerFires => true | _ => false end.

Definition isMeasured (ev : Event) : bool :=
  match ev with GeolocationAnswers (GotPosition _ _ _) => true | _ => false end.

Definition isBoundaryLoaded (ev : Event) : bool :=
  match ev with
  | BoundaryFetchSettles (Resolved status (BodyJson data)) =>
      response_ok status && validEezData data
  | _ => false
  end.

Definition succeeds (ev : Event) : bool :=
  isTimer ev || isMeasured ev || isBoundaryLoaded ev.

Definition count (f : Event -> bool) (evs : list Event) : nat :=
  List.length (filter f evs).

(** The cause the boundary fetch logs when it does not accept a response. *)
Definition unavailableCause (r : FetchResult) : Thrown :=
  match r with
  | Rejected => FetchRejected
  | Resolved status body =>
      if response_ok status then
        match body with
        | BodyRejected => JsonRejected
        | BodyJson _ => InvalidEezData
        end
      else HttpError status
  end.

(** The loader after its first script has failed and the retry has run:
    it polls for [window.google]. *)
Definition pollingWorld (key : string) : World :=
  {| isMounted := false; userLocation := None; isLoading := true; error := None;
     isGoogleMapsLoaded := false; retryCount := 1; eezBoundary := None;
     googleMapRef := false; searchesStarted := 0;
     windowGoogleMaps := false; mapsScripts := 1; apiKey := Some key;
     console := [console_error "Google Maps script failed to load:"];
     toasts := []; timers := [PollLoaded]; setTimeoutCalls := [2000] |}.

(** The loader after its script has loaded without the API. *)
Definition apiAbsentWorld (key : string) : World :=
  {| isMounted := false; userLocation := None; isLoading := false;
     error := Some "Google Maps loaded but API not available"%string;
     isGoogleMapsLoaded := false; retryCount := 0; eezBoundary := None;
     googleMapRef := false; searchesStarted := 0;
     windowGoogleMaps := false; mapsScripts := 1; apiKey := Some key;
     console := [console_error "Google Maps script loaded but API not available"];
     toasts := []; timers := []; setTimeoutCalls := [100] |}.

(** The component while every task succeeds: [t] loader callbacks have run,
    [loc] and [b] are the location and the boundary stored so far. *)
Definition successWorld (key : string) (t : nat) (loc : option (UserLocation R))
           (b : option GeoJSON.Data) (con : list ConsoleEntry) (ts : list Toast) : World :=
  {| isMounted := true; userLocation := loc; isLoading := negb (isSome loc); error := None;
     isGoogleMapsLoaded := 2 <=? t; retryCount := 0; eezBoundary := b;
     googleMapRef := false; searchesStarted := 0;
     windowGoogleMaps := 1 <=? t; mapsScripts := 1; apiKey := Some key;
     console := con; toasts := ts;
     timers := match t with 0 => [ScriptInFlight 0] | 1 => [SettleCheck] | _ => [] end;
     setTimeoutCalls := if 1 <=? t then [100] else [] |}.

(** The engine cannot become loaded: the API is absent and either nothing
    is pending or the one script element already exists. *)
Definition engineDown (w : World) : Prop :=
  windowGoogleMaps w = false /\ isGoogleMapsLoaded w = false /\
  (timers w = [] \/ mapsScripts w = 1).

(* --------------------------------------------------------------------- *)
(** *** Inputs of the examples *)

(** A provider result with a location, and one without a geometry. *)
Definition placeAt (latitude longitude : R) (pid : string) : PlaceResult R :=
  Places.mkPlace (Some (Places.mkGeometry (Some (Location.mk latitude longitude))))
                 (Some pid) None None (Some pid) None None.

Definition placeWithoutGeometry (pid : string) : PlaceResult R :=
  Places.mkPlace None (Some pid) None None (Some pid) None None.

Definition twoResults (index : nat) : Completion R :=
  (index, Responded (Some [placeAt 13.05 80.25 "first"; placeAt 13.2 80.3 "second"]) OK).

Definition noResults (index : nat) : Completion R :=
  (index, Responded (Some []) ZERO_RESULTS).

(** Seven categories; the query of category 3 throws, every other category
    gets two located results; category 1 answers before category 0. *)
Definition exampleRun : list (Completion R) :=
  [twoResults 1; twoResults 0; twoResults 2; (3, Threw);
   twoResults 4; twoResults 5; twoResults 6].

(** The harbour is returned for categories 0 and 4; in the response of
    category 4 it comes second, after a result without geometry. *)
Definition duplicateRun : list (Completion R) :=
  [(0, Responded (Some [placeAt 13.1 80.3 "harbour"]) OK);
   noResults 1; noResults 2; noResults 3;
   (4, Responded (Some [placeWithoutGeometry "pier"; placeAt 13.1 80.3 "harbour"]) OK);
   noResults 5; noResults 6].

(** The result of the end-to-end example, with any other members. *)
Definition examplePlace (nm vic : option string) (rt : option R) (pid : option string)
           (pl : option nat) (ph : option (list string)) : PlaceResult R :=
  Places.mkPlace (Some (Places.mkGeometry (Some GeoMath.exampleSpot))) nm vic rt pid pl ph.

(** The end-to-end example: one category, one completion. *)
Definition exampleSearch (place : PlaceResult R) : SearchRun R :=
  searchOver GeoMath.Rcompare GeoMath.calculateDistance
             [mkSearch "fishing marina harbor" marina] GeoMath.chennai
             [(0, Responded (Some [place]) OK)].

(** A boundary payload that passes the validation. *)
Definition oneFeature : GeoJSON.Data :=
  GeoJSON.mk (Some "FeatureCollection"%string)
             (GeoJSON.array [GeoJSON.feature [("geoname", "Indian EEZ")]%string]).

(** Bodies that are no feature collection: [features] is a string, an
    object with a [length], an array without a feature. *)
Definition stringFeatures : GeoJSON.Data :=
  GeoJSON.mk (Some "FeatureCollection"%string) (GeoJSON.text "x").

Definition objectFeatures : GeoJSON.Data :=
  GeoJSON.mk (Some "FeatureCollection"%string) (GeoJSON.object (GeoJSON.length_number 1%R)).

Definition featurelessArray : GeoJSON.Data :=
  GeoJSON.mk (Some "FeatureCollection"%string) (GeoJSON.array [GeoJSON.other]).

(** A test double for the distance: the coordinates are natural numbers and
    the distance is the sum of the differences.  It makes runs of the search
    computable. *)
Definition gridDistance (a b : UserLocation nat) : nat :=
  (Location.lat a - Location.lat b) + (Location.lat b - Location.lat a) +
  ((Location.lng a - Location.lng b) + (Location.lng b - Location.lng a)).

Definition gridPlace (x y : nat) (pid : string) : PlaceResult nat :=
  Places.mkPlace (Some (Places.mkGeometry (Some (Location.mk x y))))
                 (Some pid) None None (Some pid) None None.

Definition gridRun : list (Completion nat) :=
  [(2, Responded (Some [gridPlace 0 5 "c0"; gridPlace 1 0 "c1"]) OK);
   (0, Responded (Some [gridPlace 3 2 "a0"; gridPlace 0 1 "a1";
                        gridPlace 9 9 "a2"; gridPlace 0 0 "a3"]) OK);
   (1, Threw);
   (3, Responded None UNKNOWN_ERROR);
   (4, Responded (Some []) ZERO_RESULTS);
   (5, Responded (Some [gridPlace 0 5 "f0"]) OK);
   (6, Responded (Some [Places.mkPlace None None None None None None None]) OK)].

(** A session in which everything succeeds: the boundary arrives first, the
    position between the two loader callbacks. *)
Definition successEvents : list Event :=
  [BoundaryFetchSettles (Resolved 200 (BodyJson (Some oneFeature)));
   TimerFires;
   GeolocationAnswers (GotPosition 13.0827 80.2707 10);
   TimerFires].

(* ===================================================================== *)
(** ** The rest of the component *)
(* ===================================================================== *)

(* --------------------------------------------------------------------- *)
(** *** The POI list of renderContent *)

Section PoiList.

Variable number : Type.

(** [fishingPOIs.slice(0, 10)]: the entries the list shows. *)
Definition displayedPOIs (pois : list (FishingPOI number)) : list (FishingPOI number) :=
  firstn 10 pois.

(** The entries that are published but not shown. *)
Definition hiddenPOIs (pois : list (FishingPOI number)) : list (FishingPOI number) :=
  skipn 10 pois.

(** [fishingPOIs.length > 0 ? <ul>...</ul> : <div>No Fishing Infrastructure
    Found Nearby</div>] *)
Inductive PoiPanel : Type :=
| PoiItems (items : list (FishingPOI number))
| NothingFound.

Definition poiPanel (pois : list (FishingPOI number)) : PoiPanel :=
  if 0 <? List.length pois then PoiItems (displayedPOIs pois) else NothingFound.

End PoiList.

Arguments NothingFound {number}.

(* --------------------------------------------------------------------- *)
(** *** searchNearbyFishingPlacesModern *)

(** The [searches] constant of [searchNearbyFishingPlacesModern]; [keyword]
    holds [search.keywords.join(' ')]. *)
Definition modernSearches : list Search :=
  [ mkSearch (String.concat " " ["fishing"; "marina"; "harbor"]) marina;
    mkSearch (String.concat " " ["fishing"; "pier"; "jetty"]) fishing_spot;
    mkSearch (String.concat " " ["bait"; "tackle"; "fishing"; "shop"]) bait_shop;
    mkSearch (String.concat " " ["coast guard"; "marine safety"]) safety_station;
    mkSearch (String.concat " " ["port"; "harbor"; "dock"]) port;
    mkSearch (String.concat " " ["fishing"; "charter"; "boat tours"]) fishing_charter;
    mkSearch (String.concat " " ["boat"; "ramp"; "launch"]) boat_ramp ]%string.

Section ModernSearch.

Variable number : Type.
Variable numCompare : number -> number -> comparison.
Variable calculateDistance : UserLocation number -> UserLocation number -> number.

(** The [allPOIs] array of one call and what the call has done to the
    [fishingPOIs] state.  As in [searchNearbyFishingPlaces], [sort] works in
    place and [setFishingPOIs] is handed the array itself. *)
Record ModernRun : Type := mkModernRun
  { modernAllPOIs : list (FishingPOI number);
    modernPublished : bool;
    modernSetCalls : nat }.

Definition modernStart : ModernRun :=
  {| modernAllPOIs := []; modernPublished := false; modernSetCalls := 0 |}.

Definition modernFishingPOIs (r : ModernRun) : list (FishingPOI number) :=
  if modernPublished r then modernAllPOIs r else [].

(** The callback handed to [service.nearbySearch] for category [index]:
    nothing happens unless the status is [OK] and there are results; the
    state is set in the callback of the last category only. *)
Definition modernCallback (qs : list Search) (origin : UserLocation number)
           (index : nat) (search : Search)
           (results : option (list (PlaceResult number))) (status : PlacesServiceStatus)
           (r : ModernRun) : ModernRun :=
  match status, results with
  | OK, Some places =>
      let collected :=
        forEachPlace calculateDistance origin index search 0 (slice_0_3 places)
                     (modernAllPOIs r) in
      if index =? List.length qs - 1 then
        {| modernAllPOIs := Array_sort (byDistance numCompare) collected;
           modernPublished := true;
           modernSetCalls := S (modernSetCalls r) |}
      else
        {| modernAllPOIs := collected;
           modernPublished := modernPublished r;
           modernSetCalls := modernSetCalls r |}
  | _, _ => r
  end.

(** The [for] loop issues the queries one after the other without delay.
    When [nearbySearch] throws for category [i] the loop is left: the
    categories before [i] have been issued, the [catch] block starts
    [searchNearbyFishingPlaces].  [None]: no call throws. *)
Definition modernIssued (qs : list Search) (throwsAt : option nat) : list nat :=
  match throwsAt with
  | Some i => seq 0 (Nat.min i (List.length qs))
  | None => seq 0 (List.length qs)
  end.

Definition modernFallsBack (qs : list Search) (throwsAt : option nat) : bool :=
  match throwsAt with
  | Some i => i <? List.length qs
  | None => false
  end.

(** An answer: the category index, the results and the status. *)
Definition ModernAnswer : Type :=
  (nat * (option (list (PlaceResult number)) * PlacesServiceStatus))%type.

Definition modernAnswer (qs : list Search) (origin : UserLocation number)
           (r : ModernRun) (a : ModernAnswer) : ModernRun :=
  match nth_error qs (fst a) with
  | None => r
  | Some search => modernCallback qs origin (fst a) search (fst (snd a)) (snd (snd a)) r
  end.

(** A run of the modern search over the table [qs], its answers in arrival
    order. *)
Definition modernOver (qs : list Search) (origin : UserLocation number)
           (answers : list ModernAnswer) : ModernRun :=
  fold_left (modernAnswer qs origin) answers modernStart.

Definition searchNearbyFishingPlacesModern (origin : UserLocation number)
           (answers : list ModernAnswer) : ModernRun :=
  modernOver modernSearches origin answers.

(** The same answer as a completion of the legacy search. *)
Definition asCompletion (a : ModernAnswer) : Completion number :=
  (fst a, Responded (fst (snd a)) (snd (snd a))).

(** The answer brings results with status [OK]. *)
Definition bringsResults (a : ModernAnswer) : bool :=
  match snd a with
  | (Some _, OK) => true
  | _ => false
  end.

(** The answer is the one whose callback sets the state: it belongs to the
    last category and brings results. *)
Definition publishes (qs : list Search) (a : ModernAnswer) : bool :=
  (fst a <? List.length qs) && (fst a =? List.length qs - 1) && bringsResults a.

(** The POIs an answer adds to [allPOIs]. *)
Definition modernDiscovered (qs : list Search) (origin : UserLocation number)
           (a : ModernAnswer) : list (FishingPOI number) :=
  discovered calculateDistance qs origin (asCompletion a).

End ModernSearch.

(* --------------------------------------------------------------------- *)
(** *** handleBorderCrossing *)

Section BorderAlerts.

(** [FishingBorderAlert] is declared by the border monitor; the component
    reads its [name] only. *)
Variable FishingBorderAlert : Type.
Variable alertName : FishingBorderAlert -> string.

Record AlertLog : Type := mkAlertLog
  { borderAlerts : list FishingBorderAlert;     (* [useState<FishingBorderAlert[]>([])] *)
    alertConsole : list string }.

(** [console.log(`Border crossing detected: ${border.name}`);
     setBorderAlerts(prev => [...prev, border]);] *)
Definition handleBorderCrossing (log : AlertLog) (border : FishingBorderAlert) : AlertLog :=
  {| borderAlerts := borderAlerts log ++ [border];
     alertConsole := alertConsole log ++
                     [String.append "Border crossing detected: " (alertName border)] |}.

End BorderAlerts.

(* --------------------------------------------------------------------- *)
(** *** The Retry button and a script loaded by somebody else *)

(** [onClick] of the Retry button: [setError(null); setIsLoading(true);
    setRetryCount(0); loadGoogleMaps();].  The [loadGoogleMaps] it calls is
    the one of the render that shows the button, whose [retryCount] is the
    state's value before the click. *)
Definition retryClick (w : World) : World :=
  let rc := retryCount w in
  let w := set_error None w in
  let w := set_isLoading true w in
  let w := set_retryCount 0 w in
  loadGoogleMaps rc w.

(** The environment: a script element that this loader did not create (it
    found it in the document) finishes loading and defines
    [window.google.maps]. *)
Definition apiArrives (w : World) : World := set_windowGoogleMaps true w.

(** The component in a document that may already hold the maps API or a
    maps script element when the component mounts. *)
Definition documentWorld (api : bool) (scripts : nat) (key : option string) : World :=
  set_mapsScripts scripts (set_windowGoogleMaps api (initialWorld key)).

Definition mountInto (api : bool) (scripts : nat) (key : option string)
           (geolocationSupported : bool) : World :=
  getCurrentLocation_start geolocationSupported
    (loadGoogleMaps 0 (set_isMounted true (documentWorld api scripts key))).

(** Everything that can happen to the mounted component: an event of a
    session, a click on the Retry button, the API appearing in the page. *)
Inductive Interaction : Type :=
| Occurs (ev : Event)
| RetryClicked
| ApiAttaches.

(** The Retry button exists in the error panel only. *)
Definition retryVisible (w : World) : bool :=
  isMounted w && match renderContent w with ErrorPanel => true | _ => false end.

Definition interact (network : nat -> ScriptOutcome) (w : World) (i : Interaction) : World :=
  match i with
  | Occurs ev => handle network w ev
  | RetryClicked => if retryVisible w then retryClick w else w
  | ApiAttaches => apiArrives w
  end.

(** The component lives: after every interaction the effect on
    [[isGoogleMapsLoaded, userLocation, theme, eezBoundary]] runs.  React
    runs it when one of the dependencies has changed, which is at most as
    often; while the gate is closed the effect does nothing, so for what
    never happens the difference does not matter. *)
Definition react (network : nat -> ScriptOutcome) (w : World) (i : Interaction) : World :=
  gateEffect (interact network w i).

Definition lifetime (network : nat -> ScriptOutcome) (w : World)
           (interactions : list Interaction) : World :=
  fold_left (react network) interactions w.

(** The interaction is a boundary response the code accepts; it is a
    measured position. *)
Definition acceptsBoundary (i : Interaction) : bool :=
  match i with Occurs ev => isBoundaryLoaded ev | _ => false end.

Definition measuresPosition (i : Interaction) : bool :=
  match i with Occurs ev => isMeasured ev | _ => false end.

(** The interaction is an answer to the position request, of either kind. *)
Definition answersGeolocation (i : Interaction) : bool :=
  match i with Occurs (GeolocationAnswers _) => true | _ => false end.

(** The three tasks have settled, the engine and the location with success,
    and the boundary fetch is rejected last. *)
Definition boundaryFailsLifetime : list Interaction :=
  [Occurs TimerFires; Occurs TimerFires;
   Occurs (GeolocationAnswers (GotPosition 13.0827 80.2707 10));
   Occurs (BoundaryFetchSettles Rejected)].

(** The engine and the boundary succeed, the position request times out
    last. *)
Definition locationFailsLifetime : list Interaction :=
  [Occurs TimerFires; Occurs TimerFires;
   Occurs (BoundaryFetchSettles (Resolved 200 (BodyJson (Some oneFeature))));
   Occurs (GeolocationAnswers (GotError TIMEOUT))].

(** The location an acquisition stores: the measured one, or the Chennai
    constant. *)
Definition storedLocation (nav : Geolocation) : UserLocation R :=
  match nav with
  | Answers (GotPosition latitude longitude _) => Location.mk latitude longitude
  | _ => Location.mk 13.0827%R 80.2707%R
  end.

(** Several calls of [getCurrentLocation], one after the other. *)
Definition acquisitions (navs : list Geolocation) (w : World) : World :=
  fold_left (fun w nav => getCurrentLocation nav w) navs w.

(** The text [script.onerror] shows when it gives up. *)
Definition exhaustedMessage : string :=
  "Failed to load Google Maps after 3 attempts. Please check your internet connection and API key.".

(** The text [loadGoogleMaps] shows without a key. *)
Definition missingKeyMessage : string :=
  "Google Maps API key is not configured. Please add NEXT_PUBLIC_GOOGLE_MAPS_API_KEY to your environment variables.".

(** Every pending callback was registered by the [loadGoogleMaps] of the
    first render. *)
Definition ofFirstRender (t : Task) : Prop :=
  match t with
  | ScriptInFlight rc => rc = 0
  | RetryLoad rc => rc = 0
  | _ => True
  end.

Definition isScriptInFlight (t : Task) : bool :=
  match t with ScriptInFlight _ => true | _ => false end.

(* --------------------------------------------------------------------- *)
(** *** Colours of the categories *)

(** The value of [FishingPOI.type] as the string the source writes. *)
Definition typeName (t : POIType) : string :=
  match t with
  | fishing_spot => "fishing_spot"
  | marina => "marina"
  | bait_shop => "bait_shop"
  | safety_station => "safety_station"
  | port => "port"
  | fishing_charter => "fishing_charter"
  | boat_ramp => "boat_ramp"
  end.

(** [getColorForPOI]: a [switch] over the string with a [default]. *)
Definition getColorForPOI (type : string) : string :=
  if String.eqb type "fishing_spot" then
    "border-blue-500 bg-blue-50 dark:bg-blue-900/20 dark:border-blue-400"
  else if String.eqb type "marina" then
    "border-purple-500 bg-purple-50 dark:bg-purple-900/20 dark:border-purple-400"
  else if String.eqb type "bait_shop" then
    "border-green-500 bg-green-50 dark:bg-green-900/20 dark:border-green-400"
  else if String.eqb type "safety_station" then
    "border-red-500 bg-red-50 dark:bg-red-900/20 dark:border-red-400"
  else if String.eqb type "port" then
    "border-indigo-500 bg-indigo-50 dark:bg-indigo-900/20 dark:border-indigo-400"
  else if String.eqb type "fishing_charter" then
    "border-teal-500 bg-teal-50 dark:bg-teal-900/20 dark:border-teal-400"
  else if String.eqb type "boat_ramp" then
    "border-violet-500 bg-violet-50 dark:bg-violet-900/20 dark:border-violet-400"
  else
    "border-gray-500 bg-gray-50 dark:bg-gray-900/20 dark:border-gray-400".

(** [colors[type] || '#6B7280'] of [getMarkerHTML], on the values of
    [FishingPOI.type] (its callers pass [poi.type]). *)
Definition markerHTMLColor (t : POIType) : string :=
  match t with
  | marina => "#3B82F6"
  | fishing_spot => "#10B981"
  | bait_shop => "#F59E0B"
  | safety_station => "#EF4444"
  | port => "#6366F1"
  | fishing_charter => "#14B8A6"
  | boat_ramp => "#8B5CF6"
  end.

(** [colors[type] || '#6b7280'] of [getMarkerIcon], likewise. *)
Definition markerIconColor (t : POIType) : string :=
  match t with
  | fishing_spot => "#3b82f6"
  | marina => "#8b5cf6"
  | bait_shop => "#10b981"
  | safety_station => "#ef4444"
  | port => "#6366F1"
  | fishing_charter => "#14B8A6"
  | boat_ramp => "#8B5CF6"
  end.

(** Hexadecimal colours do not depend on the case of their digits. *)
Definition lowerHexDigit (c : ascii) : ascii :=
  let n := nat_of_ascii c in
  if (65 <=? n) && (n <=? 70) then ascii_of_nat (n + 32) else c.

Fixpoint sameColour (a b : string) : bool :=
  match a, b with
  | EmptyString, EmptyString => true
  | String x a', String y b' =>
      Ascii.eqb (lowerHexDigit x) (lowerHexDigit y) && sameColour a' b'
  | _, _ => false
  end.

Definition allTypes : list POIType :=
  [fishing_spot; marina; bait_shop; safety_station; port; fishing_charter; boat_ramp].

(* --------------------------------------------------------------------- *)
(** *** Vocabulary of the statements about sessions *)

(** What the loader started by the mount effect can have pending, and what
    the counters are then: the script element of the first render is in
    flight; its [load] event has armed the 100 ms check; its [error] event
    has armed the retry; the retry has found the element and polls; nothing
    is pending. *)
Definition firstRenderLoader (w : World) : Prop :=
  (timers w = [ScriptInFlight 0] /\ isGoogleMapsLoaded w = false /\
   windowGoogleMaps w = false /\ mapsScripts w = 1 /\ retryCount w = 0 /\
   setTimeoutCalls w = []) \/
  (timers w = [SettleCheck] /\ isGoogleMapsLoaded w = false /\
   mapsScripts w = 1 /\ retryCount w = 0 /\ setTimeoutCalls w = [100]) \/
  (timers w = [RetryLoad 0] /\ isGoogleMapsLoaded w = false /\
   windowGoogleMaps w = false /\ mapsScripts w = 1 /\ retryCount w = 1 /\
   setTimeoutCalls w = [2000]) \/
  (timers w = [PollLoaded] /\ isGoogleMapsLoaded w = false /\
   windowGoogleMaps w = false /\ mapsScripts w = 1 /\ retryCount w = 1 /\
   setTimeoutCalls w = [2000]) \/
  (timers w = [] /\ (isGoogleMapsLoaded w = true -> windowGoogleMaps w = true) /\
   mapsScripts w <= 1 /\ retryCount w = 0 /\
   (setTimeoutCalls w = [] \/ setTimeoutCalls w = [100])).

(** The map container is not shown: the spinner or the error panel is. *)
Definition containerHidden (w : World) : Prop :=
  isLoading w = true \/ truthy (error w) = true.

(** The effect runs [n] times, its dependencies having changed each time
    (the theme is one of them). *)
Fixpoint effectRuns (n : nat) (w : World) : World :=
  match n with
  | O => w
  | S n' => gateEffect (effectRuns n' w)
  end.

(* --------------------------------------------------------------------- *)
(** *** Further inputs of the examples *)

(** Every query fails: three throw, the others answer with a status other
    than [OK]. *)
Definition failingRun : list (Completion nat) :=
  [(0, Threw); (1, Responded (Some []) ZERO_RESULTS); (2, Responded None OVER_QUERY_LIMIT);
   (3, Threw); (4, Responded None REQUEST_DENIED); (5, Responded None UNKNOWN_ERROR);
   (6, Threw)].

(** Every category brings two results: fourteen entries, at distances
    [i] and [i + 7]. *)
Definition crowdedRun : list (Completion nat) :=
  map (fun i => (i, Responded (Some [gridPlace i 0 "a"; gridPlace (i + 7) 0 "b"]) OK))
      (seq 0 7).

(** Answers to the modern search: category 0 brings a far place, then the
    last category answers, then category 1 brings the nearest place. *)
Definition earlyAnswers : list (ModernAnswer nat) :=
  [(0, (Some [gridPlace 9 9 "far"], OK))].

Definition lastAnswer : ModernAnswer nat := (6, (Some [gridPlace 1 0 "ramp"], OK)).

Definition lateAnswers : list (ModernAnswer nat) :=
  [(1, (Some [gridPlace 0 0 "near"], OK))].

(** Every category answers in index order with one result. *)
Definition orderedAnswers : list (ModernAnswer nat) :=
  map (fun i => (i, (Some [gridPlace (7 - i) 0 "x"], OK))) (seq 0 6).

(** The last category answers with a failure after the others brought
    results. *)
Definition lastFails : list (ModernAnswer nat) :=
  earlyAnswers ++ lateAnswers ++ [(6, (None, ZERO_RESULTS))].

(* ===================================================================== *)
(** * Properties *)
(* ===================================================================== *)

(* ===================================================================== *)
(** ** The sort *)
(* ===================================================================== *)

Section SortFacts.

Variable A : Type.
Variable cmp : A -> A -> comparison.

Lemma sort_insert_perm x l : Permutation (sort_insert cmp x l) (x :: l).
Proof.
  induction l as [| y l IH]; simpl.
  - apply Permutation_refl.
  - destruct (cmp x y); try apply Permutation_refl.
    eapply Permutation_trans; [apply perm_skip; exact IH | apply perm_swap].
Qed.

Lemma Array_sort_perm l : Permutation (Array_sort cmp l) l.
Proof.
  induction l as [| x l IH]; simpl.
  - apply Permutation_refl.
  - eapply Permutation_trans; [apply sort_insert_perm | now apply perm_skip].
Qed.

Lemma Array_sort_In x l : In x (Array_sort cmp l) <-> In x l.
Proof.
  split; apply Permutation_in; [| apply Permutation_sym]; apply Array_sort_perm.
Qed.

Section Ordered.

Hypothesis cmp_total : forall a b, cmp a b = Gt -> cmp b a <> Gt.
Hypothesis cmp_trans : forall a b c, cmp a b <> Gt -> cmp b c <> Gt -> cmp a c <> Gt.

Lemma sort_insert_sorted x l :
  StronglySorted (fun a b => cmp a b <> Gt) l ->
  StronglySorted (fun a b => cmp a b <> Gt) (sort_insert cmp x l).
Proof.
  induction 1 as [| y l Hs IH Hy]; simpl.
  - constructor; constructor.
  - destruct (cmp x y) eqn:E.
    + constructor; [now constructor |].
      constructor; [congruence |].
      eapply Forall_impl; [| exact Hy]. intros z Hz.
      apply cmp_trans with y; [congruence | exact Hz].
    + constructor; [now constructor |].
      constructor; [congruence |].
      eapply Forall_impl; [| exact Hy]. intros z Hz.
      apply cmp_trans with y; [congruence | exact Hz].
    + constructor; [exact IH |].
      apply Forall_forall. intros z Hz.
      apply (Permutation_in _ (sort_insert_perm x l)) in Hz.
      destruct Hz as [<- | Hz].
      * now apply cmp_total.
      * rewrite Forall_forall in Hy. now apply Hy.
Qed.

Lemma Array_sort_sorted l : StronglySorted (fun a b => cmp a b <> Gt) (Array_sort cmp l).
Proof.
  induction l as [| x l IH]; simpl.
  - constructor.
  - now apply sort_insert_sorted.
Qed.

End Ordered.

Section Stable.

(** [tied] selects elements the comparator never places one after the
    other; the sort leaves them in their original order. *)
Variable tied : A -> bool.
Hypothesis tied_not_separated :
  forall x y, tied x = true -> tied y = true -> cmp x y <> Gt.



End Stable.

End SortFacts.

(* ===================================================================== *)
(** ** The search run *)
(* ===================================================================== *)

Section SearchFacts.

Variable number : Type.
Variable numCompare : number -> number -> comparison.
Variable calculateDistance : UserLocation number -> UserLocation number -> number.
Variable qs : list Search.
Variable origin : UserLocation number.

Local Abbreviation Run := (SearchRun number).
Local Abbreviation run := (searchOver numCompare calculateDistance qs origin).
Local Abbreviation after := (complete numCompare calculateDistance qs origin).
Local Abbreviation found := (discovered calculateDistance qs origin).

Lemma forEachPlace_acc i s k places acc :
  forEachPlace calculateDistance origin i s k places acc =
  acc ++ forEachPlace calculateDistance origin i s k places [].
Proof.
  revert k acc. induction places as [| p ps IH]; intros k acc; simpl.
  - now rewrite app_nil_r.
  - rewrite IH.
    rewrite (IH (S k) (match placeToPOI _ _ _ _ _ _ with Some poi => [] ++ [poi] | None => [] end)).
    destruct (placeToPOI calculateDistance origin i s k p); simpl;
      [now rewrite <- app_assoc | reflexivity].
Qed.

Lemma finalize_counter (r : Run) :
  searchesCompleted (finalizeWhenComplete numCompare qs r) = searchesCompleted r.
Proof. unfold finalizeWhenComplete. destruct (_ =? _); reflexivity. Qed.

Lemma finalize_early (r : Run) :
  searchesCompleted r <> List.length qs -> finalizeWhenComplete numCompare qs r = r.
Proof.
  intros H. unfold finalizeWhenComplete.
  apply Nat.eqb_neq in H. now rewrite H.
Qed.

Lemma finalize_last (r : Run) :
  searchesCompleted r = List.length qs ->
  finalizeWhenComplete numCompare qs r =
  {| allPOIs := Array_sort (byDistance numCompare) (allPOIs r);
     searchesCompleted := searchesCompleted r;
     published := true;
     setFishingPOIsCalls := S (setFishingPOIsCalls r);
     searchLog := searchLog r |}.
Proof.
  intros H. unfold finalizeWhenComplete.
  apply Nat.eqb_eq in H. now rewrite H.
Qed.

(** Every completion counts once and pushes what it discovered, and only
    then is the completion test made. *)
Lemma complete_shape r c :
  validIndex qs c ->
  exists r0 : Run,
    after r c = finalizeWhenComplete numCompare qs r0 /\
    searchesCompleted r0 = S (searchesCompleted r) /\
    allPOIs r0 = allPOIs r ++ found c /\
    published r0 = published r /\
    setFishingPOIsCalls r0 = setFishingPOIsCalls r.
Proof.
  unfold validIndex, complete, discovered. intros Hv.
  destruct (nth_error qs (fst c)) as [search |] eqn:E.
  2:{ apply nth_error_None in E. lia. }
  destruct (snd c) as [results status |].
  - unfold nearbySearchCallback.
    eexists; split; [reflexivity |].
    destruct status, results; simpl; rewrite ?app_nil_r; auto.
    rewrite forEachPlace_acc. auto.
  - unfold nearbySearchCatch.
    eexists; split; [reflexivity |]. simpl. rewrite app_nil_r. auto.
Qed.

Lemma finalize_log (r : Run) :
  searchLog (finalizeWhenComplete numCompare qs r) = searchLog r.
Proof. unfold finalizeWhenComplete. destruct (_ =? _); reflexivity. Qed.

Lemma complete_log r c : searchLog (after r c) = searchLog r ++ logged qs c.
Proof.
  unfold complete, logged.
  destruct (nth_error qs (fst c)) as [search |]; [| now rewrite app_nil_r].
  destruct (snd c) as [results status |].
  - unfold nearbySearchCallback. rewrite finalize_log.
    destruct status, results; simpl; rewrite ?app_nil_r; reflexivity.
  - unfold nearbySearchCatch. now rewrite finalize_log.
Qed.

Lemma run_log evs : searchLog (run evs) = flat_map (logged qs) evs.
Proof.
  unfold searchOver.
  change (flat_map (logged qs) evs) with (searchLog (startRun number) ++ flat_map (logged qs) evs).
  generalize (startRun number).
  induction evs as [| c evs IH]; intros r; simpl.
  - now rewrite app_nil_r.
  - now rewrite IH, complete_log, <- app_assoc.
Qed.

Lemma complete_counter r c :
  validIndex qs c -> searchesCompleted (after r c) = S (searchesCompleted r).
Proof.
  intros Hv. destruct (complete_shape r Hv) as (r0 & -> & Hc & _).
  now rewrite finalize_counter.
Qed.

Lemma complete_early r c :
  validIndex qs c -> S (searchesCompleted r) <> List.length qs ->
  allPOIs (after r c) = allPOIs r ++ found c /\
  published (after r c) = published r /\
  setFishingPOIsCalls (after r c) = setFishingPOIsCalls r.
Proof.
  intros Hv Hn.
  destruct (complete_shape r Hv) as (r0 & -> & Hc & Ha & Hp & Hs).
  rewrite finalize_early by congruence. auto.
Qed.

Lemma complete_last r c :
  validIndex qs c -> S (searchesCompleted r) = List.length qs ->
  allPOIs (after r c) = Array_sort (byDistance numCompare) (allPOIs r ++ found c) /\
  published (after r c) = true /\
  setFishingPOIsCalls (after r c) = S (setFishingPOIsCalls r).
Proof.
  intros Hv Hn.
  destruct (complete_shape r Hv) as (r0 & -> & Hc & Ha & Hp & Hs).
  rewrite finalize_last by congruence. simpl. rewrite Ha, Hs. auto.
Qed.

Lemma fold_early evs : forall r,
  Forall (validIndex qs) evs ->
  searchesCompleted r + List.length evs < List.length qs ->
  searchesCompleted (fold_left after evs r) = searchesCompleted r + List.length evs /\
  allPOIs (fold_left after evs r) = allPOIs r ++ flat_map found evs /\
  published (fold_left after evs r) = published r /\
  setFishingPOIsCalls (fold_left after evs r) = setFishingPOIsCalls r.
Proof.
  induction evs as [| c evs IH]; intros r Hv Hlt; simpl in *.
  - rewrite app_nil_r. repeat split; lia.
  - inversion Hv as [| ? ? Hc Hrest]; subst.
    pose proof (complete_counter r Hc) as Hcount.
    assert (Hn : S (searchesCompleted r) <> List.length qs) by lia.
    destruct (complete_early r Hc Hn) as (Ha & Hp & Hs).
    destruct (IH (after r c) Hrest ltac:(lia)) as (Ic & Ia & Ip & Is).
    rewrite Ic, Ia, Ip, Is, Hcount, Ha, Hp, Hs, <- app_assoc.
    repeat split; lia.
Qed.

Lemma schedule_length (evs : list (Completion number)) : schedule qs evs -> List.length evs = List.length qs.
Proof.
  intros H. apply Permutation_length in H. now rewrite length_map, length_seq in H.
Qed.

Lemma schedule_valid (evs : list (Completion number)) : schedule qs evs -> Forall (validIndex qs) evs.
Proof.
  intros H. apply Forall_forall. intros c Hc. unfold validIndex.
  assert (In (fst c) (seq 0 (List.length qs))) as Hin.
  { eapply Permutation_in; [exact H |]. now apply in_map. }
  apply in_seq in Hin. lia.
Qed.

Lemma schedule_NoDup (evs : list (Completion number)) : schedule qs evs -> NoDup (map fst evs).
Proof.
  intros H. eapply Permutation_NoDup; [apply Permutation_sym; exact H | apply seq_NoDup].
Qed.

Lemma schedule_nonempty (evs : list (Completion number)) : qs <> [] -> schedule qs evs -> evs <> [].
Proof.
  intros Hq Hs. apply schedule_length in Hs.
  destruct evs; [| discriminate]. destruct qs; [congruence | discriminate].
Qed.

Lemma run_prefix pre :
  Forall (validIndex qs) pre -> List.length pre < List.length qs ->
  searchesCompleted (run pre) = List.length pre /\
  allPOIs (run pre) = flat_map found pre /\
  published (run pre) = false /\
  setFishingPOIsCalls (run pre) = 0.
Proof.
  intros Hv Hlt. unfold searchOver.
  destruct (@fold_early pre (startRun number) Hv) as (A & B & C & D); [simpl; lia |].
  simpl in *. auto.
Qed.

Lemma run_complete evs :
  Forall (validIndex qs) evs -> evs <> [] -> List.length evs = List.length qs ->
  searchesCompleted (run evs) = List.length qs /\
  allPOIs (run evs) = Array_sort (byDistance numCompare) (flat_map found evs) /\
  published (run evs) = true /\
  setFishingPOIsCalls (run evs) = 1.
Proof.
  intros Hv Hne Hlen.
  destruct (exists_last Hne) as (pre & c & ->).
  apply Forall_app in Hv. destruct Hv as [Hpre Hc]. inversion Hc as [| ? ? Hc' _]; subst.
  rewrite length_app in Hlen; simpl in Hlen.
  destruct (run_prefix Hpre ltac:(lia)) as (A & B & C & D).
  unfold searchOver in *. rewrite fold_left_app. simpl.
  set (r := fold_left after pre (startRun number)) in *.
  pose proof (complete_counter r Hc') as Hcount.
  destruct (@complete_last r c Hc' ltac:(lia)) as (L1 & L2 & L3).
  rewrite Hcount, L1, L2, L3, A, B, D, flat_map_app. simpl. rewrite app_nil_r.
  repeat split; lia.
Qed.

(** The published sequence of a run: what was discovered, in arrival
    order, sorted. *)
Lemma run_schedule evs :
  qs <> [] -> schedule qs evs ->
  searchesCompleted (run evs) = List.length qs /\
  fishingPOIs (run evs) = Array_sort (byDistance numCompare) (flat_map found evs) /\
  setFishingPOIsCalls (run evs) = 1.
Proof.
  intros Hq Hs.
  destruct (run_complete (schedule_valid Hs) (schedule_nonempty Hq Hs) (schedule_length Hs))
    as (A & B & C & D).
  unfold fishingPOIs. rewrite C. auto.
Qed.

(* --------------------------------------------------------------------- *)
(** *** Which places become POIs, and with which identifier *)

Lemma forEachPlace_spec i s places : forall k,
  forEachPlace calculateDistance origin i s k places [] =
  flat_map (pushed calculateDistance origin i s) (combine (seq k (List.length places)) places).
Proof.
  induction places as [| a l IH]; intros k; [reflexivity |].
  cbn [forEachPlace List.length seq combine flat_map].
  rewrite forEachPlace_acc, IH. unfold pushed at 2. cbn [fst snd].
  destruct (placeToPOI calculateDistance origin i s k a); reflexivity.
Qed.

Lemma placeToPOI_located i s k place :
  placeToPOI calculateDistance origin i s k place =
  match located place with
  | Some loc =>
      Some {| id := i * 10 + k;
              name := or_string (Places.name place) "Unknown Location";
              type := search_type s;
              lat := Location.lat loc;
              lng := Location.lng loc;
              distance := calculateDistance origin
                            (Location.mk (Location.lat loc) (Location.lng loc));
              description := or_string (Places.vicinity place) "No description available";
              rating := Places.rating place;
              place_id := Places.place_id place;
              price_level := Places.price_level place;
              photos := option_map (firstn 1) (Places.photos place) |}
  | None => None
  end.
Proof.
  unfold placeToPOI, located.
  destruct (Places.geometry place) as [g |]; [| reflexivity].
  destruct (Places.location g); reflexivity.
Qed.

Lemma placeToPOI_id i s k place p :
  placeToPOI calculateDistance origin i s k place = Some p -> id p = i * 10 + k.
Proof.
  rewrite placeToPOI_located. destruct (located place); [| discriminate].
  intros [= <-]. reflexivity.
Qed.

Lemma in_combine_seq (B : Type) (l : list B) : forall k j (b : B),
  In (j, b) (combine (seq k (List.length l)) l) <-> k <= j /\ nth_error l (j - k) = Some b.
Proof.
  induction l as [| a l IH]; intros k j b; cbn [List.length seq combine In].
  - split; [tauto |]. intros [_ H]. destruct (j - k); discriminate.
  - rewrite IH. split.
    + intros [[= <- <-] | [Hle Hn]].
      * rewrite Nat.sub_diag. split; [lia | reflexivity].
      * split; [lia |]. replace (j - k) with (S (j - S k)) by lia. exact Hn.
    + intros [Hle Hn].
      destruct (Nat.eq_dec k j) as [<- | Hne].
      * rewrite Nat.sub_diag in Hn. left. simpl in Hn. congruence.
      * right. split; [lia |].
        replace (j - k) with (S (j - S k)) in Hn by lia. exact Hn.
Qed.

Lemma in_forEachPlace i s places p :
  In p (forEachPlace calculateDistance origin i s 0 places []) <->
  exists k place, nth_error places k = Some place /\
                  placeToPOI calculateDistance origin i s k place = Some p.
Proof.
  rewrite forEachPlace_spec, in_flat_map. split.
  - intros ([j place] & Hin & Hp). apply in_combine_seq in Hin.
    destruct Hin as [_ Hn]. rewrite Nat.sub_0_r in Hn.
    unfold pushed in Hp. cbn [fst snd] in Hp.
    exists j, place. split; [exact Hn |].
    destruct (placeToPOI calculateDistance origin i s j place); [| contradiction].
    destruct Hp as [-> | []]. reflexivity.
  - intros (k & place & Hn & Hp). exists (k, place). split.
    + apply in_combine_seq. rewrite Nat.sub_0_r. split; [lia | exact Hn].
    + unfold pushed. cbn [fst snd]. rewrite Hp. now left.
Qed.

Lemma nth_error_slice (B : Type) (l : list B) k (b : B) :
  nth_error (slice_0_3 l) k = Some b <-> k < 3 /\ nth_error l k = Some b.
Proof.
  unfold slice_0_3. rewrite nth_error_firstn.
  destruct (k <? 3) eqn:E.
  - apply Nat.ltb_lt in E. tauto.
  - apply Nat.ltb_ge in E. split; [discriminate | lia].
Qed.

Lemma in_discovered c p :
  In p (found c) <->
  exists search places k place,
    nth_error qs (fst c) = Some search /\
    snd c = Responded (Some places) OK /\
    k < 3 /\ nth_error places k = Some place /\
    placeToPOI calculateDistance origin (fst c) search k place = Some p.
Proof.
  unfold discovered. split.
  - destruct (nth_error qs (fst c)) as [search |]; [| destruct (snd c); contradiction].
    destruct (snd c) as [[places |] status |]; try contradiction;
      destruct status; try contradiction.
    rewrite in_forEachPlace. intros (k & place & Hn & Hp).
    apply nth_error_slice in Hn. destruct Hn as [Hk Hn].
    exists search, places, k, place. auto.
  - intros (search & places & k & place & -> & -> & Hk & Hn & Hp).
    rewrite in_forEachPlace. exists k, place. split; [| exact Hp].
    apply nth_error_slice. auto.
Qed.

Lemma discovered_category c p : In p (found c) -> id p / 10 = fst c.
Proof.
  rewrite in_discovered. intros (search & places & k & place & _ & _ & Hk & _ & Hp).
  apply placeToPOI_id in Hp. rewrite Hp.
  replace (fst c * 10 + k) with (k + fst c * 10) by lia.
  rewrite Nat.div_add by lia. rewrite Nat.div_small by lia. reflexivity.
Qed.

Lemma failed_discovers_nothing c : failed (snd c) = true -> found c = [].
Proof.
  unfold discovered, failed.
  destruct (nth_error qs (fst c)); [| destruct (snd c); reflexivity].
  destruct (snd c) as [[places |] status |]; try reflexivity;
    destruct status; try reflexivity; discriminate.
Qed.

Lemma pushed_ids_from i s places : forall k,
  NoDup (map id (flat_map (pushed calculateDistance origin i s)
                          (combine (seq k (List.length places)) places))) /\
  Forall (fun p => i * 10 + k <= id p)
         (flat_map (pushed calculateDistance origin i s)
                   (combine (seq k (List.length places)) places)).
Proof.
  induction places as [| a l IH]; intros k; cbn [List.length seq combine flat_map].
  - split; constructor.
  - destruct (IH (S k)) as [Hnd Hge].
    unfold pushed at 1 3. cbn [fst snd].
    destruct (placeToPOI calculateDistance origin i s k a) as [p |] eqn:Hp.
    + apply placeToPOI_id in Hp. cbn [app map]. split.
      * constructor; [| exact Hnd].
        rewrite in_map_iff. intros (q & Hq & Hin).
        rewrite Forall_forall in Hge. apply Hge in Hin. lia.
      * constructor; [lia |].
        eapply Forall_impl; [| exact Hge]. intros q Hq. cbn beta in Hq. lia.
    + cbn [app]. split; [exact Hnd |].
      eapply Forall_impl; [| exact Hge]. intros q Hq. cbn beta in Hq. lia.
Qed.

Lemma pushed_length i s places : forall k,
  List.length (flat_map (pushed calculateDistance origin i s)
                        (combine (seq k (List.length places)) places)) =
  List.length (filter (@hasLocation number) places).
Proof.
  induction places as [| a l IH]; intros k; cbn [List.length seq combine flat_map filter].
  - reflexivity.
  - rewrite length_app, IH. unfold pushed, hasLocation. cbn [fst snd].
    rewrite placeToPOI_located. destruct (located a); reflexivity.
Qed.

Lemma discovered_length c : validIndex qs c -> List.length (found c) = locatedCount c.
Proof.
  unfold validIndex, discovered, locatedCount. intros Hv.
  destruct (nth_error qs (fst c)) as [search |] eqn:E.
  2:{ apply nth_error_None in E. lia. }
  destruct (snd c) as [[places |] status |]; try reflexivity;
    destruct status; try reflexivity.
  rewrite forEachPlace_spec. apply pushed_length.
Qed.

Lemma discovered_all_length evs :
  Forall (validIndex qs) evs ->
  List.length (flat_map found evs) = list_sum (map (@locatedCount number) evs).
Proof.
  induction evs as [| c evs IH]; intros Hv; [reflexivity |].
  inversion Hv as [| ? ? Hc Hrest]; subst.
  cbn [flat_map map list_sum]. rewrite length_app, IH, discovered_length by assumption.
  reflexivity.
Qed.

Lemma discovered_NoDup c : NoDup (map id (found c)).
Proof.
  unfold discovered.
  destruct (nth_error qs (fst c)) as [search |]; [| destruct (snd c); constructor].
  destruct (snd c) as [[places |] status |]; try constructor;
    destruct status; try constructor.
  rewrite forEachPlace_spec. apply pushed_ids_from.
Qed.

Lemma discovered_all_NoDup evs :
  NoDup (map fst evs) -> NoDup (map id (flat_map found evs)).
Proof.
  induction evs as [| c evs IH]; intros Hnd; cbn [flat_map map].
  - constructor.
  - cbn [map] in Hnd. inversion Hnd as [| ? ? Hnotin Hrest]; subst.
    rewrite map_app. apply NoDup_app.
    + apply discovered_NoDup.
    + now apply IH.
    + intros n Hn Hn'.
      apply in_map_iff in Hn. destruct Hn as (p & <- & Hp).
      apply in_map_iff in Hn'. destruct Hn' as (p' & Heq & Hp').
      apply in_flat_map in Hp'. destruct Hp' as (c' & Hc' & Hp').
      apply discovered_category in Hp. apply discovered_category in Hp'.
      apply Hnotin. apply in_map_iff. exists c'. split; [| exact Hc'].
      congruence.
Qed.

Lemma NoDup_fst_functional (B : Type) (l : list (nat * B)) i b b' :
  NoDup (map fst l) -> In (i, b) l -> In (i, b') l -> b = b'.
Proof.
  induction l as [| [j x] l IH]; intros Hnd Hb Hb'; [contradiction |].
  cbn [map fst] in Hnd. inversion Hnd as [| ? ? Hnotin Hrest]; subst.
  assert (Hfresh : forall y, In (i, y) l -> j <> i).
  { intros y Hy ->. apply Hnotin. apply in_map_iff. now exists (i, y). }
  destruct Hb as [Hb | Hb], Hb' as [Hb' | Hb'].
  - congruence.
  - exfalso. apply (Hfresh _ Hb'). congruence.
  - exfalso. apply (Hfresh _ Hb). congruence.
  - now apply IH.
Qed.

(** The published sequence holds the discovered POIs, no more, no fewer. *)
Lemma published_perm evs :
  qs <> [] -> schedule qs evs ->
  Permutation (fishingPOIs (run evs)) (flat_map found evs).
Proof.
  intros Hq Hs. destruct (run_schedule Hq Hs) as (_ & -> & _).
  apply Array_sort_perm.
Qed.

Lemma published_NoDup evs :
  qs <> [] -> schedule qs evs -> NoDup (map id (fishingPOIs (run evs))).
Proof.
  intros Hq Hs.
  eapply Permutation_NoDup.
  - apply Permutation_map, Permutation_sym, published_perm; assumption.
  - apply discovered_all_NoDup, schedule_NoDup, Hs.
Qed.

Lemma published_length evs :
  qs <> [] -> schedule qs evs ->
  List.length (fishingPOIs (run evs)) = list_sum (map (@locatedCount number) evs).
Proof.
  intros Hq Hs.
  rewrite (Permutation_length (published_perm Hq Hs)).
  apply discovered_all_length, schedule_valid, Hs.
Qed.

(* --------------------------------------------------------------------- *)
(** *** The completion counter and the batch *)

(** C2.  In a run in which every category completes exactly once, in any
    order and with any outcome: after each completion the counter equals
    the number of completions so far, whether the query succeeded, got a
    status other than [OK], or threw; the sequence is published exactly
    when the counter equals the number of categories, and it is published
    once; a category whose query failed has no entry in the published
    sequence; and the published sequence has one entry per located result
    among the first three of each [OK] response. *)
Theorem search_completion_tally (evs : list (Completion number)) :
  qs <> [] -> schedule qs evs ->
  (forall pre post, evs = pre ++ post ->
     searchesCompleted (run pre) = List.length pre /\
     (published (run pre) = true <-> searchesCompleted (run pre) = List.length qs) /\
     setFishingPOIsCalls (run pre) = (if List.length pre =? List.length qs then 1 else 0)) /\
  (forall i o p, In (i, o) evs -> failed o = true ->
     In p (fishingPOIs (run evs)) -> id p / 10 <> i) /\
  List.length (fishingPOIs (run evs)) = list_sum (map (@locatedCount number) evs).
Proof.
  intros Hq Hs. split; [| split].
  - intros pre post ->.
    pose proof (schedule_valid Hs) as Hv. apply Forall_app in Hv. destruct Hv as [Hpre _].
    pose proof (schedule_length Hs) as Hlen. rewrite length_app in Hlen.
    destruct (Nat.eq_dec (List.length pre) (List.length qs)) as [Heq | Hne].
    + assert (Hpost : post = []) by (destruct post; [reflexivity | simpl in Hlen; lia]).
      subst post. rewrite app_nil_r in Hs.
      destruct (run_complete Hpre (schedule_nonempty Hq Hs) Heq) as (A & _ & C & D).
      rewrite A, C, D, Heq, Nat.eqb_refl. tauto.
    + destruct (@run_prefix pre Hpre ltac:(lia)) as (A & _ & C & D).
      rewrite A, C, D. apply Nat.eqb_neq in Hne. rewrite Hne.
      apply Nat.eqb_neq in Hne.
      repeat split; [discriminate | intros; exfalso; lia].
  - intros i o p Hin Hf Hp Hid.
    apply (Permutation_in _ (published_perm Hq Hs)) in Hp.
    apply in_flat_map in Hp. destruct Hp as ([j o'] & Hc & Hp).
    pose proof (discovered_category _ _ Hp) as Hcat. cbn [fst] in Hcat.
    rewrite Hid in Hcat. subst j.
    assert (o' = o) by exact (@NoDup_fst_functional _ evs i o' o (schedule_NoDup Hs) Hc Hin). subst o'.
    rewrite (failed_discovers_nothing (i, o) Hf) in Hp. contradiction.
  - now apply published_length.
Qed.

(* --------------------------------------------------------------------- *)
(** *** Identifiers and ranking *)

Lemma sign_consistent le : SignOfDifference numCompare le -> ConsistentCompare numCompare.
Proof.
  intros Hs. split.
  - apply (sign_eq Hs).
  - intros x y Hgt Hgt'.
    destruct (le_total Hs x y) as [H | H]; apply (sign_le Hs) in H; contradiction.
  - intros x y z Hxy Hyz. apply (sign_le Hs).
    apply (le_trans Hs x y z); apply (sign_le Hs); assumption.
Qed.

Lemma sorted_ascending le (l : list (FishingPOI number)) :
  SignOfDifference numCompare le ->
  StronglySorted (fun a b => byDistance numCompare a b <> Gt) l -> ascending le l.
Proof.
  intros Hs Hl. unfold ascending.
  induction Hl as [| a l Hl IH Ha]; constructor; [exact IH |].
  eapply Forall_impl; [| exact Ha].
  intros b Hb. apply (sign_le Hs). exact Hb.
Qed.


(* --------------------------------------------------------------------- *)
(** *** No deduplication *)

(** C10.  In a run in which every category completes exactly once, the
    published sequence is a rearrangement of what the completions
    discovered: its length is the number of located results among the first
    three of every [OK] response, its ids are pairwise distinct, every such
    result has its entry, whose id is [categoryIndex * 10 + position] for
    the position of the result in the response (results without a location
    before it do not shift it) and which carries the result's [place_id],
    and every entry comes from such a result.  Nothing compares
    [place_id]s: a place returned for several categories has an entry for
    each.  The console gets a line per failed query and nothing else: a
    result without a location is skipped without a trace. *)
Theorem search_keeps_duplicates (evs : list (Completion number)) :
  qs <> [] -> schedule qs evs ->
  Permutation (fishingPOIs (run evs)) (flat_map found evs) /\
  List.length (fishingPOIs (run evs)) = list_sum (map (@locatedCount number) evs) /\
  NoDup (map id (fishingPOIs (run evs))) /\
  (forall i places k place loc,
     In (i, Responded (Some places) OK) evs ->
     k < 3 -> nth_error places k = Some place -> located place = Some loc ->
     exists p, In p (fishingPOIs (run evs)) /\
               id p = i * 10 + k /\
               place_id p = Places.place_id place /\
               lat p = Location.lat loc /\ lng p = Location.lng loc) /\
  (forall p, In p (fishingPOIs (run evs)) ->
     exists i places k place,
       In (i, Responded (Some places) OK) evs /\
       k < 3 /\ nth_error places k = Some place /\ hasLocation place = true /\
       id p = i * 10 + k /\ place_id p = Places.place_id place) /\
  searchLog (run evs) = flat_map (logged qs) evs.
Proof.
  intros Hq Hs.
  pose proof (published_perm Hq Hs) as Hperm.
  split; [exact Hperm |].
  split; [now apply published_length |].
  split; [now apply published_NoDup |].
  split; [| split; [| apply run_log]].
  - intros i places k place loc Hin Hk Hn Hloc.
    pose proof (schedule_valid Hs) as Hv. rewrite Forall_forall in Hv.
    specialize (Hv _ Hin). unfold validIndex in Hv. cbn [fst] in Hv.
    destruct (nth_error qs i) as [search |] eqn:E.
    2:{ apply nth_error_None in E. lia. }
    pose proof (placeToPOI_located i search k place) as Hp. rewrite Hloc in Hp.
    eexists. split.
    { apply (Permutation_in _ (Permutation_sym Hperm)).
      apply in_flat_map. exists (i, Responded (Some places) OK). split; [exact Hin |].
      apply in_discovered. exists search, places, k, place. cbn [fst snd].
      repeat split; try assumption. exact Hp. }
    repeat split.
  - intros p Hp.
    apply (Permutation_in _ Hperm) in Hp.
    apply in_flat_map in Hp. destruct Hp as ([i o] & Hcin & Hp).
    apply in_discovered in Hp. cbn [fst snd] in Hp.
    destruct Hp as (search & places & k & place & _ & -> & Hk & Hn & Hp).
    exists i, places, k, place.
    rewrite placeToPOI_located in Hp. unfold hasLocation.
    destruct (located place); [| discriminate].
    injection Hp as <-. auto 10.
Qed.

End SearchFacts.

(* ===================================================================== *)
(** ** The distance *)
(* ===================================================================== *)

Module GeoFacts.
Import GeoMath.
Local Open Scope R_scope.

Lemma calculateDistance_unfold p q :
  calculateDistance p q = 6371 * (2 * atan2 (sqrt (haversine p q)) (sqrt (1 - haversine p q))).
Proof. reflexivity. Qed.

Lemma unit_norm p : ux p * ux p + uy p * uy p + uz p * uz p = 1.
Proof.
  unfold ux, uy, uz.
  pose proof (sin2_cos2 (rad (Location.lat p))) as H1.
  pose proof (sin2_cos2 (rad (Location.lng p))) as H2.
  unfold Rsqr in *. nra.
Qed.

Lemma sin_half_sq x : sin (x / 2) * sin (x / 2) = (1 - cos x) / 2.
Proof.
  replace x with (2 * (x / 2)) at 3 by field.
  rewrite cos_2a_sin. field.
Qed.

Lemma haversine_dot p q : haversine p q = (1 - dot p q) / 2.
Proof.
  unfold haversine, dot, ux, uy, uz, rad.
  set (f1 := Location.lat p * PI / 180).
  set (f2 := Location.lat q * PI / 180).
  set (l1 := Location.lng p * PI / 180).
  set (l2 := Location.lng q * PI / 180).
  replace ((Location.lat q - Location.lat p) * PI / 180 / 2) with ((f2 - f1) / 2) by (unfold f1, f2; field).
  replace ((Location.lng q - Location.lng p) * PI / 180 / 2) with ((l2 - l1) / 2) by (unfold l1, l2; field).
  rewrite sin_half_sq.
  rewrite !Rmult_assoc. rewrite sin_half_sq.
  rewrite !cos_minus. field.
Qed.

Lemma dot_bounds p q : -1 <= dot p q <= 1.
Proof.
  pose proof (unit_norm p) as Hp. pose proof (unit_norm q) as Hq.
  unfold dot.
  split.
  - pose proof (Rle_0_sqr (ux p + ux q)) as Sx.
    pose proof (Rle_0_sqr (uy p + uy q)) as Sy.
    pose proof (Rle_0_sqr (uz p + uz q)) as Sz.
    unfold Rsqr in *. lra.
  - pose proof (Rle_0_sqr (ux p - ux q)) as Sx.
    pose proof (Rle_0_sqr (uy p - uy q)) as Sy.
    pose proof (Rle_0_sqr (uz p - uz q)) as Sz.
    unfold Rsqr in *. lra.
Qed.

(** The arguments of both square roots in [calculateDistance] are never
    negative. *)
Lemma haversine_range p q : 0 <= haversine p q <= 1.
Proof. rewrite haversine_dot. pose proof (dot_bounds p q). lra. Qed.

Lemma atan2_half t : 0 <= t <= PI -> atan2 (sin (t / 2)) (cos (t / 2)) = t / 2.
Proof.
  intros [H0 H1].
  unfold atan2.
  destruct (Req_dec t PI) as [-> | Hne].
  - rewrite cos_PI2, sin_PI2.
    destruct (Rlt_dec 0 0) as [Habs | _]; [lra |].
    destruct (Rlt_dec 0 1) as [_ | Habs]; [reflexivity | lra].
  - assert (Hc : 0 < cos (t / 2)).
    { apply cos_gt_0; pose proof PI_RGT_0; lra. }
    destruct (Rlt_dec 0 (cos (t / 2))) as [_ | Habs]; [| contradiction].
    change (sin (t / 2) / cos (t / 2)) with (tan (t / 2)).
    apply atan_tan. pose proof PI_RGT_0; lra.
Qed.

Lemma central_angle_acos d :
  -1 <= d <= 1 ->
  2 * atan2 (sqrt ((1 - d) / 2)) (sqrt (1 - (1 - d) / 2)) = acos d.
Proof.
  intros Hd.
  pose proof (acos_bound d) as Hb.
  pose proof (cos_acos d Hd) as Hcos.
  set (t := acos d) in *.
  assert (Hs : sqrt ((1 - d) / 2) = sin (t / 2)).
  { rewrite <- Hcos, <- sin_half_sq.
    apply sqrt_square.
    apply sin_ge_0; pose proof PI_RGT_0; lra. }
  assert (Hc : sqrt (1 - (1 - d) / 2) = cos (t / 2)).
  { replace (1 - (1 - d) / 2) with (cos (t / 2) * cos (t / 2)).
    - apply sqrt_square. apply cos_ge_0; pose proof PI_RGT_0; lra.
    - pose proof (sin_half_sq t) as E. pose proof (sin2_cos2 (t / 2)) as S.
      unfold Rsqr in S. rewrite Hcos in E. lra. }
  rewrite Hs, Hc, atan2_half by exact Hb. field.
Qed.

Lemma calculateDistance_acos p q : calculateDistance p q = 6371 * acos (dot p q).
Proof.
  rewrite calculateDistance_unfold, haversine_dot.
  rewrite central_angle_acos by apply dot_bounds. reflexivity.
Qed.

Lemma dot_self p : dot p p = 1.
Proof. apply unit_norm. Qed.

Lemma dot_sym p q : dot p q = dot q p.
Proof. unfold dot. ring. Qed.

(** The Gram determinant of three unit vectors is a square. *)
Lemma gram_nonneg p q r :
  0 <= 1 - dot p q * dot p q - dot q r * dot q r - dot p r * dot p r
       + 2 * dot p q * dot q r * dot p r.
Proof.
  pose proof (unit_norm p) as Hp. pose proof (unit_norm q) as Hq. pose proof (unit_norm r) as Hr.
  set (det := ux p * (uy q * uz r - uz q * uy r)
            - uy p * (ux q * uz r - uz q * ux r)
            + uz p * (ux q * uy r - uy q * ux r)).
  assert (E : 1 - dot p q * dot p q - dot q r * dot q r - dot p r * dot p r
       + 2 * dot p q * dot q r * dot p r = det * det).
  { transitivity
      ((ux p * ux p + uy p * uy p + uz p * uz p) * (ux q * ux q + uy q * uy q + uz q * uz q) * (ux r * ux r + uy r * uy r + uz r * uz r)
       - (ux r * ux r + uy r * uy r + uz r * uz r) * (dot p q * dot p q)
       - (ux p * ux p + uy p * uy p + uz p * uz p) * (dot q r * dot q r)
       - (ux q * ux q + uy q * uy q + uz q * uz q) * (dot p r * dot p r)
       + 2 * dot p q * dot q r * dot p r).
    - rewrite Hp, Hq, Hr. ring.
    - unfold det, dot. ring. }
  rewrite E. nra.
Qed.

Lemma acos_triangle p q r : acos (dot p r) <= acos (dot p q) + acos (dot q r).
Proof.
  pose proof (dot_bounds p q) as Bx. pose proof (dot_bounds q r) as By. pose proof (dot_bounds p r) as Bz.
  pose proof (acos_bound (dot p q)) as Ha. pose proof (acos_bound (dot q r)) as Hb.
  pose proof (acos_bound (dot p r)) as Hc.
  set (x := dot p q) in *. set (y := dot q r) in *. set (z := dot p r) in *.
  destruct (Rle_dec PI (acos x + acos y)) as [Hbig | Hsmall]; [lra |].
  apply Rnot_le_lt in Hsmall.
  destruct (Rle_dec (acos z) (acos x + acos y)) as [Hle | Hgt]; [exact Hle | exfalso].
  apply Rnot_le_lt in Hgt.
  assert (Hcos : cos (acos z) < cos (acos x + acos y)).
  { apply cos_decreasing_1; lra. }
  rewrite cos_acos in Hcos by exact Bz.
  rewrite cos_plus in Hcos.
  rewrite !cos_acos in Hcos by assumption.
  rewrite !sin_acos in Hcos by assumption.
  pose proof (gram_nonneg p q r) as G. fold x y z in G.
  assert (Hsx : 0 <= 1 - x²) by (unfold Rsqr; nra).
  assert (Hsy : 0 <= 1 - y²) by (unfold Rsqr; nra).
  rewrite <- sqrt_mult in Hcos by assumption.
  assert (Hlt : sqrt ((1 - x²) * (1 - y²)) < x * y - z) by lra.
  assert (Hpos : 0 <= sqrt ((1 - x²) * (1 - y²))) by apply sqrt_pos.
  assert (Hsq : sqrt ((1 - x²) * (1 - y²)) * sqrt ((1 - x²) * (1 - y²)) = (1 - x²) * (1 - y²)).
  { apply sqrt_sqrt. apply Rmult_le_pos; assumption. }
  assert (Hsq2 : sqrt ((1 - x²) * (1 - y²)) * sqrt ((1 - x²) * (1 - y²)) < (x * y - z) * (x * y - z)) by nra.
  unfold Rsqr in *. nra.
Qed.

(* --------------------------------------------------------------------- *)
(** *** A numeric enclosure of the example distance *)

Lemma PI_enclosure : 3.1415 < PI < 3.1421.
Proof.
  pose proof (PI_2_3_7_ineq 1) as [Hlo Hhi].
  unfold sum_f_R0, tg_alt, PI_2_3_7_tg, Ratan_seq in Hlo, Hhi.
  simpl in Hlo, Hhi.
  split; lra.
Qed.

Lemma sin_cubic_lower x : 0 <= x <= PI -> x - x * x * x / 6 <= sin x.
Proof.
  intros H. pose proof (sin_bound x 0 (proj1 H) (proj2 H)) as [L _].
  unfold sin_approx, sin_term in L. simpl in L.
  unfold Rdiv in *. rewrite ?Rmult_1_r in L.
  lra.
Qed.

Lemma sin_small_enclosure x : 0 < x <= 1 / 1000 -> x * (1 - 1 / 1000000) <= sin x < x.
Proof.
  intros [H0 H1]. split.
  - pose proof PI_enclosure as HP.
    assert (Hx : 0 <= x <= PI) by lra.
    pose proof (sin_cubic_lower Hx) as L.
    assert (x * x <= 1 / 1000000) by nra.
    assert (x * x * x <= x * (1 / 1000000)) by nra.
    lra.
  - apply sin_lt_x; exact H0.
Qed.

Lemma cos_quartic_enclosure x :
  0 <= x <= 1 -> 1 - x * x / 2 <= cos x <= 1 - x * x / 2 + (x * x) * (x * x) / 24.
Proof.
  intros H. pose proof PI_enclosure as HP.
  assert (Hx : - PI / 2 <= x <= PI / 2) by lra.
  pose proof (cos_bound x 0 (proj1 Hx) (proj2 Hx)) as [L U].
  unfold cos_approx, cos_term in L, U. simpl in L, U.
  unfold Rdiv in *. rewrite ?Rmult_1_r, ?Rmult_1_l in L, U.
  lra.
Qed.


Lemma mult_enclosure a b la ua lb ub :
  0 <= la -> 0 <= lb -> la < a < ua -> lb < b < ub -> la * lb < a * b < ua * ub.
Proof.
  intros Hla Hlb [Ha1 Ha2] [Hb1 Hb2]. split.
  - apply Rle_lt_trans with (la * b).
    + apply Rmult_le_compat_l; lra.
    + apply Rmult_lt_compat_r; lra.
  - apply Rmult_le_0_lt_compat; lra.
Qed.

Lemma haversine_example_enclosure :
  8.47 / 100000000 < haversine chennai exampleSpot < 8.49 / 100000000.
Proof.
  pose proof PI_enclosure as HP.
  unfold haversine, chennai, exampleSpot; simpl.
  set (A := (13.10 - 13.0827) * PI / 180 / 2).
  set (B := (80.30 - 80.2707) * PI / 180 / 2).
  set (F1 := 13.0827 * PI / 180).
  set (F2 := 13.10 * PI / 180).
  assert (HA : 1.50966 / 10000 < A < 1.50996 / 10000) by (unfold A; lra).
  assert (HB : 2.55683 / 10000 < B < 2.55733 / 10000) by (unfold B; lra).
  assert (HF1 : 0.22832 < F1 < 0.22838) by (unfold F1; lra).
  assert (HF2 : 0.22863 < F2 < 0.22868) by (unfold F2; lra).
  assert (SA : 1.5096 / 10000 < sin A < 1.5100 / 10000).
  { assert (HA' : 0 < A <= 1 / 1000) by lra.
    pose proof (sin_small_enclosure HA') as [L U]. lra. }
  assert (SB : 2.5568 / 10000 < sin B < 2.5574 / 10000).
  { assert (HB' : 0 < B <= 1 / 1000) by lra.
    pose proof (sin_small_enclosure HB') as [L U]. lra. }
  assert (C1 : 0.9739 < cos F1 < 0.9741).
  { assert (H : 0 <= F1 <= 1) by lra.
    pose proof (cos_quartic_enclosure H) as [L U].
    pose proof (@mult_enclosure F1 F1 0.22832 0.22838 0.22832 0.22838
                  ltac:(lra) ltac:(lra) HF1 HF1) as Q.
    pose proof (@mult_enclosure (F1 * F1) (F1 * F1) 0 (0.22838 * 0.22838) 0 (0.22838 * 0.22838)
                  ltac:(lra) ltac:(lra) ltac:(lra) ltac:(lra)) as Q4.
    lra. }
  assert (C2 : 0.9738 < cos F2 < 0.9740).
  { assert (H : 0 <= F2 <= 1) by lra.
    pose proof (cos_quartic_enclosure H) as [L U].
    pose proof (@mult_enclosure F2 F2 0.22863 0.22868 0.22863 0.22868
                  ltac:(lra) ltac:(lra) HF2 HF2) as Q.
    pose proof (@mult_enclosure (F2 * F2) (F2 * F2) 0 (0.22868 * 0.22868) 0 (0.22868 * 0.22868)
                  ltac:(lra) ltac:(lra) ltac:(lra) ltac:(lra)) as Q4.
    lra. }
  pose proof (fun p q => @mult_enclosure (sin A) (sin A) _ _ _ _ p q SA SA) as SA2.
  specialize (SA2 ltac:(lra) ltac:(lra)).
  pose proof (fun p q => @mult_enclosure (sin B) (sin B) _ _ _ _ p q SB SB) as SB2.
  specialize (SB2 ltac:(lra) ltac:(lra)).
  pose proof (fun p q => @mult_enclosure (cos F1) (cos F2) _ _ _ _ p q C1 C2) as CC.
  specialize (CC ltac:(lra) ltac:(lra)).
  pose proof (fun p q => @mult_enclosure (cos F1 * cos F2) (sin B * sin B) _ _ _ _ p q CC SB2) as P.
  specialize (P ltac:(lra) ltac:(lra)).
  rewrite (Rmult_assoc (cos F1 * cos F2) (sin B) (sin B)).
  lra.
Qed.

Lemma acos_sq_enclosure d h :
  d = 1 - 2 * h -> 0 < h < 1 / 1000000 ->
  4 * h <= acos d * acos d <= 4 * h * (1 + 1 / 1000000).
Proof.
  intros -> Hh.
  assert (Hd : -1 <= 1 - 2 * h <= 1) by lra.
  pose proof (acos_bound (1 - 2 * h)) as Hb.
  pose proof (cos_acos _ Hd) as Hc.
  pose proof PI_enclosure as HP.
  set (t := acos (1 - 2 * h)) in *.
  assert (Ht : t <= PI / 2).
  { destruct (Rle_dec t (PI / 2)) as [Hle | Hgt]; [exact Hle | exfalso].
    apply Rnot_le_lt in Hgt.
    assert (cos t < 0) by (apply cos_lt_0; lra).
    lra. }
  assert (Hx : - PI / 2 <= t <= PI / 2) by lra.
  pose proof (cos_bound t 0 (proj1 Hx) (proj2 Hx)) as [L U].
  unfold cos_approx, cos_term in L, U. simpl in L, U.
  unfold Rdiv in L, U. rewrite ?Rmult_1_r, ?Rmult_1_l in L, U.
  set (T := t * t) in *.
  assert (HT0 : 0 <= T) by (unfold T; nra).
  assert (HT1 : T <= 2.5) by (unfold T; nra).
  assert (E : T / 2 - T * T / 24 <= 2 * h) by (unfold T in *; lra).
  assert (HT2 : T <= 6 * h) by nra.
  split; [unfold T in *; lra |].
  assert (HT3 : T * T <= T * (6 / 1000000)) by nra.
  lra.
Qed.

Lemma example_distance_enclosure :
  3.70 < calculateDistance chennai exampleSpot < 3.72.
Proof.
  rewrite calculateDistance_acos.
  pose proof (haversine_example_enclosure) as Hh.
  pose proof (haversine_dot chennai exampleSpot) as E.
  assert (Ed : dot chennai exampleSpot = 1 - 2 * haversine chennai exampleSpot) by lra.
  assert (Hr : 0 < haversine chennai exampleSpot < 1 / 1000000) by lra.
  pose proof (acos_sq_enclosure Ed Hr) as [L U].
  pose proof (acos_bound (dot chennai exampleSpot)) as [B0 _].
  set (t := acos (dot chennai exampleSpot)) in *.
  set (h := haversine chennai exampleSpot) in *.
  split.
  - destruct (Rlt_dec (3.70 / 6371) t) as [Hlt | Hge]; [lra | exfalso].
    apply Rnot_lt_le in Hge.
    assert (t * t <= 3.70 / 6371 * (3.70 / 6371)) by nra.
    lra.
  - destruct (Rlt_dec t (3.72 / 6371)) as [Hlt | Hge]; [lra | exfalso].
    apply Rnot_lt_le in Hge.
    assert (3.72 / 6371 * (3.72 / 6371) <= t * t) by nra.
    lra.
Qed.

End GeoFacts.



(** In exact arithmetic, for all coordinates: the distance from a point to
    itself is 0, the distance is symmetric, and it satisfies the triangle
    inequality. *)
Lemma exact_distance_is_a_metric (a b c : UserLocation R) :
  GeoMath.calculateDistance a a = 0%R /\
  GeoMath.calculateDistance a b = GeoMath.calculateDistance b a /\
  (GeoMath.calculateDistance a c <=
   GeoMath.calculateDistance a b + GeoMath.calculateDistance b c)%R.
Proof.
  rewrite !GeoFacts.calculateDistance_acos.
  split; [| split].
  - rewrite GeoFacts.dot_self, acos_1. ring.
  - rewrite (GeoFacts.dot_sym a b). reflexivity.
  - pose proof (GeoFacts.acos_triangle a b c). lra.
Qed.

Section DoubleFacts.

Import PrimFloat.
Local Open Scope float_scope.

Variable Math_sin : float -> float.
Variable Math_cos : float -> float.
Variable Math_atan2 : float -> float -> float.

(** C8.  In double precision the distance is not a metric on the valid
    coordinates.  For the points (-12, -180) and (12, 0), with the sine and
    the cosine of 12 degrees rounded to the nearest doubles, the sum [a] of
    the haversine formula rounds to 1.0000000000000002, the double after 1;
    [1 - a] is negative, its square root is [NaN], and so is the distance.
    Then no comparison with it holds: it is not equal to the distance in
    the other direction (nor to itself), it is not less than or equal to
    any sum of two distances, and its difference to any number is within
    no tolerance. *)
Theorem antipodal_distance_is_not_a_number :
  Math_sin Double.twelveDegrees = Double.sinTwelveDegrees ->
  Math_sin Double.ninetyDegrees = 1 ->
  Math_cos Double.twelveDegrees = Double.cosTwelveDegrees ->
  Math_cos (- Double.twelveDegrees) = Double.cosTwelveDegrees ->
  (forall y, Math_atan2 y nan = nan) ->
  Double.haversine Math_sin Math_cos Double.westPoint Double.eastPoint = next_up 1 /\
  Double.calculateDistance Math_sin Math_cos Math_atan2 Double.westPoint Double.eastPoint =
    nan /\
  (forall d, (Double.calculateDistance Math_sin Math_cos Math_atan2
                Double.westPoint Double.eastPoint =? d) = false) /\
  (forall d, (Double.calculateDistance Math_sin Math_cos Math_atan2
                Double.westPoint Double.eastPoint <=? d) = false) /\
  (forall d tolerance,
     (abs (Double.calculateDistance Math_sin Math_cos Math_atan2
             Double.westPoint Double.eastPoint - d) <=? tolerance) = false).
Proof.
  intros Hsin12 Hsin90 Hcos12 Hcos12' Hatan.
  assert (Ha : Double.haversine Math_sin Math_cos Double.westPoint Double.eastPoint =
               next_up 1).
  { unfold Double.haversine, Double.westPoint, Double.eastPoint.
    cbn [Location.lat Location.lng].
    change ((12 - -12) * Double.Math_PI / 180 / 2) with Double.twelveDegrees.
    change ((0 - -180) * Double.Math_PI / 180 / 2) with Double.ninetyDegrees.
    change (-12 * Double.Math_PI / 180) with (- Double.twelveDegrees).
    change (12 * Double.Math_PI / 180) with Double.twelveDegrees.
    rewrite Hsin12, Hsin90, Hcos12, Hcos12'. reflexivity. }
  assert (Hd : Double.calculateDistance Math_sin Math_cos Math_atan2
                 Double.westPoint Double.eastPoint = nan).
  { change (Double.calculateDistance Math_sin Math_cos Math_atan2
              Double.westPoint Double.eastPoint)
      with (6371 *
            (2 * Math_atan2
                   (sqrt (Double.haversine Math_sin Math_cos
                            Double.westPoint Double.eastPoint))
                   (sqrt (1 - Double.haversine Math_sin Math_cos
                                 Double.westPoint Double.eastPoint)))).
    rewrite Ha. change (sqrt (1 - next_up 1)) with nan.
    rewrite Hatan. reflexivity. }
  split; [exact Ha |]. split; [exact Hd |]. rewrite Hd.
  split; [| split].
  - intros d. rewrite FloatAxioms.eqb_spec. reflexivity.
  - intros d. rewrite FloatAxioms.leb_spec. reflexivity.
  - intros d tolerance.
    rewrite FloatAxioms.leb_spec, FloatAxioms.abs_spec, FloatAxioms.sub_spec.
    reflexivity.
Qed.

End DoubleFacts.

Lemma exampleSearch_publishes nm vic rt pid pl ph :
  exists p,
    fishingPOIs (exampleSearch (examplePlace nm vic rt pid pl ph)) = [p] /\
    id p = 0 /\
    distance p = GeoMath.calculateDistance GeoMath.chennai GeoMath.exampleSpot.
Proof. eexists. split; [reflexivity | split; reflexivity]. Qed.

(** C9, as the code has it.  For the origin (13.0827, 80.2707) and a single
    category (index 0) returning one result located at (13.10, 80.30), the
    sequence published is one POI with [id = 0] whose distance lies between
    3.70 and 3.72 km. *)
Theorem example_distance_and_id nm vic rt pid pl ph :
  exists p,
    fishingPOIs (exampleSearch (examplePlace nm vic rt pid pl ph)) = [p] /\
    id p = 0 /\
    (3.70 < distance p < 3.72)%R.
Proof.
  destruct (exampleSearch_publishes nm vic rt pid pl ph) as (p & Hp & Hid & Hd).
  exists p. rewrite Hd. repeat split; try assumption;
    apply GeoFacts.example_distance_enclosure.
Qed.

(** C9, as the specification has it, fails: the distance of that POI is not
    within half a kilometre of 2.9. *)
Lemma example_distance_is_not_2_9 :
  exists p,
    fishingPOIs (exampleSearch (examplePlace None None None None None None)) = [p] /\
    id p = 0 /\
    ~ (Rabs (distance p - 2.9) <= 0.5)%R.
Proof.
  destruct (exampleSearch_publishes None None None None None None) as (p & Hp & Hid & Hd).
  exists p. rewrite Hd. repeat split; try assumption.
  pose proof GeoFacts.example_distance_enclosure as [Hlo _].
  intros Habs. unfold Rabs in Habs.
  destruct (Rcase_abs _) in Habs; lra.
Qed.

(* ===================================================================== *)
(** ** Location acquisition *)
(* ===================================================================== *)

Lemma notification_injective c c' : notification c' = notification c -> c' = c.
Proof. destruct c, c'; simpl; intros H; try reflexivity; discriminate H. Qed.

(** C6.  A call of [getCurrentLocation] that fails falls into one class
    among [permission_denied], [position_unavailable], [timeout],
    [unsupported], [unknown]; whatever the class, the stored location is the
    constant (13.0827, 80.2707), the call adds exactly one notification, the
    one of its class, and sets the error text of its class; the
    notifications of different classes differ. *)
Theorem location_failure_falls_back nav c w :
  failureClass nav = Some c ->
  userLocation (getCurrentLocation nav w) = Some (Location.mk 13.0827%R 80.2707%R) /\
  toasts (getCurrentLocation nav w) = toasts w ++ [toast_error (notification c)] /\
  error (getCurrentLocation nav w) = Some (errorText c) /\
  (forall c', notification c' = notification c -> c' = c).
Proof.
  intros Hc. split; [| split; [| split]]; [ | | | apply notification_injective].
  all: destruct nav as [| [latitude longitude accuracy | code]]; simpl in Hc; try discriminate;
       injection Hc as <-; try reflexivity.
  all: unfold getCurrentLocation, onPositionError;
       destruct (code =? PERMISSION_DENIED); [reflexivity |];
       destruct (code =? POSITION_UNAVAILABLE); [reflexivity |];
       destruct (code =? TIMEOUT); reflexivity.
Qed.

(* ===================================================================== *)
(** ** The boundary fetch *)
(* ===================================================================== *)

Lemma response_ok_iff status : response_ok status = true <-> 200 <= status <= 299.
Proof.
  unfold response_ok. rewrite andb_true_iff, !Nat.leb_le. tauto.
Qed.

Lemma validEezData_complete d :
  featureCollectionWithFeatures d -> validEezData (Some d) = true.
Proof.
  unfold validEezData, featureCollectionWithFeatures.
  intros (Ht & items & properties & Hf & Hin). rewrite Ht, Hf.
  destruct items as [| x items]; [destruct Hin | reflexivity].
Qed.

Lemma fetchEezBoundary_cases r w :
  exists w',
    fetchEezBoundary r w = inr w' /\
    ((exists d, accepted r d /\ eezBoundary w' = Some d /\
                console w' = console w ++ [console_log "Indian EEZ boundary loaded successfully"])
     \/
     ((forall d, ~ accepted r d) /\ eezBoundary w' = None /\
      console w' = console w ++
        [console_error_thrown "Error fetching Indian EEZ boundary:" (unavailableCause r)])).
Proof.
  unfold fetchEezBoundary, fetchEezBoundary_try, unavailableCause.
  destruct r as [| status body].
  - eexists; split; [reflexivity |]. right. split; [| split; reflexivity].
    intros d (st & H & _). discriminate.
  - destruct (response_ok status) eqn:Hok; cbn [negb].
    + destruct body as [| data].
      * eexists; split; [reflexivity |]. right. split; [| split; reflexivity].
        intros d (st & H & _). discriminate.
      * destruct (validEezData data) eqn:Hv.
        -- eexists; split; [reflexivity |]. left.
           destruct data as [d |]; [| discriminate].
           exists d. split; [| split; reflexivity].
           exists status. auto.
        -- eexists; split; [reflexivity |]. right. split; [| split; reflexivity].
           intros d (st & H & _ & Hd). injection H as <- ->. congruence.
    + eexists; split; [reflexivity |]. right. split; [| split; reflexivity].
      intros d (st & H & Hs & _). injection H as <- _. congruence.
Qed.

(** C7.  The validation of the code is weaker than the one specified.
    [fetchEezBoundary] never lets an exception escape, and a response it
    does not accept (transport error, status outside 2xx, malformed body,
    failed test) is treated uniformly: the stored boundary is [null] and
    exactly one console error names the cause.  Every response that carries
    a feature collection with at least one feature is accepted.  But the
    test [data.features && data.features.length > 0] does not ask for an
    array: a 2xx body whose type is right and whose [features] is a
    non-empty string, an object with a positive [length], or an array
    without a single feature is accepted as well, stored as the boundary
    and reported as loaded, with no error; and these are all the bodies
    accepted in excess. *)
Theorem boundary_validation_accepts_malformed_features :
  (forall r w, exists w',
     fetchEezBoundary r w = inr w' /\
     ((exists d, accepted r d /\ eezBoundary w' = Some d /\
                 console w' = console w ++
                   [console_log "Indian EEZ boundary loaded successfully"])
      \/
      ((forall d, ~ accepted r d) /\ eezBoundary w' = None /\
       console w' = console w ++
         [console_error_thrown "Error fetching Indian EEZ boundary:" (unavailableCause r)]))) /\
  (forall r d, carriesBoundary r d -> accepted r d) /\
  (forall w d, In d [stringFeatures; objectFeatures; featurelessArray] ->
     ~ featureCollectionWithFeatures d /\
     fetchEezBoundary (Resolved 200 (BodyJson (Some d))) w =
       inr (log (console_log "Indian EEZ boundary loaded successfully")
                (set_eezBoundary (Some d) w))) /\
  (forall d, validEezData (Some d) = true -> ~ featureCollectionWithFeatures d ->
     (exists s, GeoJSON.features d = GeoJSON.text s /\ s <> EmptyString) \/
     (exists len, GeoJSON.features d = GeoJSON.object len) \/
     (exists items, GeoJSON.features d = GeoJSON.array items /\ items <> [] /\
                    forall properties, ~ In (GeoJSON.feature properties) items)).
Proof.
  split; [exact fetchEezBoundary_cases |]. split; [| split].
  - intros r d (status & Hr & Hs & Hd). exists status.
    split; [exact Hr |]. split; [now apply response_ok_iff |].
    now apply validEezData_complete.
  - intros w d Hd. split.
    + intros (_ & items & properties & Hf & Hin).
      destruct Hd as [<- | [<- | [<- | []]]]; try discriminate Hf.
      injection Hf as <-. destruct Hin as [Hin | []]. discriminate Hin.
    + unfold fetchEezBoundary, fetchEezBoundary_try.
      destruct Hd as [<- | [<- | [<- | []]]]; try reflexivity.
      unfold validEezData, objectFeatures. cbn.
      destruct (Rlt_dec 0 1) as [_ | Hn]; [reflexivity | exfalso; apply Hn; lra].
  - intros [t f] Hv Hn. unfold validEezData in Hv. cbn [GeoJSON.type GeoJSON.features] in *.
    apply andb_prop in Hv. destruct Hv as [Hv Hl].
    apply andb_prop in Hv. destruct Hv as [Ht Htr].
    destruct t as [t |]; [| discriminate]. apply String.eqb_eq in Ht. subst t.
    destruct f as [| | b | x | s | items | len]; try discriminate.
    + left. exists s. split; [reflexivity |]. intros ->. discriminate.
    + right. right. exists items. split; [reflexivity |]. split.
      * intros ->. discriminate.
      * intros properties Hin. apply Hn. split; [reflexivity |].
        exists items, properties. auto.
    + right. left. exists len. reflexivity.
Qed.

(* ===================================================================== *)
(** ** The engine loader *)
(* ===================================================================== *)

Lemma steps_S network n w : steps network (S n) w = step network (steps network n w).
Proof.
  revert w. induction n as [| n IH]; intros w; [reflexivity |].
  change (steps network (S (S n)) w) with (steps network (S n) (step network w)).
  now rewrite IH.
Qed.

(** Once a world is a fixed point of [step], it stays. *)
Lemma steps_fixed network w0 w m n :
  steps network m w0 = w -> step network w = w -> steps network (m + n) w0 = w.
Proof.
  intros Hm Hfix. induction n as [| n IH].
  - now rewrite Nat.add_0_r.
  - rewrite Nat.add_succ_r, steps_S, IH. exact Hfix.
Qed.

(** After a first [error] event the retry finds the failed script element
    still in the document and polls; no second element is ever created. *)
Lemma first_error_then_polling network c k n :
  network 1 = ErrorEvent ->
  steps network (2 + n) (startEngineLoader (Some (String c k))) = pollingWorld (String c k).
Proof.
  intros Hnet. apply steps_fixed; [| reflexivity].
  cbn [steps]. unfold startEngineLoader, step, loadGoogleMaps. cbn.
  rewrite Hnet. reflexivity.
Qed.

(** [script.onerror] of the first render never takes the terminal branch:
    it reads the [retryCount] of its closure, which stays [0] while the
    state counter grows. *)
Lemma onerror_of_first_render_retries w :
  error (script_onerror 0 w) = error w /\
  retryCount (script_onerror 0 w) = S (retryCount w) /\
  timers (script_onerror 0 w) = timers w ++ [RetryLoad 0].
Proof. repeat split. Qed.

(** C4, what the code does.  With a configured key, when every script load
    fails, and also when the first two fail and a third would succeed, the
    loader makes one load attempt and one 2000 ms wait; from then on it
    polls: it never reports the failure and never becomes ready, however
    many callbacks run. *)
Theorem loader_stops_after_first_failure c k n :
  (loadAttempts (steps permanentFailure (2 + n) (startEngineLoader (Some (String c k)))) = 1 /\
   retryWaits (steps permanentFailure (2 + n) (startEngineLoader (Some (String c k)))) = 1 /\
   error (steps permanentFailure (2 + n) (startEngineLoader (Some (String c k)))) = None /\
   isLoading (steps permanentFailure (2 + n) (startEngineLoader (Some (String c k)))) = true /\
   timers (steps permanentFailure (2 + n) (startEngineLoader (Some (String c k)))) = [PollLoaded])
  /\
  (loadAttempts (steps twoFailuresThenSuccess (2 + n) (startEngineLoader (Some (String c k)))) = 1 /\
   retryWaits (steps twoFailuresThenSuccess (2 + n) (startEngineLoader (Some (String c k)))) = 1 /\
   isGoogleMapsLoaded
     (steps twoFailuresThenSuccess (2 + n) (startEngineLoader (Some (String c k)))) = false /\
   timers (steps twoFailuresThenSuccess (2 + n) (startEngineLoader (Some (String c k)))) = [PollLoaded]).
Proof.
  rewrite !first_error_then_polling by reflexivity.
  repeat split.
Qed.

(** C5, as the code has it.  When the script's [load] event fires and the
    API is still absent at the 100 ms check, the loader is done at once: the
    error is set, one load attempt was made, the retry counter is untouched,
    no 2000 ms wait was scheduled and no callback is pending, however many
    more callbacks are run. *)
Theorem settle_without_api_is_terminal network c k n :
  network 1 = LoadEvent false ->
  steps network (2 + n) (startEngineLoader (Some (String c k))) = apiAbsentWorld (String c k) /\
  error (apiAbsentWorld (String c k)) = Some "Google Maps loaded but API not available"%string /\
  isLoading (apiAbsentWorld (String c k)) = false /\
  isGoogleMapsLoaded (apiAbsentWorld (String c k)) = false /\
  loadAttempts (apiAbsentWorld (String c k)) = 1 /\
  retryCount (apiAbsentWorld (String c k)) = 0 /\
  retryWaits (apiAbsentWorld (String c k)) = 0 /\
  timers (apiAbsentWorld (String c k)) = [].
Proof.
  intros Hnet. split; [| repeat split].
  apply steps_fixed; [| reflexivity].
  cbn [steps]. unfold startEngineLoader, step, loadGoogleMaps. cbn.
  rewrite Hnet. reflexivity.
Qed.

(** C5, as the specification has it, fails: with the API absent after the
    first load, attempts remain ([retryCount] is 0) and yet no retry is
    pending and no wait was scheduled, while after an [error] event of the
    same first script a retry is pending. *)
Lemma settle_has_no_retry :
  retryCount (steps loadsWithoutApi 2 (startEngineLoader (Some "key"%string))) < 3 /\
  retryPending (steps loadsWithoutApi 2 (startEngineLoader (Some "key"%string))) = false /\
  retryWaits (steps loadsWithoutApi 2 (startEngineLoader (Some "key"%string))) = 0 /\
  timers (steps loadsWithoutApi 2 (startEngineLoader (Some "key"%string))) = [] /\
  retryPending (steps permanentFailure 1 (startEngineLoader (Some "key"%string))) = true.
Proof. vm_compute. repeat split; lia. Qed.

(* ===================================================================== *)
(** ** The readiness gate *)
(* ===================================================================== *)

Lemma session_snoc network w evs ev :
  session network w (evs ++ [ev]) = handle network (session network w evs) ev.
Proof. unfold session. now rewrite fold_left_app. Qed.

Lemma count_snoc f evs ev :
  count f (evs ++ [ev]) = count f evs + (if f ev then 1 else 0).
Proof.
  unfold count. rewrite filter_app, length_app. cbn [filter].
  destruct (f ev); reflexivity.
Qed.

Lemma success_timer network key t loc b con ts :
  network 1 = LoadEvent true ->
  handle network (successWorld key t loc b con ts) TimerFires =
  successWorld key (S t) loc b con ts.
Proof.
  intros Hnet. destruct t as [| [| t]].
  - unfold handle, step, successWorld. cbn. rewrite Hnet. reflexivity.
  - reflexivity.
  - reflexivity.
Qed.

Lemma success_position network key t loc b con ts latitude longitude accuracy :
  handle network (successWorld key t loc b con ts)
         (GeolocationAnswers (GotPosition latitude longitude accuracy)) =
  successWorld key t (Some (Location.mk latitude longitude)) b
    (con ++ [console_log "Geolocation obtained:"] ++ [console_log "Accuracy:"])
    (ts ++ [toast_success_location latitude longitude]).
Proof.
  unfold handle, onPosition, successWorld, log, toast. cbn.
  rewrite <- app_assoc. reflexivity.
Qed.

Lemma success_boundary network key t loc b con ts status data :
  response_ok status = true -> validEezData data = true ->
  handle network (successWorld key t loc b con ts)
         (BoundaryFetchSettles (Resolved status (BodyJson data))) =
  successWorld key t loc data
    (con ++ [console_log "Indian EEZ boundary loaded successfully"]) ts.
Proof.
  intros Hok Hv.
  unfold handle, fetchEezBoundary, fetchEezBoundary_try. rewrite Hok, Hv. reflexivity.
Qed.

(** While every task succeeds the component is a [successWorld]. *)
Lemma success_session network c k evs :
  network 1 = LoadEvent true ->
  forallb succeeds evs = true ->
  exists loc b con ts,
    session network (mount (Some (String c k)) true) evs =
      successWorld (String c k) (count isTimer evs) loc b con ts /\
    isSome loc = (1 <=? count isMeasured evs) /\
    isSome b = (1 <=? count isBoundaryLoaded evs).
Proof.
  intros Hnet. induction evs as [| ev evs IH] using rev_ind; intros Hall.
  - exists None, None, [], []. repeat split.
  - rewrite forallb_app in Hall. apply andb_true_iff in Hall. destruct Hall as [Hevs Hev].
    cbn [forallb] in Hev. rewrite andb_true_r in Hev.
    destruct (IH Hevs) as (loc & b & con & ts & Hw & Hloc & Hb).
    rewrite session_snoc, Hw, !count_snoc.
    destruct ev as [| [latitude longitude accuracy | code] | r].
    + (* a loader callback *)
      cbn [isTimer isMeasured isBoundaryLoaded]. rewrite !Nat.add_0_r, Nat.add_1_r.
      rewrite success_timer by exact Hnet.
      exists loc, b, con, ts. auto.
    + (* a measured position *)
      cbn [isTimer isMeasured isBoundaryLoaded]. rewrite !Nat.add_0_r, Nat.add_1_r.
      rewrite success_position.
      eexists _, b, _, _. split; [reflexivity |]. split; [reflexivity | exact Hb].
    + discriminate Hev.
    + (* the boundary *)
      cbn [isTimer isMeasured]. rewrite !Nat.add_0_r.
      unfold succeeds in Hev. cbn [isTimer isMeasured orb] in Hev.
      rewrite Hev, Nat.add_1_r.
      destruct r as [| status [| data]]; try discriminate Hev.
      cbn [isBoundaryLoaded] in Hev. apply andb_true_iff in Hev. destruct Hev as [Hok Hv].
      rewrite success_boundary by assumption.
      eexists loc, data, _, _. split; [reflexivity |]. split; [exact Hloc |].
      destruct data; [reflexivity | discriminate Hv].
Qed.

Lemma successWorld_gate key t loc b con ts :
  readinessGate (successWorld key t loc b con ts) = (2 <=? t) && isSome loc && isSome b.
Proof.
  unfold readinessGate, mapRefCurrent, renderContent, successWorld. cbn.
  destruct loc, b, t as [| [| t]]; reflexivity.
Qed.

Lemma successWorld_effect key t loc b con ts :
  readinessGate (successWorld key t loc b con ts) = true ->
  searchesStarted (gateEffect (successWorld key t loc b con ts)) = 1 /\
  googleMapRef (gateEffect (successWorld key t loc b con ts)) = true.
Proof.
  intros Hg. unfold gateEffect. rewrite Hg.
  rewrite successWorld_gate in Hg.
  apply andb_true_iff in Hg. destruct Hg as [Hg Hb].
  apply andb_true_iff in Hg. destruct Hg as [Ht Hl].
  destruct loc; [| discriminate]. destruct b; [| discriminate].
  destruct t as [| [| t]]; try discriminate.
  split; reflexivity.
Qed.

Lemma handle_engineDown network w ev :
  network 1 <> LoadEvent true ->
  engineDown w -> engineDown (handle network w ev).
Proof.
  intros Hnet (Hg & Hl & Ht).
  destruct ev as [| [latitude longitude accuracy | code] | r].
  - unfold handle, step.
    destruct (timers w) as [| task rest] eqn:Etimers.
    + repeat split; auto.
    + destruct Ht as [Ht | Hs]; [discriminate |].
      destruct task as [rc | | rc |]; cbn [mapsScripts set_timers].
      * rewrite Hs. destruct (network 1) as [[|] |] eqn:E; [congruence | |].
        -- unfold engineDown; cbn. rewrite Hg. auto.
        -- unfold script_onerror. destruct (rc <? 3); unfold engineDown; cbn; auto.
      * unfold settleCheck. cbn. rewrite Hg. unfold engineDown; cbn. auto.
      * unfold loadGoogleMaps. cbn. rewrite Hg, Hs. unfold engineDown; cbn. auto.
      * unfold pollTick. cbn. rewrite Hg. unfold engineDown; cbn. auto.
  - unfold engineDown; cbn. auto.
  - unfold handle, onPositionError.
    destruct (code =? PERMISSION_DENIED); [unfold engineDown; cbn; auto |].
    destruct (code =? POSITION_UNAVAILABLE); [unfold engineDown; cbn; auto |].
    destruct (code =? TIMEOUT); unfold engineDown; cbn; auto.
  - unfold handle, fetchEezBoundary, fetchEezBoundary_try.
    destruct r as [| status [| data]]; try (unfold engineDown; cbn; auto; fail).
    + destruct (response_ok status); unfold engineDown; cbn; auto.
    + destruct (response_ok status); cbn [negb]; [| unfold engineDown; cbn; auto].
      destruct (validEezData data); unfold engineDown; cbn; auto.
Qed.

(** With no pending callback and no API, no event loads the engine. *)
Lemma handle_idle network w ev :
  windowGoogleMaps w = false /\ isGoogleMapsLoaded w = false /\ timers w = [] ->
  windowGoogleMaps (handle network w ev) = false /\
  isGoogleMapsLoaded (handle network w ev) = false /\
  timers (handle network w ev) = [].
Proof.
  intros (Hg & Hl & Ht).
  destruct ev as [| [latitude longitude accuracy | code] | r].
  - unfold handle, step. rewrite Ht. auto.
  - cbn. auto.
  - unfold handle, onPositionError.
    destruct (code =? PERMISSION_DENIED); [cbn; auto |].
    destruct (code =? POSITION_UNAVAILABLE); [cbn; auto |].
    destruct (code =? TIMEOUT); cbn; auto.
  - unfold handle, fetchEezBoundary, fetchEezBoundary_try.
    destruct r as [| status [| data]]; try (cbn; auto; fail).
    + destruct (response_ok status); cbn; auto.
    + destruct (response_ok status); cbn [negb]; [| cbn; auto].
      destruct (validEezData data); cbn; auto.
Qed.

Lemma mount_engineDown key supported : engineDown (mount key supported).
Proof.
  unfold mount, loadGoogleMaps, getCurrentLocation_start. cbn.
  destruct (truthy key), supported; unfold engineDown; cbn; auto.
Qed.

Lemma mount_without_key_idle key supported :
  truthy key = false ->
  windowGoogleMaps (mount key supported) = false /\
  isGoogleMapsLoaded (mount key supported) = false /\
  timers (mount key supported) = [].
Proof.
  intros Hk. unfold mount, loadGoogleMaps, getCurrentLocation_start. cbn.
  rewrite Hk. destruct supported; cbn; auto.
Qed.

Lemma engine_failure_never_loads network key supported evs :
  truthy key = false \/ network 1 <> LoadEvent true ->
  isGoogleMapsLoaded (session network (mount key supported) evs) = false.
Proof.
  intros [Hk | Hnet].
  - assert (H : windowGoogleMaps (session network (mount key supported) evs) = false /\
                isGoogleMapsLoaded (session network (mount key supported) evs) = false /\
                timers (session network (mount key supported) evs) = []).
    { induction evs as [| ev evs IH] using rev_ind.
      - now apply mount_without_key_idle.
      - rewrite session_snoc. now apply handle_idle. }
    apply H.
  - assert (H : engineDown (session network (mount key supported) evs)).
    { induction evs as [| ev evs IH] using rev_ind.
      - apply mount_engineDown.
      - rewrite session_snoc. now apply handle_engineDown. }
    apply H.
Qed.

(** No event starts a search: only the effect does. *)
Lemma handle_searchesStarted network w ev :
  searchesStarted (handle network w ev) = searchesStarted w.
Proof.
  destruct ev as [| [latitude longitude accuracy | code] | r].
  - unfold handle, step. destruct (timers w) as [| [rc | | rc |] rest]; [reflexivity | | | |].
    + destruct (network (mapsScripts (set_timers rest w))) as [apiAttached |].
      * reflexivity.
      * unfold script_onerror. destruct (rc <? 3); reflexivity.
    + unfold settleCheck. destruct (windowGoogleMaps (set_timers rest w)); reflexivity.
    + unfold loadGoogleMaps.
      destruct (windowGoogleMaps (set_timers rest w)); [reflexivity |].
      destruct (0 <? mapsScripts (set_timers rest w)); [reflexivity |].
      destruct (negb (truthy (apiKey (set_timers rest w)))); reflexivity.
    + unfold pollTick. destruct (windowGoogleMaps (set_timers rest w)); reflexivity.
  - reflexivity.
  - unfold handle, onPositionError.
    destruct (code =? PERMISSION_DENIED); [reflexivity |].
    destruct (code =? POSITION_UNAVAILABLE); [reflexivity |].
    destruct (code =? TIMEOUT); reflexivity.
  - unfold handle, fetchEezBoundary, fetchEezBoundary_try.
    destruct r as [| status [| data]]; [reflexivity | |].
    + destruct (negb (response_ok status)); reflexivity.
    + destruct (negb (response_ok status)); [reflexivity |].
      destruct (validEezData data); reflexivity.
Qed.

Lemma session_searchesStarted network key supported evs :
  searchesStarted (session network (mount key supported) evs) = 0.
Proof.
  induction evs as [| ev evs IH] using rev_ind.
  - unfold mount, loadGoogleMaps, getCurrentLocation_start. cbn.
    destruct (truthy key), supported; reflexivity.
  - now rewrite session_snoc, handle_searchesStarted.
Qed.

(** In a session in which every event succeeds the gate is open exactly
    from the moment the engine has settled (two loader callbacks), a
    position has arrived and the boundary has arrived, in whatever order;
    the effect then creates the map and starts the search. *)
Lemma gate_opens_when_every_event_succeeds network c k evs :
  network 1 = LoadEvent true ->
  forallb succeeds evs = true ->
  readinessGate (session network (mount (Some (String c k)) true) evs) =
    (2 <=? count isTimer evs) && (1 <=? count isMeasured evs)
    && (1 <=? count isBoundaryLoaded evs) /\
  (readinessGate (session network (mount (Some (String c k)) true) evs) = true ->
   searchesStarted
     (gateEffect (session network (mount (Some (String c k)) true) evs)) = 1 /\
   googleMapRef
     (gateEffect (session network (mount (Some (String c k)) true) evs)) = true).
Proof.
  intros Hnet Hall.
  destruct (@success_session network c k evs Hnet Hall) as (loc & b & con & ts & -> & Hloc & Hb).
  split.
  - rewrite successWorld_gate, Hloc, Hb. reflexivity.
  - apply successWorld_effect.
Qed.

(* --------------------------------------------------------------------- *)
(** *** The gate under every interaction *)

Lemma step_frame network w :
  searchesStarted (step network w) = searchesStarted w /\
  googleMapRef (step network w) = googleMapRef w /\
  eezBoundary (step network w) = eezBoundary w /\
  isMounted (step network w) = isMounted w /\
  (containerHidden w -> containerHidden (step network w)).
Proof.
  destruct w as [m u l e g rc b gm ss api scripts key con ts tm calls].
  unfold containerHidden, step. cbn [timers].
  destruct tm as [| [rc' | | rc' |] rest]; cbn; try (repeat split; auto; fail).
  - destruct (network scripts); cbn; try (repeat split; auto; fail).
    unfold script_onerror. destruct (rc' <? 3); cbn; repeat split; auto.
  - unfold settleCheck. cbn. destruct api; cbn; repeat split; auto.
  - unfold loadGoogleMaps. cbn. destruct api; cbn; try (repeat split; auto; fail).
    destruct scripts; cbn; try (repeat split; auto; fail).
    destruct (truthy key); cbn; repeat split; auto.
  - unfold pollTick. cbn. destruct api; cbn; repeat split; auto.
Qed.

Lemma handle_frame network w ev :
  searchesStarted (handle network w ev) = searchesStarted w /\
  googleMapRef (handle network w ev) = googleMapRef w /\
  isMounted (handle network w ev) = isMounted w /\
  (isBoundaryLoaded ev = false -> eezBoundary w = None ->
   eezBoundary (handle network w ev) = None) /\
  (isMeasured ev = false -> containerHidden w -> containerHidden (handle network w ev)).
Proof.
  destruct ev as [| [latitude longitude accuracy | code] | r].
  - destruct (step_frame network w) as (H1 & H2 & H3 & H4 & H5).
    cbn [handle]. repeat split; auto. intros _ Hb. rewrite H3. exact Hb.
  - cbn. repeat split; auto. discriminate.
  - unfold handle, onPositionError, containerHidden.
    destruct (code =? PERMISSION_DENIED); [| destruct (code =? POSITION_UNAVAILABLE);
      [| destruct (code =? TIMEOUT)]]; cbn; auto 10.
  - unfold handle, fetchEezBoundary, fetchEezBoundary_try, containerHidden.
    destruct r as [| status [| data]]; cbn [isBoundaryLoaded].
    + cbn. auto 10.
    + destruct (response_ok status); cbn; auto 10.
    + destruct (response_ok status); cbn [negb andb]; [| cbn; auto 10].
      destruct (validEezData data); cbn; auto 10. repeat split; auto. discriminate.
Qed.

Lemma retryClick_frame w :
  searchesStarted (retryClick w) = searchesStarted w /\
  googleMapRef (retryClick w) = googleMapRef w /\
  isMounted (retryClick w) = isMounted w /\
  eezBoundary (retryClick w) = eezBoundary w /\
  containerHidden (retryClick w).
Proof.
  destruct w as [m u l e g rc b gm ss api scripts key con ts tm calls].
  unfold retryClick, loadGoogleMaps, containerHidden. cbn.
  destruct api; cbn; try (repeat split; auto; fail).
  destruct scripts; cbn; try (repeat split; auto; fail).
  destruct (truthy key); cbn; repeat split; auto.
Qed.

Lemma interact_frame network w i :
  searchesStarted (interact network w i) = searchesStarted w /\
  googleMapRef (interact network w i) = googleMapRef w /\
  (acceptsBoundary i = false -> eezBoundary w = None ->
   eezBoundary (interact network w i) = None) /\
  (measuresPosition i = false -> containerHidden w ->
   containerHidden (interact network w i)).
Proof.
  destruct i as [ev | |]; cbn [interact acceptsBoundary measuresPosition].
  - destruct (handle_frame network w ev) as (H1 & H2 & _ & H4 & H5). auto.
  - destruct (retryVisible w); [| auto].
    destruct (retryClick_frame w) as (H1 & H2 & _ & H4 & H5).
    repeat split; auto. intros _ Hb. rewrite H4. exact Hb.
  - unfold apiArrives, containerHidden. cbn. auto.
Qed.

Lemma closed_gate_effect w : readinessGate w = false -> gateEffect w = w.
Proof. intros H. unfold gateEffect. rewrite H. reflexivity. Qed.

Lemma no_boundary_closes_the_gate w : eezBoundary w = None -> readinessGate w = false.
Proof. intros H. unfold readinessGate. rewrite H. apply andb_false_r. Qed.

Lemma hidden_container_closes_the_gate w :
  containerHidden w -> renderContent w <> MapView /\ readinessGate w = false.
Proof.
  unfold containerHidden, readinessGate, mapRefCurrent, renderContent.
  intros [H | H]; rewrite H.
  - split; [discriminate |]. rewrite !andb_false_r. reflexivity.
  - destruct (isLoading w); (split; [discriminate |]);
      rewrite !andb_false_r; reflexivity.
Qed.

Lemma mountInto_start api scripts key supported :
  searchesStarted (mountInto api scripts key supported) = 0 /\
  googleMapRef (mountInto api scripts key supported) = false /\
  eezBoundary (mountInto api scripts key supported) = None /\
  containerHidden (mountInto api scripts key supported).
Proof.
  unfold mountInto, loadGoogleMaps, getCurrentLocation_start, containerHidden. cbn.
  destruct api; cbn.
  - destruct supported; cbn; auto.
  - destruct scripts; cbn; [destruct (truthy key) |]; destruct supported; cbn; auto.
Qed.

Lemma lifetime_without_boundary network (interactions : list Interaction) : forall w,
  forallb (fun i => negb (acceptsBoundary i)) interactions = true ->
  eezBoundary w = None ->
  eezBoundary (lifetime network w interactions) = None /\
  searchesStarted (lifetime network w interactions) = searchesStarted w /\
  googleMapRef (lifetime network w interactions) = googleMapRef w.
Proof.
  induction interactions as [| i l IH]; intros w Hall Hb; [auto |].
  cbn [forallb] in Hall. apply andb_prop in Hall. destruct Hall as [Hi Hl].
  apply negb_true_iff in Hi.
  destruct (interact_frame network w i) as (H1 & H2 & H3 & _).
  specialize (H3 Hi Hb).
  change (lifetime network w (i :: l))
    with (lifetime network (gateEffect (interact network w i)) l).
  rewrite (@closed_gate_effect _ (@no_boundary_closes_the_gate _ H3)).
  destruct (IH _ Hl H3) as (I1 & I2 & I3).
  rewrite I1, I2, I3, H1, H2. auto.
Qed.

Lemma lifetime_without_position network (interactions : list Interaction) : forall w,
  forallb (fun i => negb (measuresPosition i)) interactions = true ->
  containerHidden w ->
  containerHidden (lifetime network w interactions) /\
  searchesStarted (lifetime network w interactions) = searchesStarted w /\
  googleMapRef (lifetime network w interactions) = googleMapRef w.
Proof.
  induction interactions as [| i l IH]; intros w Hall Hh; [auto |].
  cbn [forallb] in Hall. apply andb_prop in Hall. destruct Hall as [Hi Hl].
  apply negb_true_iff in Hi.
  destruct (interact_frame network w i) as (H1 & H2 & _ & H4).
  specialize (H4 Hi Hh).
  change (lifetime network w (i :: l))
    with (lifetime network (gateEffect (interact network w i)) l).
  rewrite (@closed_gate_effect _ (proj2 (@hidden_container_closes_the_gate _ H4))).
  destruct (IH _ Hl H4) as (I1 & I2 & I3).
  rewrite I2, I3, H1, H2. auto.
Qed.

(** C1.  The gate does not open once the three tasks are settled: it waits
    for their success, and for the boundary and the location that is not
    what the code itself prepares for.  Whatever document the component is
    mounted into and whatever happens afterwards (loader callbacks,
    geolocation answers, boundary responses, clicks on Retry, the API
    appearing in the page), in any order: as long as no boundary response
    has been accepted the stored boundary is [null], the gate is closed, no
    map has been created and no search has been started, although a failed
    fetch stores [null] "so components can handle gracefully" and
    [initializeMap] tests [if (eezBoundary)]; and as long as no position has
    been measured the map container is not rendered, the gate is closed, no
    map has been created and no search has been started, although a failed
    request stores the fallback location.  The statement holds at every
    moment, since it holds for every sequence of interactions. *)
Theorem failed_boundary_or_location_keeps_the_gate_closed
        api scripts key supported network (interactions : list Interaction) :
  (forallb (fun i => negb (acceptsBoundary i)) interactions = true ->
   eezBoundary (lifetime network (mountInto api scripts key supported) interactions) = None /\
   readinessGate (lifetime network (mountInto api scripts key supported) interactions) =
     false /\
   googleMapRef (lifetime network (mountInto api scripts key supported) interactions) =
     false /\
   searchesStarted (lifetime network (mountInto api scripts key supported) interactions) =
     0) /\
  (forallb (fun i => negb (measuresPosition i)) interactions = true ->
   renderContent (lifetime network (mountInto api scripts key supported) interactions) <>
     MapView /\
   readinessGate (lifetime network (mountInto api scripts key supported) interactions) =
     false /\
   googleMapRef (lifetime network (mountInto api scripts key supported) interactions) =
     false /\
   searchesStarted (lifetime network (mountInto api scripts key supported) interactions) =
     0).
Proof.
  destruct (mountInto_start api scripts key supported) as (M1 & M2 & M3 & M4).
  split; intros Hall.
  - destruct (@lifetime_without_boundary network interactions _ Hall M3) as (H1 & H2 & H3).
    rewrite H2, H3, M1, M2.
    split; [exact H1 |]. split; [apply (@no_boundary_closes_the_gate _ H1) | auto].
  - destruct (@lifetime_without_position network interactions _ Hall M4) as (H1 & H2 & H3).
    rewrite H2, H3, M1, M2.
    destruct (@hidden_container_closes_the_gate _ H1) as [Hv Hg]. auto.
Qed.

(* ===================================================================== *)
(** ** Runs of the model on concrete inputs *)
(* ===================================================================== *)

(** The loader on its good path: one script, the API is there at the
    100 ms check, no retry wait. *)
Example loader_ready_after_load :
  isGoogleMapsLoaded (steps loadsWithApi 2 (startEngineLoader (Some "key"%string))) = true /\
  loadAttempts (steps loadsWithApi 2 (startEngineLoader (Some "key"%string))) = 1 /\
  retryWaits (steps loadsWithApi 2 (startEngineLoader (Some "key"%string))) = 0 /\
  setTimeoutCalls (steps loadsWithApi 2 (startEngineLoader (Some "key"%string))) = [100].
Proof. vm_compute. auto. Qed.

(** Without a key the loader stops before any attempt. *)
Example loader_missing_key :
  loadAttempts (startEngineLoader None) = 0 /\
  timers (startEngineLoader None) = [] /\
  isLoading (startEngineLoader None) = false /\
  retryCount (startEngineLoader None) = 0.
Proof. vm_compute. auto. Qed.

(** A run over natural-number coordinates, computed: the fourth result of
    category 0 is cut off, the failed categories add nothing, and the two
    entries at distance 5 keep their arrival order (category 2 before
    category 5). *)
Example grid_run_ids :
  map (fun p => (id p, distance p))
      (fishingPOIs (searchNearbyFishingPlaces Nat.compare gridDistance
                      (Location.mk 0 0) gridRun)) =
  [(21, 1); (1, 1); (20, 5); (0, 5); (50, 5); (2, 18)].
Proof. vm_compute. reflexivity. Qed.

Example grid_run_counter :
  searchesCompleted (searchNearbyFishingPlaces Nat.compare gridDistance
                       (Location.mk 0 0) gridRun) = 7 /\
  setFishingPOIsCalls (searchNearbyFishingPlaces Nat.compare gridDistance
                         (Location.mk 0 0) gridRun) = 1 /\
  fishingPOIs (searchNearbyFishingPlaces Nat.compare gridDistance
                 (Location.mk 0 0) (firstn 6 gridRun)) = [].
Proof. vm_compute. auto. Qed.

(* ===================================================================== *)
(** ** The statements at concrete inputs *)
(* ===================================================================== *)

Lemma searches_nonempty : searches <> [].
Proof. discriminate. Qed.

Lemma exampleRun_schedule : schedule searches exampleRun.
Proof. apply perm_swap. Qed.

Lemma duplicateRun_schedule : schedule searches duplicateRun.
Proof. apply Permutation_refl. Qed.

(** The example of the specification for C2: seven categories, the query of
    category 3 fails, every other returns two results. *)
Lemma search_completion_tally_witness :
  searchesCompleted (searchNearbyFishingPlacesR GeoMath.chennai exampleRun) = 7 /\
  List.length (fishingPOIs (searchNearbyFishingPlacesR GeoMath.chennai exampleRun)) = 12 /\
  Forall (fun p => id p / 10 <> 3)
         (fishingPOIs (searchNearbyFishingPlacesR GeoMath.chennai exampleRun)).
Proof.
  unfold searchNearbyFishingPlacesR, searchNearbyFishingPlaces.
  destruct (@search_completion_tally R GeoMath.Rcompare GeoMath.calculateDistance
              searches GeoMath.chennai exampleRun searches_nonempty exampleRun_schedule)
    as (Hpre & Hfail & Hlen).
  split; [| split].
  - destruct (Hpre exampleRun [] (eq_sym (app_nil_r exampleRun))) as (H & _). exact H.
  - exact Hlen.
  - apply Forall_forall. intros p Hp.
    refine (Hfail 3 Threw p _ eq_refl Hp).
    unfold exampleRun. do 3 right. left. reflexivity.
Defined.


(** The harbour is published twice, once per category that returned it; in
    category 4 it keeps the id of its position although the result before it
    was skipped. *)
Lemma search_keeps_duplicates_witness :
  List.length (fishingPOIs (searchNearbyFishingPlacesR GeoMath.chennai duplicateRun)) = 2 /\
  (exists p, In p (fishingPOIs (searchNearbyFishingPlacesR GeoMath.chennai duplicateRun)) /\
             id p = 0 /\ place_id p = Some "harbour"%string) /\
  (exists q, In q (fishingPOIs (searchNearbyFishingPlacesR GeoMath.chennai duplicateRun)) /\
             id q = 41 /\ place_id q = Some "harbour"%string) /\
  List.length (searchLog (searchNearbyFishingPlacesR GeoMath.chennai duplicateRun)) = 5.
Proof.
  unfold searchNearbyFishingPlacesR, searchNearbyFishingPlaces.
  destruct (@search_keeps_duplicates R GeoMath.Rcompare GeoMath.calculateDistance
              searches GeoMath.chennai duplicateRun searches_nonempty duplicateRun_schedule)
    as (_ & Hlen & _ & Hall & _ & Hlog).
  split; [exact Hlen | split; [| split; [| rewrite Hlog; reflexivity]]].
  - destruct (Hall 0 [placeAt 13.1 80.3 "harbour"] 0 (placeAt 13.1 80.3 "harbour")
                (Location.mk 13.1%R 80.3%R))
      as (p & Hp & Hid & Hpid & _);
      [left; reflexivity | lia | reflexivity | reflexivity |].
    exists p. auto.
  - destruct (Hall 4 [placeWithoutGeometry "pier"; placeAt 13.1 80.3 "harbour"] 1
                (placeAt 13.1 80.3 "harbour") (Location.mk 13.1%R 80.3%R))
      as (q & Hq & Hid & Hpid & _);
      [do 4 right; left; reflexivity | lia | reflexivity | reflexivity |].
    exists q. auto.
Defined.

(** The example of the specification for C6: a simulated timeout. *)
Lemma location_failure_witness :
  userLocation (getCurrentLocation (Answers (GotError TIMEOUT)) (initialWorld None)) =
    Some (Location.mk 13.0827%R 80.2707%R) /\
  toasts (getCurrentLocation (Answers (GotError TIMEOUT)) (initialWorld None)) =
    [toast_error "Location timeout. Using Chennai as default."].
Proof.
  destruct (@location_failure_falls_back (Answers (GotError TIMEOUT)) timeout
              (initialWorld None) eq_refl) as (Hloc & Htoast & _).
  split; [exact Hloc | exact Htoast].
Defined.

(** A script that loads without the API, five callbacks later. *)
Lemma settle_without_api_witness :
  steps loadsWithoutApi 5 (startEngineLoader (Some "key"%string)) = apiAbsentWorld "key" /\
  retryWaits (apiAbsentWorld "key") = 0.
Proof.
  destruct (@settle_without_api_is_terminal loadsWithoutApi "k"%char "ey"%string 3 eq_refl)
    as (Hrun & _ & _ & _ & _ & _ & Hwaits & _).
  split; [exact Hrun | exact Hwaits].
Defined.

(** All three tasks have settled and the gate is closed.  In the first
    lifetime the engine is loaded, a position is measured and the map
    container is rendered, and the boundary fetch has been rejected: the
    boundary is [null].  In the second the engine is loaded and the boundary
    is stored, and the position request has timed out: the fallback location
    is stored, and the error panel is shown in place of the map container.
    In neither is a search started. *)
Lemma gate_stays_closed_witness :
  (isGoogleMapsLoaded
     (lifetime loadsWithApi (mountInto false 0 (Some "key"%string) true)
        boundaryFailsLifetime) = true /\
   isSome (userLocation
     (lifetime loadsWithApi (mountInto false 0 (Some "key"%string) true)
        boundaryFailsLifetime)) = true /\
   renderContent
     (lifetime loadsWithApi (mountInto false 0 (Some "key"%string) true)
        boundaryFailsLifetime) = MapView /\
   timers
     (lifetime loadsWithApi (mountInto false 0 (Some "key"%string) true)
        boundaryFailsLifetime) = [] /\
   eezBoundary
     (lifetime loadsWithApi (mountInto false 0 (Some "key"%string) true)
        boundaryFailsLifetime) = None /\
   readinessGate
     (lifetime loadsWithApi (mountInto false 0 (Some "key"%string) true)
        boundaryFailsLifetime) = false /\
   searchesStarted
     (lifetime loadsWithApi (mountInto false 0 (Some "key"%string) true)
        boundaryFailsLifetime) = 0) /\
  (isGoogleMapsLoaded
     (lifetime loadsWithApi (mountInto false 0 (Some "key"%string) true)
        locationFailsLifetime) = true /\
   eezBoundary
     (lifetime loadsWithApi (mountInto false 0 (Some "key"%string) true)
        locationFailsLifetime) = Some oneFeature /\
   userLocation
     (lifetime loadsWithApi (mountInto false 0 (Some "key"%string) true)
        locationFailsLifetime) = Some fallbackLocation /\
   timers
     (lifetime loadsWithApi (mountInto false 0 (Some "key"%string) true)
        locationFailsLifetime) = [] /\
   renderContent
     (lifetime loadsWithApi (mountInto false 0 (Some "key"%string) true)
        locationFailsLifetime) = ErrorPanel /\
   readinessGate
     (lifetime loadsWithApi (mountInto false 0 (Some "key"%string) true)
        locationFailsLifetime) = false /\
   searchesStarted
     (lifetime loadsWithApi (mountInto false 0 (Some "key"%string) true)
        locationFailsLifetime) = 0).
Proof.
  destruct (@failed_boundary_or_location_keeps_the_gate_closed false 0 (Some "key"%string)
              true loadsWithApi boundaryFailsLifetime) as [Hb _].
  destruct (Hb eq_refl) as (Hnone & Hgate & _ & Hsearch).
  destruct (@failed_boundary_or_location_keeps_the_gate_closed false 0 (Some "key"%string)
              true loadsWithApi locationFailsLifetime) as [_ Hp].
  destruct (Hp eq_refl) as (_ & Hgate' & _ & Hsearch').
  split.
  - split; [reflexivity |]. split; [reflexivity |]. split; [reflexivity |].
    split; [reflexivity |]. split; [exact Hnone |]. split; [exact Hgate | exact Hsearch].
  - split; [reflexivity |]. split; [reflexivity |]. split; [reflexivity |].
    split; [reflexivity |]. split; [reflexivity |]. split; [exact Hgate' | exact Hsearch'].
Defined.

(* ===================================================================== *)
(** ** Further properties of the search and of the list it feeds *)
(* ===================================================================== *)

Section SearchMore.

Variable number : Type.
Variable numCompare : number -> number -> comparison.
Variable calculateDistance : UserLocation number -> UserLocation number -> number.
Variable qs : list Search.
Variable origin : UserLocation number.

Local Abbreviation run := (searchOver numCompare calculateDistance qs origin).
Local Abbreviation found := (discovered calculateDistance qs origin).

Lemma or_string_filled s fallback : fallback <> EmptyString -> or_string s fallback <> EmptyString.
Proof.
  intros Hf. destruct s as [[|c s]|]; simpl; auto. discriminate.
Qed.

Lemma published_origin (evs : list (Completion number)) p :
  qs <> [] -> schedule qs evs -> In p (fishingPOIs (run evs)) ->
  exists c search places k place loc,
    In c evs /\ nth_error qs (fst c) = Some search /\
    snd c = Responded (Some places) OK /\ k < 3 /\
    nth_error places k = Some place /\ located place = Some loc /\
    p = {| id := fst c * 10 + k;
           name := or_string (Places.name place) "Unknown Location";
           type := search_type search;
           lat := Location.lat loc;
           lng := Location.lng loc;
           distance := calculateDistance origin
                         (Location.mk (Location.lat loc) (Location.lng loc));
           description := or_string (Places.vicinity place) "No description available";
           rating := Places.rating place;
           place_id := Places.place_id place;
           price_level := Places.price_level place;
           photos := option_map (firstn 1) (Places.photos place) |}.
Proof.
  intros Hne Hs Hin.
  apply (Permutation_in _ (@published_perm _ numCompare calculateDistance qs origin evs Hne Hs)) in Hin.
  apply in_flat_map in Hin. destruct Hin as (c & Hc & Hp).
  apply (proj1 (@in_discovered _ numCompare calculateDistance qs origin c p)) in Hp.
  destruct Hp as (search & places & k & place & Hq & Ho & Hk & Hn & Hpl).
  rewrite placeToPOI_located in Hpl.
  destruct (located place) as [loc|] eqn:Hloc; [|discriminate].
  injection Hpl as <-.
  exists c, search, places, k, place, loc. repeat split; auto.
Qed.

(** X1.  Every published entry is fully labelled: its name and description
    are never empty (the fallbacks replace a missing or empty member), it
    carries at most one photo, its type is the one of the category its id
    names, and its distance is measured from the origin to its own
    coordinates. *)
Theorem published_entries_are_labelled (evs : list (Completion number)) p :
  qs <> [] -> schedule qs evs -> In p (fishingPOIs (run evs)) ->
  name p <> EmptyString /\
  description p <> EmptyString /\
  (forall urls, photos p = Some urls -> List.length urls <= 1) /\
  option_map search_type (nth_error qs (id p / 10)) = Some (type p) /\
  id p mod 10 < 3.
Proof.
  intros Hne Hs Hin.
  destruct (@published_origin evs p Hne Hs Hin)
    as (c & search & places & k & place & loc & Hc & Hq & Ho & Hk & Hn & Hloc & ->).
  cbn [id name description photos type]. repeat split.
  - apply or_string_filled. discriminate.
  - apply or_string_filled. discriminate.
  - intros urls Hu. destruct (Places.photos place) as [l|]; [|discriminate].
    injection Hu as <-. destruct l; simpl; lia.
  - replace ((fst c * 10 + k) / 10) with (fst c).
    + rewrite Hq. reflexivity.
    + symmetry. rewrite Nat.div_add_l by lia.
      rewrite Nat.div_small by lia. lia.
  - rewrite Nat.add_comm, Nat.Div0.mod_add. rewrite Nat.mod_small; lia.
Qed.

Lemma locatedCount_le_3 (c : Completion number) : locatedCount c <= 3.
Proof.
  unfold locatedCount. destruct (snd c) as [[places|] []|]; try lia.
  etransitivity; [apply filter_length_le|].
  unfold slice_0_3. rewrite length_firstn. lia.
Qed.

Lemma list_sum_bound (B : Type) (f : B -> nat) b (l : list B) :
  (forall x, f x <= b) -> list_sum (map f l) <= b * List.length l.
Proof.
  intros Hf. induction l as [|x l IH]; simpl; [lia|].
  specialize (Hf x). lia.
Qed.

Lemma NoDup_map_filter (B C : Type) (f : B -> C) (g : B -> bool) (l : list B) :
  NoDup (map f l) -> NoDup (map f (filter g l)).
Proof.
  induction l as [|x l IH]; simpl; intros Hnd; [constructor|].
  inversion Hnd as [|? ? Hn Hnd0]; subst.
  destruct (g x); simpl; auto.
  constructor; auto. intros Hx. apply Hn.
  apply in_map_iff in Hx. destruct Hx as (q & Hq & Hqin).
  apply filter_In in Hqin. apply in_map_iff. exists q. tauto.
Qed.

(** X2.  A run publishes at most three entries per category, whatever the
    provider returns: the list has at most [3 * searches.length] entries and
    every id is below [10 * searches.length]. *)
Theorem published_size_bounds (evs : list (Completion number)) :
  qs <> [] -> schedule qs evs ->
  List.length (fishingPOIs (run evs)) <= 3 * List.length qs /\
  (forall i, List.length (filter (fun p => id p / 10 =? i) (fishingPOIs (run evs))) <= 3) /\
  (forall p, In p (fishingPOIs (run evs)) -> id p < 10 * List.length qs).
Proof.
  intros Hne Hs. split; [|split].
  - rewrite (@published_length _ numCompare calculateDistance qs origin evs Hne Hs).
    rewrite <- (schedule_length Hs).
    apply list_sum_bound. apply locatedCount_le_3.
  - intros i.
    pose proof (@published_NoDup _ numCompare calculateDistance qs origin evs Hne Hs) as Hnd.
    set (l := fishingPOIs (run evs)) in *.
    assert (Hsub : incl (map id (filter (fun p => id p / 10 =? i) l))
                        [i * 10; i * 10 + 1; i * 10 + 2]).
    { intros x Hx. apply in_map_iff in Hx. destruct Hx as (p & <- & Hp).
      apply filter_In in Hp. destruct Hp as [Hp Hi]. apply Nat.eqb_eq in Hi.
      destruct (@published_origin evs p Hne Hs Hp)
        as (c & search & places & k & place & loc & _ & _ & _ & Hk & _ & _ & Hp').
      assert (Hid : id p = fst c * 10 + k) by (rewrite Hp'; reflexivity).
      assert (fst c = i).
      { rewrite Hid in Hi. rewrite Nat.div_add_l in Hi by lia.
        rewrite Nat.div_small in Hi by lia. rewrite Nat.add_0_r in Hi. exact Hi. }
      clear Hi. subst i. rewrite Hid. cbn [In]. lia. }
    pose proof (NoDup_incl_length (@NoDup_map_filter _ _ id (fun p => id p / 10 =? i) l Hnd) Hsub) as Hlen.
    rewrite length_map in Hlen. simpl in Hlen. exact Hlen.
  - intros p Hp.
    destruct (@published_origin evs p Hne Hs Hp)
      as (c & search & places & k & place & loc & Hc & Hq & _ & Hk & _ & _ & Hp').
    assert (Hid : id p = fst c * 10 + k) by (rewrite Hp'; reflexivity).
    assert (fst c < List.length qs) by (apply nth_error_Some; congruence).
    lia.
Qed.

(** X3.  When every query fails (it throws or answers with a status other
    than [OK]) the run still publishes, once, and what it publishes is the
    empty list: the panel shows the nothing-found notice and the console has
    one line per category. *)
Theorem all_queries_fail_publishes_empty (evs : list (Completion number)) :
  qs <> [] -> schedule qs evs ->
  Forall (fun c => failed (snd c) = true) evs ->
  published (run evs) = true /\
  setFishingPOIsCalls (run evs) = 1 /\
  fishingPOIs (run evs) = [] /\
  poiPanel (fishingPOIs (run evs)) = NothingFound /\
  List.length (searchLog (run evs)) = List.length qs.
Proof.
  intros Hne Hs Hf.
  assert (Hnone : flat_map found evs = []).
  { clear Hs. induction Hf as [|c l Hc _ IH]; simpl; auto.
    rewrite IH, (@failed_discovers_nothing _ calculateDistance qs origin c Hc). reflexivity. }
  destruct (@run_complete _ numCompare calculateDistance qs origin evs
              (schedule_valid Hs) (schedule_nonempty Hne Hs) (schedule_length Hs))
    as (_ & Hall & Hpub & Hcalls).
  assert (Hempty : fishingPOIs (run evs) = []).
  { unfold fishingPOIs. rewrite Hpub, Hall, Hnone. reflexivity. }
  repeat split; auto.
  - rewrite Hempty. reflexivity.
  - rewrite run_log. rewrite <- (schedule_length Hs).
    pose proof (schedule_valid Hs) as Hv.
    clear Hs Hnone Hall Hpub Hcalls Hempty.
    induction Hf as [|c l Hc _ IH]; simpl; auto.
    inversion Hv as [|? ? Hvc Hvl]; subst.
    rewrite length_app, (IH Hvl). f_equal.
    unfold logged. unfold validIndex in Hvc.
    destruct (nth_error qs (fst c)) eqn:Hq.
    + destruct (snd c) as [res st|]; simpl in *; auto.
      destruct (status_is_OK st); [discriminate|reflexivity].
    + apply nth_error_None in Hq. lia.
Qed.

Lemma sorted_split (B : Type) (R : B -> B -> Prop) (l : list B) n a b :
  StronglySorted R l -> In a (firstn n l) -> In b (skipn n l) -> R a b.
Proof.
  intros Hs. revert n. induction Hs as [|x l Hs IH Hx]; intros n Ha Hb.
  - rewrite firstn_nil in Ha. destruct Ha.
  - destruct n as [|n]; simpl in *; [destruct Ha|].
    destruct Ha as [<-|Ha].
    + rewrite Forall_forall in Hx. apply Hx.
      rewrite <- (firstn_skipn n l). apply in_or_app. right. exact Hb.
    + eapply IH; eauto.
Qed.

Lemma NoDup_firstn (B : Type) (l : list B) n : NoDup l -> NoDup (firstn n l).
Proof.
  intros H. rewrite <- (firstn_skipn n l) in H. apply NoDup_app_remove_r in H. exact H.
Qed.

(** X4.  The list shows the ten nearest: of a published run it shows at
    most ten entries, all of them when there are at most ten; in the order
    [le] of the numbers, of which the comparator's argument is the sign of
    the difference, the shown entries are ascending by distance and no entry
    that is left out is nearer than one that is shown; and the React keys of
    the shown entries (their ids) are pairwise different. *)
Theorem displayed_are_the_nearest (le : number -> number -> Prop)
        (evs : list (Completion number)) :
  SignOfDifference numCompare le -> qs <> [] -> schedule qs evs ->
  let pois := fishingPOIs (run evs) in
  List.length (displayedPOIs pois) = Nat.min 10 (List.length pois) /\
  displayedPOIs pois ++ hiddenPOIs pois = pois /\
  (forall a b, In a (displayedPOIs pois) -> In b (hiddenPOIs pois) ->
               le (distance a) (distance b)) /\
  ascending le (displayedPOIs pois) /\
  NoDup (map id (displayedPOIs pois)).
Proof.
  intros Hsign Hne Hs pois. pose proof (sign_consistent Hsign) as Hc.
  assert (Hsorted : ascending le pois).
  { unfold pois.
    destruct (@run_schedule _ numCompare calculateDistance qs origin evs Hne Hs) as (_ & -> & _).
    apply (sorted_ascending Hsign). apply Array_sort_sorted; unfold byDistance.
    - intros a b. apply (compare_total Hc).
    - intros a b c. apply (compare_trans Hc). }
  unfold ascending in *. unfold displayedPOIs, hiddenPOIs. repeat split.
  - apply length_firstn.
  - apply firstn_skipn.
  - intros a b Ha Hb.
    apply (@sorted_split _ (fun a b => le (distance a) (distance b)) pois 10 a b Hsorted Ha Hb).
  - clear -Hsorted. generalize 10. induction Hsorted as [|x l Hs IH Hx]; intros n.
    + rewrite firstn_nil. constructor.
    + destruct n; simpl; constructor; auto.
      rewrite Forall_forall in *. intros y Hy. apply Hx.
      rewrite <- (firstn_skipn n l). apply in_or_app. left. exact Hy.
  - rewrite <- firstn_map. apply NoDup_firstn.
    apply (@published_NoDup _ numCompare calculateDistance qs origin evs Hne Hs).
Qed.

End SearchMore.

(* ===================================================================== *)
(** ** searchNearbyFishingPlacesModern *)
(* ===================================================================== *)

Section ModernFacts.

Variable number : Type.
Variable numCompare : number -> number -> comparison.
Variable calculateDistance : UserLocation number -> UserLocation number -> number.
Variable qs : list Search.
Variable origin : UserLocation number.

Local Abbreviation mrun := (modernOver numCompare calculateDistance qs origin).
Local Abbreviation answer := (modernAnswer numCompare calculateDistance qs origin).
Local Abbreviation disc := (modernDiscovered calculateDistance qs origin).

Lemma modernAnswer_quiet (r : ModernRun number) (a : ModernAnswer number) :
  publishes qs a = false ->
  modernAllPOIs (answer r a) = modernAllPOIs r ++ disc a /\
  modernPublished (answer r a) = modernPublished r /\
  modernSetCalls (answer r a) = modernSetCalls r.
Proof.
  unfold publishes, modernAnswer, modernDiscovered, discovered, asCompletion, bringsResults.
  destruct a as [i [res st]]. cbn [fst snd]. intros Hp.
  destruct (nth_error qs i) as [search|] eqn:Hq.
  - assert (Hi : i < List.length qs) by (apply nth_error_Some; congruence).
    apply Nat.ltb_lt in Hi. rewrite Hi in Hp. cbn [andb] in Hp.
    unfold modernCallback.
    destruct st; try (rewrite app_nil_r; auto);
      destruct res as [places|]; try (rewrite app_nil_r; auto).
    rewrite andb_true_r in Hp. rewrite Hp. cbn [modernAllPOIs modernPublished modernSetCalls].
    rewrite forEachPlace_acc. auto.
  - rewrite app_nil_r. auto.
Qed.

Lemma modernAnswer_publishing (r : ModernRun number) (a : ModernAnswer number) :
  publishes qs a = true ->
  modernAllPOIs (answer r a) =
    Array_sort (byDistance numCompare) (modernAllPOIs r ++ disc a) /\
  modernPublished (answer r a) = true /\
  modernSetCalls (answer r a) = S (modernSetCalls r).
Proof.
  unfold publishes, modernAnswer, modernDiscovered, discovered, asCompletion, bringsResults.
  destruct a as [i [res st]]. cbn [fst snd]. intros Hp.
  apply andb_prop in Hp. destruct Hp as [Hp Hb].
  apply andb_prop in Hp. destruct Hp as [Hi Hlast].
  apply Nat.ltb_lt in Hi.
  destruct (nth_error qs i) as [search|] eqn:Hq.
  - unfold modernCallback.
    destruct res as [places|]; [|discriminate]. destruct st; try discriminate.
    rewrite Hlast. cbn [modernAllPOIs modernPublished modernSetCalls].
    rewrite forEachPlace_acc. auto.
  - apply nth_error_None in Hq. lia.
Qed.

Lemma modern_fold_quiet (answers : list (ModernAnswer number)) : forall r,
  Forall (fun a => publishes qs a = false) answers ->
  modernAllPOIs (fold_left answer answers r) = modernAllPOIs r ++ flat_map disc answers /\
  modernPublished (fold_left answer answers r) = modernPublished r /\
  modernSetCalls (fold_left answer answers r) = modernSetCalls r.
Proof.
  induction answers as [|a l IH]; intros r Hq; cbn [fold_left flat_map].
  - rewrite app_nil_r. auto.
  - inversion Hq as [|? ? Ha Hl]; subst.
    destruct (modernAnswer_quiet r a Ha) as (H1 & H2 & H3).
    destruct (IH (answer r a) Hl) as (I1 & I2 & I3).
    rewrite I1, I2, I3, H1, H2, H3, app_assoc. auto.
Qed.

Lemma modern_fold_calls (answers : list (ModernAnswer number)) : forall r,
  modernSetCalls (fold_left answer answers r) =
    modernSetCalls r + List.length (filter (publishes qs) answers) /\
  modernPublished (fold_left answer answers r) =
    modernPublished r || existsb (publishes qs) answers.
Proof.
  induction answers as [|a l IH]; intros r; cbn [fold_left filter existsb].
  - rewrite orb_false_r. cbn [Datatypes.length]. split; [lia | reflexivity].
  - destruct (IH (answer r a)) as [I1 I2]. rewrite I1, I2.
    destruct (publishes qs a) eqn:Hp.
    + destruct (modernAnswer_publishing r a Hp) as (_ & H2 & H3).
      rewrite H2, H3. cbn [Datatypes.length orb]. rewrite orb_true_r. split; [lia | reflexivity].
    + destruct (modernAnswer_quiet r a Hp) as (_ & H2 & H3).
      rewrite H2, H3. split; reflexivity.
Qed.

(** X5.  The modern search sets the state in the callback of the last
    category only, and only when that answer is [OK] with results: the
    number of [setFishingPOIs] calls is the number of such answers, and
    without one the list stays empty whatever the other categories found. *)
Theorem modern_publishes_on_last_category_only (answers : list (ModernAnswer number)) :
  modernSetCalls (mrun answers) = List.length (filter (publishes qs) answers) /\
  modernPublished (mrun answers) = existsb (publishes qs) answers /\
  (existsb (publishes qs) answers = false ->
     modernFishingPOIs (mrun answers) = [] /\
     modernAllPOIs (mrun answers) = flat_map disc answers).
Proof.
  unfold modernOver.
  destruct (modern_fold_calls answers (modernStart number)) as [H1 H2].
  split; [exact H1 | split; [exact H2 |]].
  intros Hno. unfold modernFishingPOIs. rewrite H2, Hno. split; [reflexivity|].
  apply modern_fold_quiet. apply Forall_forall. intros a Ha.
  destruct (publishes qs a) eqn:Hp; auto.
  assert (existsb (publishes qs) answers = true) by (apply existsb_exists; eauto).
  congruence.
Qed.

(** X6.  The state holds the [allPOIs] array itself.  When the last
    category answers before others do, what those bring later is pushed
    onto the array after it was sorted: the list is the sorted earlier
    entries followed by the later ones in arrival order. *)
Theorem modern_late_answers_are_appended_unsorted
        (pre post : list (ModernAnswer number)) (a : ModernAnswer number) :
  Forall (fun b => publishes qs b = false) pre ->
  publishes qs a = true ->
  Forall (fun b => publishes qs b = false) post ->
  modernFishingPOIs (mrun (pre ++ a :: post)) =
    Array_sort (byDistance numCompare) (flat_map disc (pre ++ [a])) ++ flat_map disc post /\
  modernSetCalls (mrun (pre ++ a :: post)) = 1.
Proof.
  intros Hpre Ha Hpost. unfold modernOver, modernFishingPOIs.
  rewrite fold_left_app. cbn [fold_left].
  destruct (modern_fold_quiet (modernStart number) Hpre) as (P1 & P2 & P3).
  destruct (modernAnswer_publishing (fold_left answer pre (modernStart number)) a Ha)
    as (A1 & A2 & A3).
  destruct (modern_fold_quiet
              (answer (fold_left answer pre (modernStart number)) a) Hpost)
    as (Q1 & Q2 & Q3).
  rewrite Q1, Q2, Q3, A1, A2, A3, P1, P3. cbn [modernStart modernAllPOIs modernSetCalls app].
  rewrite flat_map_app. cbn [flat_map]. rewrite app_nil_r. auto.
Qed.

Lemma found_asCompletion (answers : list (ModernAnswer number)) :
  flat_map (discovered calculateDistance qs origin) (map (@asCompletion number) answers) =
  flat_map disc answers.
Proof.
  induction answers as [|a l IH]; cbn [map flat_map]; [reflexivity|].
  rewrite IH. reflexivity.
Qed.

(** X7.  When every category answers once and the last category answers
    last, with results, the modern search publishes exactly the list the
    legacy search publishes for the same answers. *)
Theorem modern_agrees_with_legacy (pre : list (ModernAnswer number)) (a : ModernAnswer number) :
  qs <> [] ->
  schedule qs (map (@asCompletion number) (pre ++ [a])) ->
  publishes qs a = true ->
  modernFishingPOIs (mrun (pre ++ [a])) =
  fishingPOIs (searchOver numCompare calculateDistance qs origin
                 (map (@asCompletion number) (pre ++ [a]))).
Proof.
  intros Hne Hs Ha.
  assert (Hlast : fst a = List.length qs - 1).
  { unfold publishes in Ha. apply andb_prop in Ha. destruct Ha as [Ha _].
    apply andb_prop in Ha. destruct Ha as [_ Ha]. apply Nat.eqb_eq in Ha. exact Ha. }
  assert (Hpre : Forall (fun b => publishes qs b = false) pre).
  { pose proof (schedule_NoDup Hs) as Hnd.
    rewrite map_map, map_app in Hnd. cbn [map] in Hnd.
    apply NoDup_remove_2 in Hnd. rewrite app_nil_r in Hnd.
    apply Forall_forall. intros b Hb.
    destruct (publishes qs b) eqn:Hp; auto. exfalso. apply Hnd.
    unfold publishes in Hp. apply andb_prop in Hp. destruct Hp as [Hp _].
    apply andb_prop in Hp. destruct Hp as [_ Hp]. apply Nat.eqb_eq in Hp.
    apply in_map_iff. exists b. split; [|exact Hb].
    unfold asCompletion. cbn [fst]. congruence. }
  unfold modernOver, modernFishingPOIs. rewrite fold_left_app. cbn [fold_left].
  destruct (modern_fold_quiet (modernStart number) Hpre) as (P1 & _ & _).
  destruct (modernAnswer_publishing (fold_left answer pre (modernStart number)) a Ha)
    as (-> & -> & _).
  rewrite P1. cbn [modernStart modernAllPOIs app].
  replace (flat_map disc pre ++ disc a) with (flat_map disc (pre ++ [a]))
    by (rewrite flat_map_app; cbn [flat_map]; rewrite app_nil_r; reflexivity).
  destruct (@run_schedule _ numCompare calculateDistance qs origin _ Hne Hs) as (_ & -> & _).
  rewrite found_asCompletion. reflexivity.
Qed.

(** X8.  When [nearbySearch] throws for some category the loop is left
    before the last category is queried: whatever the categories already
    queried answer, the modern search never sets the state, and the legacy
    search is started in its place. *)
Theorem modern_throw_never_publishes (i : nat) (answers : list (ModernAnswer number)) :
  i < List.length qs ->
  Forall (fun a => In (fst a) (modernIssued qs (Some i))) answers ->
  modernFallsBack qs (Some i) = true /\
  modernSetCalls (mrun answers) = 0 /\
  modernFishingPOIs (mrun answers) = [] /\
  modernAllPOIs (mrun answers) = flat_map disc answers.
Proof.
  intros Hi Hissued.
  assert (Hq : Forall (fun a => publishes qs a = false) answers).
  { eapply Forall_impl; [|exact Hissued]. intros a Ha.
    unfold modernIssued in Ha. apply in_seq in Ha.
    unfold publishes. destruct (fst a =? List.length qs - 1) eqn:He.
    - apply Nat.eqb_eq in He. lia.
    - rewrite andb_false_r. reflexivity. }
  destruct (modern_fold_quiet (modernStart number) Hq) as (P1 & P2 & P3).
  unfold modernOver, modernFishingPOIs. rewrite P1, P2, P3.
  unfold modernFallsBack. repeat split; auto.
  apply Nat.ltb_lt. exact Hi.
Qed.

End ModernFacts.

(* ===================================================================== *)
(** ** The loader and the sessions of the component *)
(* ===================================================================== *)

Lemma step_scripts network w :
  mapsScripts w <= mapsScripts (step network w) <= Nat.max 1 (mapsScripts w).
Proof.
  destruct w as [m u l e g rc b gm ss api scripts key con ts tm calls].
  unfold step. cbn [timers mapsScripts].
  destruct tm as [|[rc'| |rc'|] rest]; cbn -[Nat.max]; try lia.
  - destruct (network scripts) as [a|]; cbn -[Nat.max]; [lia|].
    unfold script_onerror. destruct (rc' <? 3); cbn -[Nat.max]; lia.
  - unfold settleCheck. cbn -[Nat.max]. destruct api; cbn -[Nat.max]; lia.
  - unfold loadGoogleMaps. cbn -[Nat.max]. destruct api; cbn -[Nat.max]; [lia|].
    destruct scripts as [|k]; cbn -[Nat.max]; [|lia].
    destruct (truthy key); cbn -[Nat.max]; lia.
  - unfold pollTick. cbn -[Nat.max]. destruct api; cbn -[Nat.max]; lia.
Qed.

(** X9.  The loader never creates a second script element: however its
    callbacks run and whatever happens to the scripts, the number of script
    elements never decreases and never exceeds one, unless more were in the
    document to begin with. *)
Theorem loader_never_adds_a_second_script network n w :
  mapsScripts w <= mapsScripts (steps network n w) <= Nat.max 1 (mapsScripts w).
Proof.
  revert w. induction n as [|n IH]; intros w; cbn [steps]; [lia|].
  pose proof (step_scripts network w). pose proof (IH (step network w)). lia.
Qed.

Lemma steps_idle network n w : timers w = [] -> steps network n w = w.
Proof.
  intros Ht. induction n as [|n IH]; cbn [steps]; [reflexivity|].
  unfold step at 1. rewrite Ht. exact IH.
Qed.

(** X10.  Without a usable key (absent, or the empty string) the loader
    stops at once: no script element is created, the missing-key text is
    stored as the error, nothing is pending, and no later callback of the
    loader changes that.  The panel with that text is not what the
    component shows after the mount, since the mount effect calls
    [getCurrentLocation] right after [loadGoogleMaps]: with geolocation
    support the spinner is shown, the text waiting behind it; without, the
    panel shows the geolocation text, which has replaced it. *)
Theorem missing_key_is_terminal key network n :
  truthy key = false ->
  steps network n (startEngineLoader key) = startEngineLoader key /\
  error (startEngineLoader key) = Some missingKeyMessage /\
  loadAttempts (startEngineLoader key) = 0 /\
  timers (startEngineLoader key) = [] /\
  console (startEngineLoader key) = [console_error "Google Maps API key missing"] /\
  (renderContent (mount key true) = Spinner /\
   error (mount key true) = Some missingKeyMessage /\
   timers (mount key true) = []) /\
  (renderContent (mount key false) = ErrorPanel /\
   error (mount key false) = Some (errorText unsupported) /\
   timers (mount key false) = []).
Proof.
  intros Hk.
  assert (Hw : startEngineLoader key =
               set_isLoading false
                 (set_error (Some missingKeyMessage)
                    (log (console_error "Google Maps API key missing") (initialWorld key)))).
  { unfold startEngineLoader, loadGoogleMaps. cbn. rewrite Hk. reflexivity. }
  split; [apply steps_idle; rewrite Hw; reflexivity|].
  rewrite Hw.
  unfold mount, loadGoogleMaps, getCurrentLocation_start. cbn. rewrite Hk. cbn.
  repeat split.
Qed.

(** X11.  The polling branch does work when somebody else provides the
    API: once the loader polls after a failed first script, an API that
    appears at any later moment is noticed by the next tick, which marks the
    engine as loaded and clears the interval; no script element is added. *)
Theorem polling_notices_a_late_api network key n m :
  isGoogleMapsLoaded (steps network n (pollingWorld key)) = false /\
  isGoogleMapsLoaded
    (steps network (S m) (apiArrives (steps network n (pollingWorld key)))) = true /\
  timers (steps network (S m) (apiArrives (steps network n (pollingWorld key)))) = [] /\
  mapsScripts (steps network (S m) (apiArrives (steps network n (pollingWorld key)))) = 1.
Proof.
  assert (Hfix : steps network n (pollingWorld key) = pollingWorld key).
  { apply (@steps_fixed network (pollingWorld key) (pollingWorld key) 0 n); reflexivity. }
  rewrite Hfix. cbn [steps].
  assert (Hstep : timers (step network (apiArrives (pollingWorld key))) = [])
    by reflexivity.
  rewrite (steps_idle network m _ Hstep). repeat split.
Qed.

(** X13.  Retry without a usable key shows the same error again: the click
    ends in the missing-key panel, with no script element and nothing
    pending beyond what was. *)
Theorem retry_click_without_key w :
  windowGoogleMaps w = false -> mapsScripts w = 0 -> truthy (apiKey w) = false ->
  error (retryClick w) = Some missingKeyMessage /\
  renderContent (retryClick w) = ErrorPanel /\
  retryCount (retryClick w) = 0 /\
  mapsScripts (retryClick w) = 0 /\
  timers (retryClick w) = timers w.
Proof.
  intros Ha Hs Hk.
  destruct w as [m u l e g rc b gm ss api scripts key con ts tm calls].
  cbn in Ha, Hs, Hk. subst api scripts.
  unfold retryClick, loadGoogleMaps. cbn. rewrite Hk. cbn. repeat split.
Qed.

Lemma onPositionError_frame code w :
  timers (onPositionError code w) = timers w /\
  isGoogleMapsLoaded (onPositionError code w) = isGoogleMapsLoaded w /\
  windowGoogleMaps (onPositionError code w) = windowGoogleMaps w /\
  mapsScripts (onPositionError code w) = mapsScripts w /\
  retryCount (onPositionError code w) = retryCount w /\
  setTimeoutCalls (onPositionError code w) = setTimeoutCalls w /\
  eezBoundary (onPositionError code w) = eezBoundary w /\
  isMounted (onPositionError code w) = isMounted w /\
  isLoading (onPositionError code w) = false /\
  truthy (error (onPositionError code w)) = true /\
  error (onPositionError code w) <> Some exhaustedMessage.
Proof.
  unfold onPositionError.
  destruct (code =? PERMISSION_DENIED); [|destruct (code =? POSITION_UNAVAILABLE);
    [|destruct (code =? TIMEOUT)]]; cbn; repeat split; discriminate.
Qed.

Lemma fetchEezBoundary_frame r w :
  exists w', fetchEezBoundary r w = inr w' /\
    timers w' = timers w /\ isGoogleMapsLoaded w' = isGoogleMapsLoaded w /\
    windowGoogleMaps w' = windowGoogleMaps w /\ mapsScripts w' = mapsScripts w /\
    retryCount w' = retryCount w /\ setTimeoutCalls w' = setTimeoutCalls w /\
    isMounted w' = isMounted w /\ isLoading w' = isLoading w /\ error w' = error w /\
    userLocation w' = userLocation w /\
    eezBoundary w' =
      match r with
      | Resolved status (BodyJson data) =>
          if response_ok status && validEezData data then data else None
      | _ => None
      end.
Proof.
  unfold fetchEezBoundary, fetchEezBoundary_try.
  destruct r as [|status [|data]]; cbn.
  - eexists. split; [reflexivity|]. repeat split.
  - destruct (response_ok status); cbn; eexists; (split; [reflexivity|]); repeat split.
  - destruct (response_ok status); cbn.
    + destruct (validEezData data); cbn; eexists; (split; [reflexivity|]); repeat split.
    + eexists. split; [reflexivity|]. repeat split.
Qed.

Lemma step_firstRenderLoader network w :
  firstRenderLoader w -> error w <> Some exhaustedMessage ->
  firstRenderLoader (step network w) /\ error (step network w) <> Some exhaustedMessage.
Proof.
  destruct w as [m u l e g rc b gm ss api scripts key con ts tm calls].
  unfold firstRenderLoader. cbn [timers isGoogleMapsLoaded windowGoogleMaps mapsScripts
                                 retryCount setTimeoutCalls error].
  intros [H|[H|[H|[H|H]]]] He.
  - destruct H as (-> & -> & -> & -> & -> & ->).
    unfold step. cbn. destruct (network 1) as [a|]; cbn.
    + split; [|exact He]. right. left. repeat split.
    + split; [|exact He]. right. right. left. repeat split.
  - destruct H as (-> & -> & -> & -> & ->).
    unfold step, settleCheck. cbn. destruct api; cbn.
    + split; [|exact He]. do 4 right. repeat split; auto.
    + split; [|discriminate]. do 4 right. repeat split; auto; try discriminate.
  - destruct H as (-> & -> & -> & -> & -> & ->).
    unfold step, loadGoogleMaps. cbn.
    split; [|exact He]. do 3 right. left. repeat split.
  - destruct H as (-> & -> & -> & -> & -> & ->).
    unfold step, pollTick. cbn.
    split; [|exact He]. do 3 right. left. repeat split.
  - destruct H as (-> & H). unfold step. cbn. split; [|exact He]. do 4 right. auto.
Qed.

Lemma handle_firstRenderLoader network w ev :
  firstRenderLoader w -> error w <> Some exhaustedMessage ->
  firstRenderLoader (handle network w ev) /\
  error (handle network w ev) <> Some exhaustedMessage.
Proof.
  intros Hinv He. destruct ev as [|[latitude longitude accuracy|code]|r].
  - apply step_firstRenderLoader; assumption.
  - split; [|discriminate]. exact Hinv.
  - cbn [handle].
    destruct (onPositionError_frame code w)
      as (H1 & H2 & H3 & H4 & H5 & H6 & _ & _ & _ & _ & H7).
    split; [|exact H7].
    unfold firstRenderLoader. rewrite H1, H2, H3, H4, H5, H6. exact Hinv.
  - cbn [handle].
    destruct (fetchEezBoundary_frame r w)
      as (w' & -> & H1 & H2 & H3 & H4 & H5 & H6 & _ & _ & H7 & _).
    split; [|rewrite H7; exact He].
    unfold firstRenderLoader. rewrite H1, H2, H3, H4, H5, H6. exact Hinv.
Qed.

Lemma mount_firstRenderLoader key supported :
  firstRenderLoader (mount key supported) /\
  error (mount key supported) <> Some exhaustedMessage /\
  isMounted (mount key supported) = true.
Proof.
  unfold mount, loadGoogleMaps, getCurrentLocation_start. cbn.
  destruct (truthy key); destruct supported; cbn; repeat split; try discriminate.
  - left. repeat split.
  - left. repeat split.
  - do 4 right. repeat split; auto; try discriminate.
  - do 4 right. repeat split; auto; try discriminate.
Qed.

Lemma session_firstRenderLoader network key supported evs :
  firstRenderLoader (session network (mount key supported) evs) /\
  error (session network (mount key supported) evs) <> Some exhaustedMessage.
Proof.
  induction evs as [|ev evs IH] using rev_ind.
  - destruct (mount_firstRenderLoader key supported) as (H1 & H2 & _). auto.
  - rewrite session_snoc. destruct IH as [H1 H2]. apply handle_firstRenderLoader; assumption.
Qed.

(** X14.  In no session of the component is a second load attempted or the
    give-up branch of [script.onerror] reached: whatever the network does
    and whatever else happens, there is at most one script element, at most
    one retry wait, the retry counter never exceeds one, at most one loader
    callback is pending, and the error is never the after-3-attempts text,
    which [script.onerror] sets only when the count in its closure has
    reached three. *)
Theorem exhausted_retries_are_unreachable network key supported evs :
  loadAttempts (session network (mount key supported) evs) <= 1 /\
  retryWaits (session network (mount key supported) evs) <= 1 /\
  retryCount (session network (mount key supported) evs) <= 1 /\
  List.length (timers (session network (mount key supported) evs)) <= 1 /\
  error (session network (mount key supported) evs) <> Some exhaustedMessage /\
  (forall rc w, error (script_onerror rc w) = Some exhaustedMessage <->
                3 <= rc \/ error w = Some exhaustedMessage).
Proof.
  destruct (session_firstRenderLoader network key supported evs) as [Hinv He].
  unfold loadAttempts, retryWaits.
  assert (Hgive : forall rc w, error (script_onerror rc w) = Some exhaustedMessage <->
                               3 <= rc \/ error w = Some exhaustedMessage).
  { intros rc w. unfold script_onerror. destruct (rc <? 3) eqn:Hrc.
    - apply Nat.ltb_lt in Hrc. cbn. split; [auto | intros [H|H]; [lia | exact H]].
    - apply Nat.ltb_ge in Hrc. cbn. split; [auto | reflexivity]. }
  assert (Hmain :
    mapsScripts (session network (mount key supported) evs) <= 1 /\
    count_occ Nat.eq_dec (setTimeoutCalls (session network (mount key supported) evs)) 2000
      <= 1 /\
    retryCount (session network (mount key supported) evs) <= 1 /\
    List.length (timers (session network (mount key supported) evs)) <= 1).
  { destruct Hinv as [H|[H|[H|[H|H]]]].
    - destruct H as (-> & _ & _ & -> & -> & ->). cbn. repeat split; auto.
    - destruct H as (-> & _ & -> & -> & ->). cbn. repeat split; auto.
    - destruct H as (-> & _ & _ & -> & -> & ->). cbn. repeat split; auto.
    - destruct H as (-> & _ & _ & -> & -> & ->). cbn. repeat split; auto.
    - destruct H as (-> & _ & Hs & -> & [-> | ->]); cbn; repeat split; auto. }
  destruct Hmain as (H1 & H2 & H3 & H4).
  split; [exact H1 | split; [exact H2 | split; [exact H3 | split; [exact H4 |]]]].
  split; [exact He | exact Hgive].
Qed.

Lemma session_isMounted network key supported evs :
  isMounted (session network (mount key supported) evs) = true.
Proof.
  induction evs as [|ev evs IH] using rev_ind.
  - apply mount_firstRenderLoader.
  - rewrite session_snoc. destruct ev as [|[latitude longitude accuracy|code]|r].
    + revert IH. generalize (session network (mount key supported) evs). intros w Hw.
      destruct w as [m u l e g rc b gm ss api scripts key' con ts tm calls].
      cbn in Hw. subst m. unfold handle, step. cbn.
      destruct tm as [|[rc'| |rc'|] rest]; cbn; auto.
      * destruct (network scripts); cbn; auto.
        unfold script_onerror. destruct (rc' <? 3); reflexivity.
      * unfold settleCheck. cbn. destruct api; reflexivity.
      * unfold loadGoogleMaps. cbn. destruct api; cbn; auto.
        destruct scripts; cbn; auto. destruct (truthy key'); reflexivity.
      * unfold pollTick. cbn. destruct api; reflexivity.
    + exact IH.
    + cbn [handle]. destruct (onPositionError_frame code
                                (session network (mount key supported) evs))
        as (_ & _ & _ & _ & _ & _ & _ & -> & _). exact IH.
    + cbn [handle]. destruct (fetchEezBoundary_frame r
                                (session network (mount key supported) evs))
        as (w' & -> & _ & _ & _ & _ & _ & _ & -> & _). exact IH.
Qed.

Lemma step_loaded_has_api network w :
  (isGoogleMapsLoaded w = true -> windowGoogleMaps w = true) ->
  isGoogleMapsLoaded (step network w) = true -> windowGoogleMaps (step network w) = true.
Proof.
  destruct w as [m u l e g rc b gm ss api scripts key con ts tm calls].
  unfold step. cbn [timers]. intros H. cbn in H.
  destruct tm as [| [rc' | | rc' |] rest]; cbn; auto.
  - destruct (network scripts) as [a |]; cbn.
    + intros Hg. rewrite (H Hg). reflexivity.
    + unfold script_onerror. destruct (rc' <? 3); cbn; auto.
  - unfold settleCheck. cbn. destruct api; cbn; auto.
  - unfold loadGoogleMaps. cbn. destruct api; cbn; auto.
    destruct scripts; cbn; auto. destruct (truthy key); cbn; auto.
  - unfold pollTick. cbn. destruct api; cbn; auto.
Qed.

Lemma interact_loaded_has_api network w i :
  (isGoogleMapsLoaded w = true -> windowGoogleMaps w = true) ->
  isGoogleMapsLoaded (interact network w i) = true ->
  windowGoogleMaps (interact network w i) = true.
Proof.
  intros H. destruct i as [[| [latitude longitude accuracy | code] | r] | |];
    cbn [interact handle].
  - apply step_loaded_has_api. exact H.
  - exact H.
  - destruct (onPositionError_frame code w) as (_ & -> & -> & _). exact H.
  - destruct (fetchEezBoundary_frame r w) as (w' & -> & _ & -> & -> & _). exact H.
  - destruct (retryVisible w); [| exact H].
    destruct w as [m u l e g rc b gm ss api scripts key con ts tm calls].
    unfold retryClick, loadGoogleMaps. cbn in H |- *.
    destruct api; cbn; auto.
    destruct scripts; cbn; auto. destruct (truthy key); cbn; auto.
  - reflexivity.
Qed.

Lemma gateEffect_loaded_has_api w :
  isGoogleMapsLoaded (gateEffect w) = isGoogleMapsLoaded w /\
  windowGoogleMaps (gateEffect w) = windowGoogleMaps w.
Proof.
  unfold gateEffect, initializeMap.
  destruct (readinessGate w); [| auto].
  destruct (negb (mapRefCurrent w) || negb (isSome (userLocation w)) ||
            negb (windowGoogleMaps w)); [auto |].
  destruct w as [m u l e g rc b gm ss api scripts key con ts tm calls].
  cbn. destruct (isSome b); auto.
Qed.

Lemma lifetime_loaded_has_api network (interactions : list Interaction) : forall w,
  (isGoogleMapsLoaded w = true -> windowGoogleMaps w = true) ->
  isGoogleMapsLoaded (lifetime network w interactions) = true ->
  windowGoogleMaps (lifetime network w interactions) = true.
Proof.
  induction interactions as [| i l IH]; intros w H; [exact H |].
  change (lifetime network w (i :: l))
    with (lifetime network (gateEffect (interact network w i)) l).
  apply IH.
  destruct (gateEffect_loaded_has_api (interact network w i)) as [-> ->].
  apply interact_loaded_has_api. exact H.
Qed.

Lemma mountInto_loaded_has_api api scripts key supported :
  isGoogleMapsLoaded (mountInto api scripts key supported) = true ->
  windowGoogleMaps (mountInto api scripts key supported) = true.
Proof.
  unfold mountInto, loadGoogleMaps, getCurrentLocation_start. cbn.
  destruct api; cbn.
  - destruct supported; cbn; auto.
  - destruct scripts; cbn; [destruct (truthy key) |]; destruct supported; cbn; auto.
Qed.

(** X15.  Whenever an interaction leaves the readiness gate open, the
    effect that follows does start the map: the guard at the head of
    [initializeMap] cannot fire, since the API is in the page whenever the
    loader has reported it; the map is created and assigned to
    [googleMapRef.current], and one more search is started.  This holds for
    every document the component is mounted into and after every sequence
    of interactions (loader callbacks, geolocation answers, boundary
    responses, clicks on Retry, the API appearing in the page), on the path
    on which no call into the maps library throws.  The effect is taken to
    run after the interaction, see [react]. *)
Theorem open_gate_starts_the_search api scripts key supported network
        (interactions : list Interaction) (i : Interaction) :
  readinessGate
    (interact network
       (lifetime network (mountInto api scripts key supported) interactions) i) = true ->
  windowGoogleMaps
    (interact network
       (lifetime network (mountInto api scripts key supported) interactions) i) = true /\
  searchesStarted
    (react network
       (lifetime network (mountInto api scripts key supported) interactions) i) =
    S (searchesStarted
         (lifetime network (mountInto api scripts key supported) interactions)) /\
  googleMapRef
    (react network
       (lifetime network (mountInto api scripts key supported) interactions) i) = true.
Proof.
  pose proof (@lifetime_loaded_has_api network interactions _
                (@mountInto_loaded_has_api api scripts key supported)) as Hinv.
  destruct (interact_frame network
              (lifetime network (mountInto api scripts key supported) interactions) i)
    as (Hs & _).
  pose proof (@interact_loaded_has_api network _ i Hinv) as Hstep.
  unfold react. rewrite <- Hs.
  generalize dependent
    (interact network
       (lifetime network (mountInto api scripts key supported) interactions) i).
  intros w _ Hstep Hgate.
  assert (Hg := Hgate). unfold readinessGate in Hg.
  apply andb_prop in Hg. destruct Hg as [Hg Hb].
  apply andb_prop in Hg. destruct Hg as [Hg Hm].
  apply andb_prop in Hg. destruct Hg as [Hl Hu].
  assert (Hapi : windowGoogleMaps w = true) by (apply Hstep; exact Hl).
  split; [exact Hapi |].
  unfold gateEffect. rewrite Hgate. unfold initializeMap. rewrite Hm, Hu, Hapi.
  cbn [negb orb].
  destruct w as [m u l e g rc b gm ss api' scripts' key' con ts tm calls].
  cbn. destruct (isSome b); cbn; auto.
Qed.

Lemma spinner_interact network w i :
  answersGeolocation i = false -> isLoading w = true ->
  timers w = [] \/ timers w = [PollLoaded] ->
  isLoading (react network w i) = true /\
  error (react network w i) = error w /\
  mapsScripts (react network w i) = mapsScripts w /\
  searchesStarted (react network w i) = searchesStarted w /\
  (timers (react network w i) = [] \/ timers (react network w i) = [PollLoaded]).
Proof.
  intros Hi Hl Ht.
  assert (Hint : isLoading (interact network w i) = true /\
                 error (interact network w i) = error w /\
                 mapsScripts (interact network w i) = mapsScripts w /\
                 searchesStarted (interact network w i) = searchesStarted w /\
                 (timers (interact network w i) = [] \/
                  timers (interact network w i) = [PollLoaded])).
  { destruct i as [[| a | r] | |]; cbn [interact handle].
    - destruct w as [m u l e g rc b gm ss api scripts key con ts tm calls].
      cbn in Hl, Ht. subst l. unfold step. cbn [timers].
      destruct Ht as [-> | ->]; [cbn; repeat split; auto |].
      unfold pollTick. cbn. destruct api; cbn; repeat split; auto.
    - discriminate.
    - destruct (handle_frame network w (BoundaryFetchSettles r)) as (Hs & _).
      cbn [handle] in Hs.
      destruct (fetchEezBoundary_frame r w)
        as (w' & Hw & H1 & _ & _ & H4 & _ & _ & _ & H8 & H9 & _).
      rewrite Hw in Hs |- *. rewrite H1, H4, H8, H9. repeat split; auto.
    - assert (Hv : retryVisible w = false).
      { unfold retryVisible, renderContent. rewrite Hl. apply andb_false_r. }
      rewrite Hv. repeat split; auto.
    - unfold apiArrives.
      destruct w as [m u l e g rc b gm ss api scripts key con ts tm calls].
      cbn in *. repeat split; auto. }
  destruct Hint as (H1 & H2 & H3 & H4 & H5).
  assert (Hclosed : readinessGate (interact network w i) = false).
  { unfold readinessGate, mapRefCurrent, renderContent. rewrite H1.
    rewrite !andb_false_r. reflexivity. }
  unfold react. rewrite (@closed_gate_effect _ Hclosed). repeat split; auto.
Qed.

Lemma spinner_lifetime network (interactions : list Interaction) : forall w,
  forallb (fun i => negb (answersGeolocation i)) interactions = true ->
  isLoading w = true -> timers w = [] \/ timers w = [PollLoaded] ->
  isLoading (lifetime network w interactions) = true /\
  error (lifetime network w interactions) = error w /\
  mapsScripts (lifetime network w interactions) = mapsScripts w /\
  searchesStarted (lifetime network w interactions) = searchesStarted w.
Proof.
  induction interactions as [| i l IH]; intros w Hall Hl Ht; [repeat split; auto |].
  cbn [forallb] in Hall. apply andb_prop in Hall. destruct Hall as [Hi Hall].
  apply negb_true_iff in Hi.
  destruct (@spinner_interact network w i Hi Hl Ht) as (H1 & H2 & H3 & H4 & H5).
  change (lifetime network w (i :: l)) with (lifetime network (react network w i) l).
  destruct (IH _ Hall H1 H5) as (I1 & I2 & I3 & I4).
  rewrite I2, I3, I4, H2, H3, H4. repeat split; auto.
Qed.

(** X12.  Retry, when the loader is idle and a script element exists or
    the API is present, only brings the spinner back: the click clears the
    error and sets [isLoading], and the only thing that clears [isLoading]
    again is an answer to the position request, which the click does not
    ask for anew.  Until such an answer arrives, whatever else happens
    (loader callbacks, boundary responses, the API appearing in the page;
    further clicks are impossible, the button being gone), the spinner
    stays, no error is shown, no script element is created, the readiness
    gate is closed and no search is started. *)
Theorem retry_click_leaves_the_spinner network w (interactions : list Interaction) :
  timers w = [] ->
  windowGoogleMaps w = true \/ 1 <= mapsScripts w ->
  forallb (fun i => negb (answersGeolocation i)) interactions = true ->
  renderContent (lifetime network (retryClick w) interactions) = Spinner /\
  error (lifetime network (retryClick w) interactions) = None /\
  mapsScripts (lifetime network (retryClick w) interactions) = mapsScripts w /\
  readinessGate (lifetime network (retryClick w) interactions) = false /\
  searchesStarted (lifetime network (retryClick w) interactions) = searchesStarted w.
Proof.
  intros Ht Hs Hall.
  assert (Hclick : isLoading (retryClick w) = true /\ error (retryClick w) = None /\
                   mapsScripts (retryClick w) = mapsScripts w /\
                   searchesStarted (retryClick w) = searchesStarted w /\
                   (timers (retryClick w) = [] \/ timers (retryClick w) = [PollLoaded])).
  { destruct w as [m u l e g rc b gm ss api scripts key con ts tm calls].
    cbn in Ht, Hs. subst tm. unfold retryClick, loadGoogleMaps. cbn.
    destruct api; cbn; [repeat split; auto |].
    destruct Hs as [Hs | Hs]; [discriminate |].
    destruct scripts as [| k]; [lia |]. cbn. repeat split; auto. }
  destruct Hclick as (C1 & C2 & C3 & C4 & C5).
  destruct (@spinner_lifetime network interactions _ Hall C1 C5) as (H1 & H2 & H3 & H4).
  rewrite H2, H3, H4, C2, C3, C4.
  unfold readinessGate, mapRefCurrent, renderContent. rewrite H1.
  rewrite !andb_false_r. repeat split; auto.
Qed.

Lemma gateEffect_open w :
  readinessGate w = true -> windowGoogleMaps w = true ->
  readinessGate (gateEffect w) = true /\
  windowGoogleMaps (gateEffect w) = true /\
  searchesStarted (gateEffect w) = S (searchesStarted w).
Proof.
  intros Hgate Hapi. assert (Hg := Hgate). unfold readinessGate in Hg.
  apply andb_prop in Hg. destruct Hg as [Hg Hb].
  apply andb_prop in Hg. destruct Hg as [Hg Hm].
  apply andb_prop in Hg. destruct Hg as [Hl Hu].
  unfold gateEffect. rewrite Hgate. unfold initializeMap. rewrite Hm, Hu, Hapi.
  cbn [negb orb].
  destruct w as [m u l e g rc b gm ss api scripts key con ts tm calls].
  unfold readinessGate, mapRefCurrent, renderContent in *. cbn in *.
  destruct b as [boundary |]; [| discriminate Hb]. cbn.
  repeat split; [exact Hgate | exact Hapi].
Qed.

(** X17.  The effect has no guard against a second initialization: every
    time it runs with the gate open (its dependencies include the theme) it
    creates the map anew and starts the search again. *)
Theorem every_effect_run_restarts_the_search n w :
  readinessGate w = true -> windowGoogleMaps w = true ->
  searchesStarted (effectRuns n w) = searchesStarted w + n /\
  googleMapRef (effectRuns (S n) w) = true /\
  readinessGate (effectRuns n w) = true.
Proof.
  intros Hgate Hapi.
  assert (Hall : forall k,
             searchesStarted (effectRuns k w) = searchesStarted w + k /\
             readinessGate (effectRuns k w) = true /\
             windowGoogleMaps (effectRuns k w) = true).
  { induction k as [|k (I1 & I2 & I3)]; cbn [effectRuns].
    - rewrite Nat.add_0_r. auto.
    - destruct (gateEffect_open _ I2 I3) as (G1 & G2 & G3).
      rewrite G3, I1. repeat split; auto. }
  destruct (Hall n) as (H1 & H2 & H3). repeat split; auto.
  cbn [effectRuns]. unfold gateEffect at 1.
  rewrite H2. unfold initializeMap.
  assert (Hg := H2). unfold readinessGate in Hg.
  apply andb_prop in Hg. destruct Hg as [Hg _].
  apply andb_prop in Hg. destruct Hg as [Hg Hm].
  apply andb_prop in Hg. destruct Hg as [_ Hu].
  rewrite Hm, Hu, H3. cbn [negb orb].
  destruct (isSome (eezBoundary (set_googleMapRef true (effectRuns n w)))); reflexivity.
Qed.

(* ===================================================================== *)
(** ** Further properties of the distance *)
(* ===================================================================== *)

Module GeoMore.
Import GeoMath.
Local Open Scope R_scope.

Lemma sin_cos_sq x : sin x * sin x + cos x * cos x = 1.
Proof. pose proof (sin2_cos2 x) as H. unfold Rsqr in H. exact H. Qed.

Lemma dot_meridian lat1 lat2 longitude :
  dot (Location.mk lat1 longitude) (Location.mk lat2 longitude) =
  cos (lat2 * PI / 180 - lat1 * PI / 180).
Proof.
  unfold dot, ux, uy, uz, rad. cbn [Location.lat Location.lng].
  rewrite cos_minus.
  pose proof (sin_cos_sq (longitude * PI / 180)) as Hb.
  set (s1 := sin (lat1 * PI / 180)). set (c1 := cos (lat1 * PI / 180)).
  set (s2 := sin (lat2 * PI / 180)). set (c2 := cos (lat2 * PI / 180)).
  set (sb := sin (longitude * PI / 180)) in *. set (cb := cos (longitude * PI / 180)) in *.
  replace (c1 * cb * (c2 * cb) + c1 * sb * (c2 * sb) + s1 * s2)
    with (c1 * c2 * (sb * sb + cb * cb) + s1 * s2) by ring.
  rewrite Hb. ring.
Qed.

Lemma haversine_full_turn p q :
  haversine p (Location.mk (Location.lat q) (Location.lng q + 360)) = haversine p q.
Proof.
  unfold haversine. cbn [Location.lat Location.lng].
  replace ((Location.lng q + 360 - Location.lng p) * PI / 180 / 2)
    with ((Location.lng q - Location.lng p) * PI / 180 / 2 + PI) by lra.
  rewrite neg_sin. ring.
Qed.

End GeoMore.

(** X20.  Along a meridian the distance is the arc of the latitude
    difference: [6371 * |lat2 - lat1| * PI / 180], about 111.19 km per
    degree, for latitudes at most 180 degrees apart. *)
Theorem distance_along_a_meridian (lat1 lat2 longitude : R) :
  (Rabs (lat2 - lat1) <= 180)%R ->
  GeoMath.calculateDistance (Location.mk lat1 longitude) (Location.mk lat2 longitude) =
  (6371 * (Rabs (lat2 - lat1) * PI / 180))%R.
Proof.
  intros Hd. rewrite GeoFacts.calculateDistance_acos, GeoMore.dot_meridian.
  f_equal. pose proof PI_RGT_0 as Hpi.
  unfold Rabs in *. destruct (Rcase_abs (lat2 - lat1)) as [Hneg|Hpos].
  - rewrite <- cos_neg.
    replace (- (lat2 * PI / 180 - lat1 * PI / 180))%R
      with (- (lat2 - lat1) * PI / 180)%R by lra.
    apply acos_cos. split.
    + apply Rmult_le_pos; [|lra]. apply Rmult_le_pos; lra.
    + assert (- (lat2 - lat1) * PI <= 180 * PI)%R by (apply Rmult_le_compat_r; lra). lra.
  - replace (lat2 * PI / 180 - lat1 * PI / 180)%R
      with ((lat2 - lat1) * PI / 180)%R by lra.
    apply acos_cos. split.
    + apply Rmult_le_pos; [|lra]. apply Rmult_le_pos; lra.
    + assert ((lat2 - lat1) * PI <= 180 * PI)%R by (apply Rmult_le_compat_r; lra). lra.
Qed.

(** X21.  A full turn in longitude does not change the distance: a
    longitude and the same longitude plus 360 degrees name the same place. *)
Theorem distance_ignores_full_turns (p q : UserLocation R) :
  GeoMath.calculateDistance p (Location.mk (Location.lat q) (Location.lng q + 360)%R) =
  GeoMath.calculateDistance p q.
Proof.
  rewrite !GeoFacts.calculateDistance_unfold, GeoMore.haversine_full_turn. reflexivity.
Qed.

(** X22.  The distance vanishes exactly between coordinates of the same
    point of the sphere. *)
Theorem distance_zero_iff_same_point (p q : UserLocation R) :
  GeoMath.calculateDistance p q = 0%R <->
  GeoMath.ux p = GeoMath.ux q /\ GeoMath.uy p = GeoMath.uy q /\ GeoMath.uz p = GeoMath.uz q.
Proof.
  rewrite GeoFacts.calculateDistance_acos.
  pose proof (GeoFacts.unit_norm p) as Hp. pose proof (GeoFacts.unit_norm q) as Hq.
  pose proof (GeoFacts.dot_bounds p q) as Hb.
  split.
  - intros H0.
    assert (Ha : acos (GeoMath.dot p q) = 0%R) by lra.
    assert (Hd : GeoMath.dot p q = 1%R).
    { rewrite <- (cos_acos (GeoMath.dot p q) Hb), Ha. apply cos_0. }
    unfold GeoMath.dot in Hd.
    set (a := GeoMath.ux p) in *. set (b := GeoMath.uy p) in *. set (c := GeoMath.uz p) in *.
    set (a' := GeoMath.ux q) in *. set (b' := GeoMath.uy q) in *. set (c' := GeoMath.uz q) in *.
    assert (Hs : ((a - a') * (a - a') + (b - b') * (b - b') + (c - c') * (c - c') = 0)%R).
    { replace ((a - a') * (a - a') + (b - b') * (b - b') + (c - c') * (c - c'))%R
        with ((a * a + b * b + c * c) + (a' * a' + b' * b' + c' * c')
              - 2 * (a * a' + b * b' + c * c'))%R by ring.
      rewrite Hp, Hq, Hd. lra. }
    pose proof (Rle_0_sqr (a - a')) as H1. pose proof (Rle_0_sqr (b - b')) as H2.
    pose proof (Rle_0_sqr (c - c')) as H3. unfold Rsqr in H1, H2, H3.
    assert (E1 : ((a - a') * (a - a') = 0)%R) by lra.
    assert (E2 : ((b - b') * (b - b') = 0)%R) by lra.
    assert (E3 : ((c - c') * (c - c') = 0)%R) by lra.
    apply Rsqr_0_uniq in E1. apply Rsqr_0_uniq in E2. apply Rsqr_0_uniq in E3.
    repeat split; lra.
  - intros (H1 & H2 & H3).
    assert (Hd : GeoMath.dot p q = 1%R).
    { unfold GeoMath.dot. rewrite <- H1, <- H2, <- H3. exact Hp. }
    rewrite Hd, acos_1. lra.
Qed.

(* ===================================================================== *)
(** ** Location calls, border alerts, colours *)
(* ===================================================================== *)

Lemma errorText_truthy c : truthy (Some (errorText c)) = true.
Proof. destruct c; reflexivity. Qed.

Lemma getCurrentLocation_effect nav w :
  userLocation (getCurrentLocation nav w) = Some (storedLocation nav) /\
  isLoading (getCurrentLocation nav w) = false /\
  error (getCurrentLocation nav w) = option_map errorText (failureClass nav) /\
  List.length (toasts (getCurrentLocation nav w)) = S (List.length (toasts w)) /\
  timers (getCurrentLocation nav w) = timers w /\
  isGoogleMapsLoaded (getCurrentLocation nav w) = isGoogleMapsLoaded w /\
  eezBoundary (getCurrentLocation nav w) = eezBoundary w.
Proof.
  destruct nav as [|[latitude longitude accuracy|code]];
    unfold getCurrentLocation, getCurrentLocation_start, onPosition, onPositionError,
           storedLocation, failureClass.
  - cbn. rewrite length_app, Nat.add_comm. repeat split.
  - cbn. rewrite length_app, Nat.add_comm. repeat split.
  - destruct (code =? PERMISSION_DENIED); [|destruct (code =? POSITION_UNAVAILABLE);
      [|destruct (code =? TIMEOUT)]]; cbn; rewrite length_app, Nat.add_comm; repeat split.
Qed.

(** X23.  The last location call decides: after any sequence of calls of
    [getCurrentLocation] the stored location is the one the last call
    measured, or Chennai when it failed; the error is that of the last call
    and none after a measured position, so a later success replaces the
    error panel by the map; every call, failed or not, has raised exactly
    one notification; the loader and the boundary are left alone. *)
Theorem last_location_call_decides (navs : list Geolocation) (nav : Geolocation) (w : World) :
  userLocation (acquisitions (navs ++ [nav]) w) = Some (storedLocation nav) /\
  isLoading (acquisitions (navs ++ [nav]) w) = false /\
  error (acquisitions (navs ++ [nav]) w) = option_map errorText (failureClass nav) /\
  renderContent (acquisitions (navs ++ [nav]) w) =
    match failureClass nav with Some _ => ErrorPanel | None => MapView end /\
  List.length (toasts (acquisitions (navs ++ [nav]) w)) =
    List.length (toasts w) + S (List.length navs) /\
  timers (acquisitions (navs ++ [nav]) w) = timers w /\
  isGoogleMapsLoaded (acquisitions (navs ++ [nav]) w) = isGoogleMapsLoaded w /\
  eezBoundary (acquisitions (navs ++ [nav]) w) = eezBoundary w.
Proof.
  unfold acquisitions. rewrite fold_left_app. cbn [fold_left].
  assert (Hframe : forall l v,
             List.length (toasts (fold_left (fun w nav => getCurrentLocation nav w) l v)) =
               List.length (toasts v) + List.length l /\
             timers (fold_left (fun w nav => getCurrentLocation nav w) l v) = timers v /\
             isGoogleMapsLoaded (fold_left (fun w nav => getCurrentLocation nav w) l v) =
               isGoogleMapsLoaded v /\
             eezBoundary (fold_left (fun w nav => getCurrentLocation nav w) l v) =
               eezBoundary v).
  { induction l as [|x l IH]; intros v; cbn [fold_left List.length].
    - rewrite Nat.add_0_r. auto.
    - destruct (IH (getCurrentLocation x v)) as (I1 & I2 & I3 & I4).
      destruct (getCurrentLocation_effect x v) as (_ & _ & _ & E4 & E5 & E6 & E7).
      rewrite I1, I2, I3, I4, E4, E5, E6, E7. repeat split. lia. }
  destruct (Hframe navs w) as (F1 & F2 & F3 & F4).
  destruct (getCurrentLocation_effect nav
              (fold_left (fun w nav => getCurrentLocation nav w) navs w))
    as (E1 & E2 & E3 & E4 & E5 & E6 & E7).
  rewrite E1, E2, E3, E4, E5, E6, E7, F1, F2, F3, F4.
  repeat split; try lia.
  unfold renderContent. rewrite E2, E3.
  destruct (failureClass nav) as [c|]; cbn [option_map]; [|reflexivity].
  rewrite errorText_truthy. reflexivity.
Qed.

(** X24.  Border alerts are only ever appended: after any sequence of
    crossings the alert list is the earlier list followed by the crossings
    in the order they were reported, repetitions included, and the console
    has one line per crossing. *)
Theorem border_alerts_accumulate (FishingBorderAlert : Type)
        (alertName : FishingBorderAlert -> string)
        (crossings : list FishingBorderAlert) (log0 : AlertLog FishingBorderAlert) :
  borderAlerts (fold_left (handleBorderCrossing alertName) crossings log0) =
    borderAlerts log0 ++ crossings /\
  alertConsole (fold_left (handleBorderCrossing alertName) crossings log0) =
    alertConsole log0 ++
    map (fun b => String.append "Border crossing detected: " (alertName b)) crossings.
Proof.
  revert log0. induction crossings as [|b l IH]; intros log0; cbn [fold_left map].
  - rewrite !app_nil_r. auto.
  - destruct (IH (handleBorderCrossing alertName log0 b)) as [-> ->].
    cbn [handleBorderCrossing borderAlerts alertConsole].
    rewrite <- !app_assoc. auto.
Qed.

(** X25.  The list and the modern markers give every category a colour of
    its own, and none of them is the fallback colour of an unknown type;
    the legacy marker icons do not: marina and boat ramp get the same
    purple there, and no other two categories coincide. *)
Theorem category_colours (t1 t2 : POIType) :
  (getColorForPOI (typeName t1) = getColorForPOI (typeName t2) -> t1 = t2) /\
  getColorForPOI (typeName t1) <> getColorForPOI "unknown" /\
  (markerHTMLColor t1 = markerHTMLColor t2 -> t1 = t2) /\
  (sameColour (markerIconColor t1) (markerIconColor t2) = true <->
   t1 = t2 \/ (t1 = marina /\ t2 = boat_ramp) \/ (t1 = boat_ramp /\ t2 = marina)).
Proof.
  repeat split.
  - destruct t1, t2; cbn; intros H; try reflexivity; discriminate H.
  - destruct t1; cbn; discriminate.
  - destruct t1, t2; cbn; intros H; try reflexivity; discriminate H.
  - destruct t1, t2; vm_compute; intros H; try discriminate H; auto.
  - intros [->|[[-> ->]|[-> ->]]]; [destruct t2|..]; reflexivity.
Qed.

(* ===================================================================== *)
(** ** The further statements at concrete inputs *)
(* ===================================================================== *)

Lemma Nat_compare_sign : SignOfDifference Nat.compare Nat.le.
Proof.
  split.
  - intros x y. split.
    + intros H. destruct (Nat.compare x y) eqn:E; try congruence.
      * apply Nat.compare_eq_iff in E. lia.
      * apply Nat.compare_lt_iff in E. lia.
    + intros H E. apply Nat.compare_gt_iff in E. lia.
  - intros x y. apply Nat.compare_eq_iff.
  - intros x y. lia.
  - intros x y z. apply Nat.le_trans.
Qed.

Lemma gridRun_schedule : schedule searches gridRun.
Proof.
  unfold schedule. cbn.
  eapply perm_trans; [apply perm_swap | apply perm_skip, perm_swap].
Qed.

Lemma failingRun_schedule : schedule searches failingRun.
Proof. apply Permutation_refl. Qed.

Lemma crowdedRun_schedule : schedule searches crowdedRun.
Proof. apply Permutation_refl. Qed.

(** The grid run: all six entries are labelled. *)
Lemma published_entries_are_labelled_witness :
  Forall (fun p => name p <> EmptyString /\ description p <> EmptyString /\ id p mod 10 < 3)
         (fishingPOIs (searchNearbyFishingPlaces Nat.compare gridDistance
                         (Location.mk 0 0) gridRun)).
Proof.
  unfold searchNearbyFishingPlaces.
  apply Forall_forall. intros p Hp.
  destruct (@published_entries_are_labelled nat Nat.compare gridDistance searches
              (Location.mk 0 0) gridRun p searches_nonempty gridRun_schedule Hp)
    as (H1 & H2 & _ & _ & H5).
  auto.
Defined.

(** The grid run stays within 21 entries and ids below 70. *)
Lemma published_size_bounds_witness :
  List.length (fishingPOIs (searchNearbyFishingPlaces Nat.compare gridDistance
                              (Location.mk 0 0) gridRun)) <= 21 /\
  Forall (fun p => id p < 70)
         (fishingPOIs (searchNearbyFishingPlaces Nat.compare gridDistance
                         (Location.mk 0 0) gridRun)).
Proof.
  unfold searchNearbyFishingPlaces.
  destruct (@published_size_bounds nat Nat.compare gridDistance searches
              (Location.mk 0 0) gridRun searches_nonempty gridRun_schedule)
    as (H1 & _ & H3).
  split; [exact H1 | apply Forall_forall; exact H3].
Defined.

(** Seven failed queries: one publication, of the empty list, seven console
    lines. *)
Lemma all_queries_fail_witness :
  setFishingPOIsCalls (searchNearbyFishingPlaces Nat.compare gridDistance
                         (Location.mk 0 0) failingRun) = 1 /\
  poiPanel (fishingPOIs (searchNearbyFishingPlaces Nat.compare gridDistance
                           (Location.mk 0 0) failingRun)) = NothingFound /\
  List.length (searchLog (searchNearbyFishingPlaces Nat.compare gridDistance
                            (Location.mk 0 0) failingRun)) = 7.
Proof.
  unfold searchNearbyFishingPlaces.
  assert (Hf : Forall (fun c : Completion nat => failed (snd c) = true) failingRun)
    by (repeat constructor).
  destruct (@all_queries_fail_publishes_empty nat Nat.compare gridDistance searches
              (Location.mk 0 0) failingRun searches_nonempty failingRun_schedule Hf)
    as (_ & H2 & _ & H4 & H5).
  split; [exact H2 | split; [exact H4 | exact H5]].
Defined.

(** Fourteen entries are published, at distances 0, 7, 1, 8, ... in the
    order of discovery; the ten that are shown are those at distances 0 to
    9, and none of the four left out is nearer than any of them. *)
Lemma displayed_are_the_nearest_witness :
  List.length (displayedPOIs (fishingPOIs (searchNearbyFishingPlaces Nat.compare gridDistance
                                             (Location.mk 0 0) crowdedRun))) = 10 /\
  map (@distance nat)
      (displayedPOIs (fishingPOIs (searchNearbyFishingPlaces Nat.compare gridDistance
                                     (Location.mk 0 0) crowdedRun))) =
    [0; 1; 2; 3; 4; 5; 6; 7; 8; 9] /\
  Forall (fun a =>
            Forall (fun b => distance a <= distance b)
                   (hiddenPOIs (fishingPOIs (searchNearbyFishingPlaces Nat.compare gridDistance
                                               (Location.mk 0 0) crowdedRun))))
         (displayedPOIs (fishingPOIs (searchNearbyFishingPlaces Nat.compare gridDistance
                                        (Location.mk 0 0) crowdedRun))) /\
  NoDup (map id (displayedPOIs (fishingPOIs (searchNearbyFishingPlaces Nat.compare
                                               gridDistance (Location.mk 0 0) crowdedRun)))).
Proof.
  unfold searchNearbyFishingPlaces.
  destruct (@displayed_are_the_nearest nat Nat.compare gridDistance searches
              (Location.mk 0 0) Nat.le crowdedRun Nat_compare_sign searches_nonempty
              crowdedRun_schedule)
    as (H1 & _ & H3 & _ & H5).
  split; [rewrite H1; reflexivity | split; [reflexivity | split; [| exact H5]]].
  apply Forall_forall. intros a Ha. apply Forall_forall. intros b Hb.
  exact (H3 a b Ha Hb).
Defined.

(** The last category fails: nothing is published although two places were
    found. *)
Lemma modern_publishes_on_last_category_only_witness :
  modernSetCalls (searchNearbyFishingPlacesModern Nat.compare gridDistance
                    (Location.mk 0 0) lastFails) = 0 /\
  modernFishingPOIs (searchNearbyFishingPlacesModern Nat.compare gridDistance
                       (Location.mk 0 0) lastFails) = [] /\
  List.length (modernAllPOIs (searchNearbyFishingPlacesModern Nat.compare gridDistance
                                (Location.mk 0 0) lastFails)) = 2.
Proof.
  unfold searchNearbyFishingPlacesModern.
  destruct (@modern_publishes_on_last_category_only nat Nat.compare gridDistance
              modernSearches (Location.mk 0 0) lastFails) as (H1 & _ & H3).
  destruct (H3 eq_refl) as [H4 H5].
  split; [rewrite H1; reflexivity | split; [exact H4 | rewrite H5; reflexivity]].
Defined.

(** The nearest place arrives after the last category: it is shown last. *)
Lemma modern_late_answers_witness :
  map (fun p => (id p, distance p))
      (modernFishingPOIs (searchNearbyFishingPlacesModern Nat.compare gridDistance
                            (Location.mk 0 0) (earlyAnswers ++ lastAnswer :: lateAnswers))) =
  [(60, 1); (0, 18); (10, 0)].
Proof.
  unfold searchNearbyFishingPlacesModern.
  destruct (@modern_late_answers_are_appended_unsorted nat Nat.compare gridDistance
              modernSearches (Location.mk 0 0) earlyAnswers lateAnswers lastAnswer)
    as [H _]; [repeat constructor | reflexivity | repeat constructor |].
  rewrite H. reflexivity.
Defined.

Lemma orderedAnswers_schedule :
  schedule modernSearches (map (@asCompletion nat) (orderedAnswers ++ [lastAnswer])).
Proof. apply Permutation_refl. Qed.

(** Seven answers in index order: both searches publish the same list. *)
Lemma modern_agrees_with_legacy_witness :
  modernFishingPOIs (searchNearbyFishingPlacesModern Nat.compare gridDistance
                       (Location.mk 0 0) (orderedAnswers ++ [lastAnswer])) =
  fishingPOIs (searchOver Nat.compare gridDistance modernSearches (Location.mk 0 0)
                 (map (@asCompletion nat) (orderedAnswers ++ [lastAnswer]))).
Proof.
  unfold searchNearbyFishingPlacesModern.
  apply (@modern_agrees_with_legacy nat Nat.compare gridDistance modernSearches
           (Location.mk 0 0) orderedAnswers lastAnswer).
  - discriminate.
  - exact orderedAnswers_schedule.
  - reflexivity.
Defined.

(** The query of category 3 throws; categories 0 and 1 have answered. *)
Lemma modern_throw_never_publishes_witness :
  modernFallsBack modernSearches (Some 3) = true /\
  modernSetCalls (searchNearbyFishingPlacesModern Nat.compare gridDistance
                    (Location.mk 0 0) (earlyAnswers ++ lateAnswers)) = 0.
Proof.
  unfold searchNearbyFishingPlacesModern.
  destruct (@modern_throw_never_publishes nat Nat.compare gridDistance modernSearches
              (Location.mk 0 0) 3 (earlyAnswers ++ lateAnswers))
    as (H1 & H2 & _).
  - cbn. lia.
  - apply Forall_forall. intros a Ha. cbn in Ha.
    destruct Ha as [<-|[<-|[]]]; cbn; auto.
  - split; [exact H1 | exact H2].
Defined.

(** An empty key counts as no key. *)
Lemma missing_key_witness :
  steps permanentFailure 5 (startEngineLoader (Some EmptyString)) =
    startEngineLoader (Some EmptyString) /\
  error (startEngineLoader (Some EmptyString)) = Some missingKeyMessage /\
  renderContent (mount (Some EmptyString) true) = Spinner /\
  renderContent (mount (Some EmptyString) false) = ErrorPanel.
Proof.
  destruct (@missing_key_is_terminal (Some EmptyString) permanentFailure 5 eq_refl)
    as (H1 & H2 & _ & _ & _ & (H6 & _) & (H7 & _)).
  split; [exact H1 | split; [exact H2 | split; [exact H6 | exact H7]]].
Defined.

(** Retry after the script loaded without the API: the spinner, also when
    the API appears and a boundary arrives. *)
Lemma retry_click_witness :
  renderContent
    (lifetime loadsWithApi (retryClick (apiAbsentWorld "key"))
       [Occurs TimerFires; ApiAttaches; Occurs TimerFires; RetryClicked;
        Occurs (BoundaryFetchSettles (Resolved 200 (BodyJson (Some oneFeature))))]) =
    Spinner /\
  readinessGate
    (lifetime loadsWithApi (retryClick (apiAbsentWorld "key"))
       [Occurs TimerFires; ApiAttaches; Occurs TimerFires; RetryClicked;
        Occurs (BoundaryFetchSettles (Resolved 200 (BodyJson (Some oneFeature))))]) =
    false.
Proof.
  destruct (@retry_click_leaves_the_spinner loadsWithApi (apiAbsentWorld "key")
              [Occurs TimerFires; ApiAttaches; Occurs TimerFires; RetryClicked;
               Occurs (BoundaryFetchSettles (Resolved 200 (BodyJson (Some oneFeature))))]
              eq_refl (or_intror (le_n 1)) eq_refl)
    as (H1 & _ & _ & H4 & _).
  split; [exact H1 | exact H4].
Defined.

(** Retry without a key. *)
Lemma retry_click_without_key_witness :
  error (retryClick (startEngineLoader None)) = Some missingKeyMessage /\
  renderContent (retryClick (startEngineLoader None)) = ErrorPanel.
Proof.
  destruct (@retry_click_without_key (startEngineLoader None) eq_refl eq_refl eq_refl)
    as (H1 & H2 & _).
  split; [exact H1 | exact H2].
Defined.

Lemma successEvents_gate :
  readinessGate (session loadsWithApi (mount (Some "key"%string) true) successEvents) = true.
Proof. reflexivity. Qed.

(** The session in which everything succeeds. *)
Lemma open_gate_starts_the_search_witness :
  searchesStarted
    (react loadsWithApi
       (lifetime loadsWithApi (mountInto false 0 (Some "key"%string) true)
          [Occurs (BoundaryFetchSettles (Resolved 200 (BodyJson (Some oneFeature))));
           Occurs TimerFires; Occurs TimerFires])
       (Occurs (GeolocationAnswers (GotPosition 13.0827 80.2707 10)))) = 1 /\
  googleMapRef
    (react loadsWithApi
       (lifetime loadsWithApi (mountInto false 0 (Some "key"%string) true)
          [Occurs (BoundaryFetchSettles (Resolved 200 (BodyJson (Some oneFeature))));
           Occurs TimerFires; Occurs TimerFires])
       (Occurs (GeolocationAnswers (GotPosition 13.0827 80.2707 10)))) = true.
Proof.
  destruct (@open_gate_starts_the_search false 0 (Some "key"%string) true loadsWithApi
              [Occurs (BoundaryFetchSettles (Resolved 200 (BodyJson (Some oneFeature))));
               Occurs TimerFires; Occurs TimerFires]
              (Occurs (GeolocationAnswers (GotPosition 13.0827 80.2707 10))) eq_refl)
    as (_ & H2 & H3).
  split; [exact H2 | exact H3].
Defined.


(** One degree of latitude. *)
Lemma distance_along_a_meridian_witness :
  GeoMath.calculateDistance (Location.mk 13 80)%R (Location.mk 14 80)%R =
  (6371 * (Rabs (14 - 13) * PI / 180))%R.
Proof.
  apply (@distance_along_a_meridian 13%R 14%R 80%R).
  unfold Rabs. destruct (Rcase_abs (14 - 13)); lra.
Defined.

(** At the pole every longitude is the same place. *)
Lemma distance_zero_witness :
  GeoMath.calculateDistance (Location.mk 90 0)%R (Location.mk 90 50)%R = 0%R.
Proof.
  apply (proj2 (distance_zero_iff_same_point (Location.mk 90 0)%R (Location.mk 90 50)%R)).
  unfold GeoMath.ux, GeoMath.uy, GeoMath.uz, GeoMath.rad. cbn [Location.lat Location.lng].
  replace (90 * PI / 180)%R with (PI / 2)%R by lra.
  rewrite cos_PI2. repeat split; ring.
Defined.

(** The two purples of the legacy icons. *)
Lemma category_colours_witness :
  sameColour (markerIconColor marina) (markerIconColor boat_ramp) = true /\
  markerHTMLColor marina <> markerHTMLColor boat_ramp.
Proof.
  destruct (category_colours marina boat_ramp) as (_ & _ & H3 & H4).
  split.
  - apply H4. right. left. split; reflexivity.
  - intros H. apply H3 in H. discriminate H.
Defined.

(** The theme is switched once after the gate has opened: two searches. *)
Lemma every_effect_run_witness :
  searchesStarted
    (effectRuns 2
       (session loadsWithApi (mount (Some "key"%string) true) successEvents)) = 2.
Proof.
  destruct (@every_effect_run_restarts_the_search 2
              (session loadsWithApi (mount (Some "key"%string) true) successEvents)
              successEvents_gate eq_refl)
    as (H1 & _).
  rewrite H1. reflexivity.
Defined.

(** The distance from (-12, -180) to (12, 0) in doubles: not a number, and
    not equal to the distance back. *)
Lemma antipodal_distance_witness :
  Double.calculateDistance Double.tableSin Double.tableCos Double.tableAtan2
    Double.westPoint Double.eastPoint = PrimFloat.nan /\
  PrimFloat.eqb
    (Double.calculateDistance Double.tableSin Double.tableCos Double.tableAtan2
       Double.westPoint Double.eastPoint)
    (Double.calculateDistance Double.tableSin Double.tableCos Double.tableAtan2
       Double.eastPoint Double.westPoint) = false.
Proof.
  destruct (@antipodal_distance_is_not_a_number Double.tableSin Double.tableCos
              Double.tableAtan2 eq_refl eq_refl eq_refl eq_refl (fun y => eq_refl))
    as (_ & H2 & H3 & _).
  split; [exact H2 | apply H3].
Defined.
